(** * compare_tessellation_logs: a shallow embedding and its properties

    The development follows [tools/compare_tessellation_logs.py] function by
    function.  Python values are modelled as follows.

    - [str] is a list of Unicode code points, [bytes] a list of [Byte.byte];
    - [int] is [Z]; [float] is the kernel's binary64 [float], so overflow,
      underflow, signed zeros and NaN behave as they do in CPython;
    - exceptions are the [Raise] results of a small error monad, and a
      [try]/[except] is [try_except];
    - what the script takes from the interpreter ([float()], [int()],
      [math.hypot], [math.acos], the native byte order) is the [Platform]
      class, and [cpython] is a reference instance that runs;
    - [main] starts from the parsed arguments and prints through a small
      output monad, [io]; the formats of the numbers it prints are the
      [Formatting] class, and [cpython_formatting] is a reference instance
      that runs. *)

From Stdlib Require Import Strings.String Strings.Ascii.
From Stdlib Require Import ZArith NArith List Bool Lia Floats.
From Stdlib Require Strings.Byte.
Import ListNotations.

Set Warnings "-inexact-float".

(** ** Exceptions and the error monad *)

Definition str := list N.

Definition lit (s : string) : str :=
  map N_of_ascii (list_ascii_of_string s).

Inductive exn : Type :=
| ParseError (msg : str)
| ValueError
| IndexError
| ZeroDivisionError.

Inductive result (A : Type) : Type :=
| Ok (a : A)
| Raise (e : exn).

Arguments Ok {A} a.
Arguments Raise {A} e.

Definition bind {A B : Type} (m : result A) (k : A -> result B) : result B :=
  match m with
  | Ok a => k a
  | Raise e => Raise e
  end.

Notation "x <- m ;; k" := (bind m (fun x => k))
  (at level 61, m at next level, right associativity).

Notation "' pat <- m ;; k" := (bind m (fun x => match x with pat => k end))
  (at level 61, pat pattern, m at next level, right associativity).

(** [try: body except (kinds) as exc: raise ParseError(msg) from exc]. *)
Definition try_except {A : Type} (body : result A) (caught : exn -> bool)
           (handler : result A) : result A :=
  match body with
  | Ok a => Ok a
  | Raise e => if caught e then handler else Raise e
  end.

Definition is_ParseError (e : exn) : bool :=
  match e with ParseError _ => true | _ => false end.

(** [except (ValueError, IndexError)]. *)
Definition value_or_index (e : exn) : bool :=
  match e with ValueError | IndexError => true | _ => false end.

(** [except Exception]: every exception of the model derives from it. *)
Definition any_exception (e : exn) : bool := true.

Definition of_option {A : Type} (e : exn) (o : option A) : result A :=
  match o with Some a => Ok a | None => Raise e end.

(** ** Python string operations *)

Module Str.

(** Code points for which [str.isspace] holds, the set [str.strip] and
    the argument-less [str.split] use. *)
Definition isspace (c : N) : bool :=
  ((9 <=? c) && (c <=? 13) || (28 <=? c) && (c <=? 32)
   || (c =? 133) || (c =? 160) || (c =? 5760)
   || (8192 <=? c) && (c <=? 8202)
   || (c =? 8232) || (c =? 8233) || (c =? 8239) || (c =? 8287)
   || (c =? 12288))%N.

Fixpoint lstrip (s : str) : str :=
  match s with
  | [] => []
  | c :: s' => if isspace c then lstrip s' else s
  end.

Definition rstrip (s : str) : str := rev (lstrip (rev s)).

Definition strip (s : str) : str := rstrip (lstrip s).

Fixpoint eqb (s t : str) : bool :=
  match s, t with
  | [], [] => true
  | c :: s', d :: t' => (c =? d)%N && eqb s' t'
  | _, _ => false
  end.

Fixpoint startswith (s prefix : str) {struct prefix} : bool :=
  match prefix, s with
  | [], _ => true
  | p :: prefix', c :: s' => (c =? p)%N && startswith s' prefix'
  | _ :: _, [] => false
  end.

Definition endswith (s suffix : str) : bool :=
  startswith (rev s) (rev suffix).

(** [s[n:]] and [s[:-1]] for the non-negative [n] the script uses. *)
Definition drop (n : nat) (s : str) : str := skipn n s.
Definition drop_last (s : str) : str := removelast s.

(** [s.split(sep)] and [s.split(sep, maxsplit)] for a non-empty [sep]:
    a left-to-right scan for non-overlapping occurrences.  [skip] counts
    the characters of a separator still to be passed over, [cur] is the
    current piece reversed, [budget] the splits left ([None]: no bound). *)
Fixpoint split_go (sep : str) (s : str) (skip : nat) (cur : str)
         (budget : option nat) : list str :=
  match s with
  | [] => [rev cur]
  | c :: s' =>
      match skip with
      | S n => split_go sep s' n cur budget
      | O =>
          match budget with
          | Some O => split_go sep s' 0 (c :: cur) budget
          | _ =>
              if startswith s sep
              then rev cur ::
                   split_go sep s' (length sep - 1) []
                            (option_map pred budget)
              else split_go sep s' 0 (c :: cur) budget
          end
      end
  end.

Definition split (s sep : str) : list str := split_go sep s 0 [] None.

Definition split_max (s sep : str) (maxsplit : nat) : list str :=
  split_go sep s 0 [] (Some maxsplit).

(** [s.split()]: the maximal runs of non-whitespace characters. *)
Fixpoint words_go (s : str) (cur : str) : list str :=
  match s with
  | [] => match cur with [] => [] | _ => [rev cur] end
  | c :: s' =>
      if isspace c
      then match cur with
           | [] => words_go s' []
           | _ => rev cur :: words_go s' []
           end
      else words_go s' (c :: cur)
  end.

Definition words (s : str) : list str := words_go s [].

(** Line boundaries of [str.splitlines]. *)
Definition is_linebreak (c : N) : bool :=
  ((10 <=? c) && (c <=? 13) || (28 <=? c) && (c <=? 30)
   || (c =? 133) || (c =? 8232) || (c =? 8233))%N.

Fixpoint splitlines_go (s : str) (cur : str) : list str :=
  match s with
  | [] => match cur with [] => [] | _ => [rev cur] end
  | c :: s' =>
      if (c =? 13)%N
      then match s' with
           | d :: s'' =>
               if (d =? 10)%N
               then rev cur :: splitlines_go s'' []
               else rev cur :: splitlines_go s' []
           | [] => [rev cur]
           end
      else if is_linebreak c
           then rev cur :: splitlines_go s' []
           else splitlines_go s' (c :: cur)
  end.

Definition splitlines (s : str) : list str := splitlines_go s [].

End Str.

(** [seq[i]] with Python's negative indices and its [IndexError]. *)
Definition getitem {A : Type} (l : list A) (i : Z) : result A :=
  let n := Z.of_nat (length l) in
  let j := if (i <? 0)%Z then (i + n)%Z else i in
  if ((0 <=? j) && (j <? n))%Z
  then of_option IndexError (nth_error l (Z.to_nat j))
  else Raise IndexError.

(** [range(n)]. *)
Definition range (n : Z) : list Z := map Z.of_nat (seq 0 (Z.to_nat n)).

(** ** Codecs: [bytes.decode] in strict mode *)

Module Codec.

Definition bytes := list Byte.byte.

Definition code (b : Byte.byte) : N := Byte.to_N b.

Definition cont (b : N) : bool := ((128 <=? b) && (b <=? 191))%N.

Definition between (lo b hi : N) : bool := ((lo <=? b) && (b <=? hi))%N.

(** Well-formed UTF-8 (Unicode table 3-7): no overlong form, no surrogate,
    nothing above U+10FFFF. *)
Fixpoint utf8_go (bs : list N) : option str :=
  match bs with
  | [] => Some []
  | b0 :: r0 =>
      if (b0 <? 128)%N then option_map (cons b0) (utf8_go r0)
      else if between 194 b0 223 then
        match r0 with
        | b1 :: r1 =>
            if cont b1
            then option_map (cons ((b0 - 192) * 64 + (b1 - 128))%N)
                            (utf8_go r1)
            else None
        | [] => None
        end
      else if between 224 b0 239 then
        match r0 with
        | b1 :: b2 :: r2 =>
            if (if (b0 =? 224)%N then between 160 b1 191
                else if (b0 =? 237)%N then between 128 b1 159
                else cont b1) && cont b2
            then option_map
                   (cons ((b0 - 224) * 4096 + (b1 - 128) * 64
                          + (b2 - 128))%N)
                   (utf8_go r2)
            else None
        | _ => None
        end
      else if between 240 b0 244 then
        match r0 with
        | b1 :: b2 :: b3 :: r3 =>
            if (if (b0 =? 240)%N then between 144 b1 191
                else if (b0 =? 244)%N then between 128 b1 143
                else cont b1) && cont b2 && cont b3
            then option_map
                   (cons ((b0 - 240) * 262144 + (b1 - 128) * 4096
                          + (b2 - 128) * 64 + (b3 - 128))%N)
                   (utf8_go r3)
            else None
        | _ => None
        end
      else None
  end.

Definition utf8 (raw : bytes) : option str := utf8_go (map code raw).

(** "utf-8-sig": a leading EF BB BF is dropped, the rest is UTF-8. *)
Definition utf8_sig (raw : bytes) : option str :=
  match map code raw with
  | b0 :: b1 :: b2 :: rest =>
      if ((b0 =? 239) && (b1 =? 187) && (b2 =? 191))%N
      then utf8_go rest
      else utf8_go (b0 :: b1 :: b2 :: rest)
  | bs => utf8_go bs
  end.

(** The 16-bit units of a buffer; an odd length is "truncated data". *)
Fixpoint units (little : bool) (bs : list N) : option (list N) :=
  match bs with
  | [] => Some []
  | b0 :: b1 :: r =>
      option_map
        (cons (if little then b0 + 256 * b1 else b1 + 256 * b0)%N)
        (units little r)
  | [_] => None
  end.

(** Surrogate pairs are joined; a lone surrogate is an error. *)
Fixpoint join_surrogates (us : list N) : option str :=
  match us with
  | [] => Some []
  | u :: r =>
      if between 55296 u 57343 then
        if (u <=? 56319)%N then
          match r with
          | v :: r' =>
              if between 56320 v 57343
              then option_map
                     (cons (65536 + (u - 55296) * 1024 + (v - 56320))%N)
                     (join_surrogates r')
              else None
          | [] => None
          end
        else None
      else option_map (cons u) (join_surrogates r)
  end.

Definition utf16_go (little : bool) (bs : list N) : option str :=
  match units little bs with
  | Some us => join_surrogates us
  | None => None
  end.

(** "utf-16-le": no byte-order mark is interpreted. *)
Definition utf16_le (raw : bytes) : option str :=
  utf16_go true (map code raw).

(** "utf-16": a leading FF FE or FE FF selects the byte order and is
    dropped; without one the native byte order is used. *)
Definition utf16 (native_little : bool) (raw : bytes) : option str :=
  match map code raw with
  | b0 :: b1 :: rest =>
      if ((b0 =? 255) && (b1 =? 254))%N then utf16_go true rest
      else if ((b0 =? 254) && (b1 =? 255))%N then utf16_go false rest
      else utf16_go native_little (b0 :: b1 :: rest)
  | bs => utf16_go native_little bs
  end.

End Codec.

(** ** What the script takes from the interpreter

    [float_of_str] and [int_of_str] are [float(s)] and [int(s)], [None]
    standing for their [ValueError]; [math_hypot] and [math_acos] are the
    C library functions behind [math.hypot] and [math.acos];
    [sys_little_endian] is the byte order "utf-16" falls back to. *)

Class Platform : Type := {
  sys_little_endian : bool;
  float_of_str : str -> option float;
  int_of_str : str -> option Z;
  math_hypot : float -> float -> float;
  math_acos : float -> float
}.

(** The special values the C standard (Annex F) fixes for the two library
    functions: [hypot(x, 0)] is [fabs(x)], [hypot(inf, y)] is [+inf] for
    every [y], and [acos(1)] is [+0]. *)
Class PlatformLaws (P : Platform) : Prop := {
  hypot_zero_r : forall x : float, math_hypot x 0 = abs x;
  hypot_zero_l : forall y : float, math_hypot 0 y = abs y;
  hypot_infinity : forall y : float, math_hypot infinity y = infinity;
  acos_one : math_acos 1 = 0%float
}.

(** [for item in items: state = body(state, item)], stopping at the first
    exception. *)
Fixpoint for_each {S A : Type} (body : S -> A -> result S) (items : list A)
         (s : S) : result S :=
  match items with
  | [] => Ok s
  | item :: rest => s' <- body s item ;; for_each body rest s'
  end.

(** Tuple unpacking: a wrong length is a [ValueError]. *)
Definition unpack2 {A : Type} (l : list A) : result (A * A) :=
  match l with
  | [a; b] => Ok (a, b)
  | _ => Raise ValueError
  end.

Definition unpack3 {A : Type} (l : list A) : result (A * A * A) :=
  match l with
  | [a; b; c] => Ok (a, b, c)
  | _ => Raise ValueError
  end.

(** ** The data model *)

Definition Point : Type := float * float.
Definition Triangle : Type := Point * Point * Point.

Definition POLYLINE_PREFIX : str := lit "Polyline:".
Definition TRIANGLE_PREFIX : str := lit "Triangle".

Record PolylineDump : Type := {
  index : Z;
  point_count : Z;
  width : float;
  layer : str;
  triangles : list Triangle
}.

Record TriangleMetrics : Type := {
  area : float;
  min_angle_deg : float;
  edge_lengths : float * float * float
}.

Record TriangleDiff : Type := {
  triangle_index : Z;
  max_vertex_delta : float;
  max_coord_delta : float;
  area_a : float;
  area_b : float;
  min_angle_a : float;
  min_angle_b : float;
  vertices_a : Triangle;
  vertices_b : Triangle
}.

Section Script.

Context {P : Platform}.

(** ** [_iter_lines] *)

(** The [for encoding in (...)] loop: the first codec that decodes [raw]. *)
Definition encodings : list (Codec.bytes -> option str) :=
  [Codec.utf8; Codec.utf8_sig; Codec.utf16 sys_little_endian; Codec.utf16_le].

Fixpoint first_decoding (encs : list (Codec.bytes -> option str))
         (raw : Codec.bytes) : option str :=
  match encs with
  | [] => None
  | decode :: rest =>
      match decode raw with
      | Some text => Some text
      | None => first_decoding rest raw
      end
  end.

(** [raw] is what [path.read_bytes()] returned. *)
Definition _iter_lines (path : str) (raw : Codec.bytes) : result (list str) :=
  match first_decoding encodings raw with
  | Some text => Ok (Str.splitlines text)
  | None =>
      Raise (ParseError
               (lit "Unable to decode " ++ path ++ lit " as UTF-8/UTF-16"))
  end.

(** ** [_parse_polyline_header] *)

Definition header_error (line : str) : exn :=
  ParseError (lit "Unable to parse polyline header: '" ++ line ++ lit "'").

(** The body of the [try]. *)
Definition header_fields (line : str) : result (Z * float * str) :=
  let head := Str.strip (Str.drop (length POLYLINE_PREFIX) line) in
  let parts := map Str.strip (Str.split head (lit ",")) in
  '(point_part, width_part, layer_part) <- unpack3 parts ;;
  token <- getitem (Str.words point_part) 0 ;;
  point_count <- of_option ValueError (int_of_str token) ;;
  width_text <- getitem (Str.split_max width_part (lit ":") 1) 1 ;;
  width <- of_option ValueError (float_of_str width_text) ;;
  layer_text <- getitem (Str.split_max layer_part (lit ":") 1) 1 ;;
  Ok (point_count, width, Str.strip layer_text).

Definition _parse_polyline_header (line : str) (index : Z)
  : result PolylineDump :=
  '(point_count, width, layer) <-
     try_except (header_fields line) value_or_index
                (Raise (header_error line)) ;;
  Ok {| index := index;
        point_count := point_count;
        width := width;
        layer := layer;
        triangles := [] |}.

(** ** [_parse_triangle_line] *)

Definition triangle_error (line : str) : exn :=
  ParseError (lit "Unable to parse triangle line: '" ++ line ++ lit "'").

(** The brackets of a chunk removed and its two components separated. *)
Definition chunk_components (chunk : str) : result (str * str) :=
  let chunk := Str.strip chunk in
  let chunk :=
    if Str.endswith chunk (lit "]") then Str.drop_last chunk else chunk in
  let chunk :=
    if Str.startswith chunk (lit "[") then Str.drop 1 chunk else chunk in
  unpack2 (map Str.strip (Str.split_max chunk (lit ",") 1)).

(** One turn of [for chunk in triples]. *)
Definition parse_chunk (vertices : list Point) (chunk : str)
  : result (list Point) :=
  '(x_str, y_str) <- chunk_components chunk ;;
  x <- of_option ValueError (float_of_str x_str) ;;
  y <- of_option ValueError (float_of_str y_str) ;;
  Ok (vertices ++ [(x, y)]).

(** The body of the [try]. *)
Definition triangle_body (line : str) : result Triangle :=
  '(_, payload) <- unpack2 (Str.split_max line (lit ":") 1) ;;
  let triples := Str.split (Str.strip payload) (lit "],") in
  vertices <- for_each parse_chunk triples [] ;;
  if negb (length vertices =? 3)%nat then Raise ValueError
  else
    v0 <- getitem vertices 0 ;;
    v1 <- getitem vertices 1 ;;
    v2 <- getitem vertices 2 ;;
    Ok (v0, v1, v2).

Definition _parse_triangle_line (line : str) : result Triangle :=
  try_except (triangle_body line) any_exception (Raise (triangle_error line)).

(** ** [parse_log] *)

(** The two variables the loop updates: [polylines] and [current]. *)
Definition parser_state : Type := list PolylineDump * option PolylineDump.

Definition finish_current (st : parser_state) : parser_state :=
  match snd st with
  | Some current => (fst st ++ [current], None)
  | None => st
  end.

(** [current.triangles.append(triangle)]. *)
Definition append_triangle (current : PolylineDump) (triangle : Triangle)
  : PolylineDump :=
  {| index := index current;
     point_count := point_count current;
     width := width current;
     layer := layer current;
     triangles := triangles current ++ [triangle] |}.

Definition orphan_triangle_error (path : str) : exn :=
  ParseError
    (lit "Triangle line encountered before polyline header in " ++ path).

(** One turn of [for raw_line in _iter_lines(path)]. *)
Definition parse_line (path : str) (st : parser_state) (raw_line : str)
  : result parser_state :=
  let line := Str.strip raw_line in
  match line with
  | [] => Ok st
  | _ :: _ =>
      if Str.startswith line POLYLINE_PREFIX then
        let st := finish_current st in
        current <- _parse_polyline_header line (Z.of_nat (length (fst st))) ;;
        Ok (fst st, Some current)
      else if Str.startswith line TRIANGLE_PREFIX then
        match snd st with
        | None => Raise (orphan_triangle_error path)
        | Some current =>
            triangle <- _parse_triangle_line line ;;
            Ok (fst st, Some (append_triangle current triangle))
        end
      else Ok st
  end.

(** The loop and the final [finish_current()], over lines already decoded. *)
Definition parse_lines (path : str) (lines : list str)
  : result (list PolylineDump) :=
  st <- for_each (parse_line path) lines ([], None) ;;
  Ok (fst (finish_current st)).

Definition parse_log (path : str) (raw : Codec.bytes)
  : result (list PolylineDump) :=
  lines <- _iter_lines path raw ;;
  parse_lines path lines.

(** ** Floating-point primitives *)

Local Open Scope float_scope.

(** [max(a, b)] and [min(a, b)]: the first argument is kept unless the
    second compares strictly greater (smaller), so a NaN in second place
    never wins. *)
Definition py_max (a b : float) : float := if a <? b then b else a.
Definition py_min (a b : float) : float := if b <? a then b else a.

(** [x / y] raises on a zero divisor of either sign. *)
Definition truediv (x y : float) : result float :=
  if y =? 0 then Raise ZeroDivisionError else Ok (x / y).

Definition math_pi : float := 3.141592653589793.

(** [math.acos]: "math domain error" outside [-1, 1]. *)
Definition py_acos (x : float) : result float :=
  if (x <? -1) || (1 <? x) then Raise ValueError else Ok (math_acos x).

(** [min(iterable)]. *)
Definition py_min_of (items : list float) : result float :=
  match items with
  | [] => Raise ValueError
  | first :: rest => Ok (fold_left py_min rest first)
  end.

(** ** Geometry metrics *)

Definition _distance (p q : Point) : float :=
  math_hypot (fst p - fst q) (snd p - snd q).

(** One turn of [for i in range(3)]. *)
Definition angle_at (sides : list float) (angles_rad : list float) (i : Z)
  : result (list float) :=
  a <- getitem sides i ;;
  b <- getitem sides ((i + 1) mod 3)%Z ;;
  c <- getitem sides ((i + 2) mod 3)%Z ;;
  if (b =? 0) || (c =? 0) then Ok (angles_rad ++ [0])
  else
    cos_angle <- truediv (b * b + c * c - a * a) (2 * b * c) ;;
    let cos_angle := py_max (-1) (py_min 1 cos_angle) in
    angle <- py_acos cos_angle ;;
    Ok (angles_rad ++ [angle]).

(** The list [angles_rad] when the loop is over. *)
Definition internal_angles (ab bc ca : float) : result (list float) :=
  for_each (angle_at [ab; bc; ca]) (range 3) [].

(** [angle * 180.0 / math.pi for angle in angles_rad]. *)
Definition to_degrees (angle : float) : result float :=
  truediv (angle * 180) math_pi.

Fixpoint map_result {A B : Type} (f : A -> result B) (l : list A)
  : result (list B) :=
  match l with
  | [] => Ok []
  | x :: r => y <- f x ;; ys <- map_result f r ;; Ok (y :: ys)
  end.

Definition _min_internal_angle (ab bc ca : float) : result float :=
  angles_rad <- internal_angles ab bc ca ;;
  degrees <- map_result to_degrees angles_rad ;;
  py_min_of degrees.

Definition triangle_metrics (tri : Triangle) : result TriangleMetrics :=
  let '(a, b, c) := tri in
  let ab := _distance a b in
  let bc := _distance b c in
  let ca := _distance c a in
  let area :=
    0.5 * abs ((fst b - fst a) * (snd c - snd a)
               - (fst c - fst a) * (snd b - snd a)) in
  min_angle <- _min_internal_angle ab bc ca ;;
  Ok {| area := area;
        min_angle_deg := min_angle;
        edge_lengths := (ab, bc, ca) |}.

(** ** Comparator *)

Definition vertices (t : Triangle) : list Point :=
  let '(a, b, c) := t in [a; b; c].

(** One turn of [for va, vb in zip(a, b)]; the state is
    [(max_vertex_delta, max_coord_delta)]. *)
Definition delta_step (acc : float * float) (pair : Point * Point)
  : float * float :=
  let '(max_vertex, max_coord) := acc in
  let '(va, vb) := pair in
  let dx := abs (fst va - fst vb) in
  let dy := abs (snd va - snd vb) in
  let max_coord := py_max (py_max max_coord dx) dy in
  let max_vertex := py_max max_vertex (math_hypot dx dy) in
  (max_vertex, max_coord).

Definition _triangle_delta (a b : Triangle) : float * float :=
  fold_left delta_step (combine (vertices a) (vertices b)) (0, 0).

(** One turn of [for idx in range(...)]. *)
Definition compare_at (reference candidate : PolylineDump) (tolerance : float)
           (diffs : list TriangleDiff) (idx : Z) : result (list TriangleDiff) :=
  tri_a <- getitem (triangles reference) idx ;;
  tri_b <- getitem (triangles candidate) idx ;;
  let '(max_delta, max_coord) := _triangle_delta tri_a tri_b in
  if max_delta <=? tolerance then Ok diffs
  else
    metrics_a <- triangle_metrics tri_a ;;
    metrics_b <- triangle_metrics tri_b ;;
    Ok (diffs ++
        [{| triangle_index := idx;
            max_vertex_delta := max_delta;
            max_coord_delta := max_coord;
            area_a := area metrics_a;
            area_b := area metrics_b;
            min_angle_a := min_angle_deg metrics_a;
            min_angle_b := min_angle_deg metrics_b;
            vertices_a := tri_a;
            vertices_b := tri_b |}]).

Definition len {A : Type} (l : list A) : Z := Z.of_nat (length l).

(** [min(limit, len(reference.triangles), len(candidate.triangles))]. *)
Definition comparison_range (reference candidate : PolylineDump)
           (max_triangles : option Z) : Z :=
  let limit :=
    match max_triangles with
    | Some cap => cap
    | None => Z.max (len (triangles reference)) (len (triangles candidate))
    end in
  Z.min (Z.min limit (len (triangles reference)))
        (len (triangles candidate)).

Definition compare_polylines (reference candidate : PolylineDump)
           (tolerance : float) (max_triangles : option Z)
  : result (list TriangleDiff) :=
  for_each (compare_at reference candidate tolerance)
           (range (comparison_range reference candidate max_triangles)) [].

(** [collect_sharp_triangles]: the inner loop over one polyline, then the
    outer loop. *)
Definition sharp_at (poly : PolylineDump) (angle_threshold : float)
           (results : list (Z * Z * TriangleMetrics))
           (item : Z * Triangle) : result (list (Z * Z * TriangleMetrics)) :=
  let '(idx, triangle) := item in
  metrics <- triangle_metrics triangle ;;
  if min_angle_deg metrics <=? angle_threshold
  then Ok (results ++ [(index poly, idx, metrics)])
  else Ok results.

Definition enumerate {A : Type} (l : list A) : list (Z * A) :=
  combine (range (len l)) l.

Definition collect_sharp_triangles (polylines : list PolylineDump)
           (angle_threshold : float)
  : result (list (Z * Z * TriangleMetrics)) :=
  for_each
    (fun results poly =>
       for_each (sharp_at poly angle_threshold)
                (enumerate (triangles poly)) results)
    polylines [].

End Script.

(** ** A reference platform

    CPython on a little-endian machine, restricted to ASCII numerals:
    [float()] with correct rounding to binary64, [int()] in base ten, and
    stand-ins for the two C library functions that are exact on the values
    [PlatformLaws] fixes.  It is what the closed examples below run on. *)

Module Reference.

Local Open Scope Z_scope.

Definition digit (c : N) : option Z :=
  if ((48 <=? c) && (c <=? 57))%N then Some (Z.of_N (c - 48)) else None.

Definition is_digit (c : N) : bool :=
  match digit c with Some _ => true | None => false end.

(** The longest prefix of the form [digit (["_"] digit)*], and what
    follows it. *)
Fixpoint read_digits (s : str) (after_digit : bool) : list Z * str :=
  match s with
  | [] => ([], [])
  | c :: s' =>
      match digit c with
      | Some d => let (ds, rest) := read_digits s' true in (d :: ds, rest)
      | None =>
          if ((c =? 95)%N && after_digit)%bool then
            match s' with
            | c' :: _ =>
                if is_digit c' then read_digits s' false else ([], s)
            | [] => ([], s)
            end
          else ([], s)
      end
  end.

Definition number (ds : list Z) : Z :=
  fold_left (fun acc d => 10 * acc + d) ds 0.

Definition read_sign (s : str) : bool * str :=
  match s with
  | 45%N :: s' => (true, s')
  | 43%N :: s' => (false, s')
  | _ => (false, s)
  end.

Definition int_of_str (s : str) : option Z :=
  let (neg, body) := read_sign (Str.strip s) in
  match read_digits body false with
  | (d :: ds, []) =>
      let n := number (d :: ds) in Some (if neg then - n else n)
  | _ => None
  end.

(** The binary64 value nearest to [m * 10 ^ e], ties to even. *)
Definition of_decimal (neg : bool) (m e : Z) : float :=
  match m with
  | Zpos p =>
      SF2Prim
        (if 0 <=? e
         then binary_normalize prec emax
                (if neg then - (m * 10 ^ e) else m * 10 ^ e) 0 false
         else
           let '(q, e', loc) :=
             SFdiv_core_binary prec emax m 0 (10 ^ (- e)) 0 in
           binary_round_aux prec emax neg q e' loc)
  | _ => if neg then neg_zero else zero
  end.

Definition lower (c : N) : N :=
  if ((65 <=? c) && (c <=? 90))%N then (c + 32)%N else c.

(** An optional exponent part [("e" | "E") ["+" | "-"] digitpart]. *)
Definition read_exponent (s : str) : option Z :=
  match s with
  | [] => Some 0
  | c :: s' =>
      if (lower c =? 101)%N then
        let (neg, body) := read_sign s' in
        match read_digits body false with
        | (d :: ds, []) =>
            let n := number (d :: ds) in Some (if neg then - n else n)
        | _ => None
        end
      else None
  end.

Definition float_of_str (s : str) : option float :=
  let (neg, body) := read_sign (Str.strip s) in
  let word := map lower body in
  if Str.eqb word (lit "inf") || Str.eqb word (lit "infinity")
  then Some (if neg then neg_infinity else infinity)
  else if Str.eqb word (lit "nan") then Some nan
  else
    let (int_digits, rest) := read_digits body false in
    let (frac_digits, rest) :=
      match rest with
      | 46%N :: rest' => read_digits rest' false
      | _ => ([], rest)
      end in
    match int_digits ++ frac_digits with
    | [] => None
    | mantissa =>
        match read_exponent rest with
        | Some e =>
            Some (of_decimal neg (number mantissa)
                             (e - Z.of_nat (length frac_digits)))
        | None => None
        end
    end.

Local Open Scope float_scope.

(** [hypot]: exact when an argument is zero, scaled by the larger
    magnitude otherwise. *)
Definition hypot (x y : float) : float :=
  if y =? 0 then abs x
  else if x =? 0 then abs y
  else if is_infinity x || is_infinity y then infinity
  else
    let ax := abs x in
    let ay := abs y in
    let hi := if ax <? ay then ay else ax in
    let lo := if ax <? ay then ax else ay in
    let r := lo / hi in
    hi * sqrt (1 + r * r).

(** [acos] on [0, 1] by the polynomial of Abramowitz and Stegun 4.4.46
    (absolute error below 1e-7), reflected for negative arguments. *)
Definition acos_poly (x : float) : float :=
  sqrt (1 - x) *
  (1.5707963050 + x * (-0.2145988016 + x * (0.0889789874 + x *
   (-0.0501743046 + x * (0.0308918810 + x * (-0.0170881256 + x *
   (0.0066700901 + x * -0.0012624911))))))).

Definition acos (x : float) : float :=
  if x <? 0 then 3.141592653589793 - acos_poly (- x) else acos_poly x.

End Reference.

#[export] Instance cpython : Platform := {|
  sys_little_endian := true;
  float_of_str := Reference.float_of_str;
  int_of_str := Reference.int_of_str;
  math_hypot := Reference.hypot;
  math_acos := Reference.acos
|}.


(** ** Notions the statements use *)

(** Occurrences of "," in a string. *)
Definition commas (s : str) : nat := count_occ N.eq_dec s 44%N.

Section Notions.

Context {P : Platform}.

(** A vertex chunk is numeric when, its brackets removed, it splits at its
    first comma into two texts [float()] accepts. *)
Definition numeric_chunk (chunk : str) (v : Point) : Prop :=
  exists x_str y_str,
    chunk_components chunk = Ok (x_str, y_str)
    /\ float_of_str x_str = Some (fst v)
    /\ float_of_str y_str = Some (snd v).

(** A raw line that the parser takes for a polyline header. *)
Definition is_header (raw_line : str) : bool :=
  Str.startswith (Str.strip raw_line) POLYLINE_PREFIX.

(** The stripped lines of [lines] that are triangle entries. *)
Definition triangle_entries (lines : list str) : list str :=
  filter (fun line => Str.startswith line TRIANGLE_PREFIX)
         (map Str.strip lines).

(** [current] after [current.triangles.append(t)] for each [t] of [tris]. *)
Definition with_triangles (current : PolylineDump) (tris : list Triangle)
  : PolylineDump :=
  fold_left append_triangle tris current.

(** The records closed so far are numbered by position, and the open
    record has the next number. *)
Definition numbered (st : parser_state) : Prop :=
  (forall (i : nat) (d : PolylineDump),
      nth_error (fst st) i = Some d -> index d = Z.of_nat i)
  /\ (forall c, snd st = Some c -> index c = Z.of_nat (length (fst st))).

Local Open Scope float_scope.

(** The angle of one corner: [a] is the opposite side, [b] and [c] the
    adjacent ones. *)
Definition corner_angle (a b c : float) : result float :=
  if (b =? 0) || (c =? 0) then Ok 0
  else
    cos_angle <- truediv (b * b + c * c - a * a) (2 * b * c) ;;
    py_acos (py_max (-1) (py_min 1 cos_angle)).

(** The triangles at one index, when both sequences have one. *)
Definition aligned (reference candidate : PolylineDump) (idx : Z)
  : option (Triangle * Triangle) :=
  match getitem (triangles reference) idx,
        getitem (triangles candidate) idx with
  | Ok tri_a, Ok tri_b => Some (tri_a, tri_b)
  | _, _ => None
  end.

(** The comparator's own test at an index: not [max_delta <= tolerance]. *)
Definition reported_at (reference candidate : PolylineDump)
           (tolerance : float) (idx : Z) : bool :=
  match aligned reference candidate idx with
  | Some (tri_a, tri_b) =>
      negb (fst (_triangle_delta tri_a tri_b) <=? tolerance)
  | None => false
  end.

(** [max_vertex_delta] strictly exceeds the tolerance at an index. *)
Definition exceeds (reference candidate : PolylineDump) (tolerance : float)
           (idx : Z) : bool :=
  match aligned reference candidate idx with
  | Some (tri_a, tri_b) => tolerance <? fst (_triangle_delta tri_a tri_b)
  | None => false
  end.

(** The area [triangle_metrics] stores. *)
Definition triangle_area (tri : Triangle) : float :=
  let '(a, b, c) := tri in
  0.5 * abs ((fst b - fst a) * (snd c - snd a)
             - (fst c - fst a) * (snd b - snd a)).

(** The Euclidean distances of the three vertex pairs, in vertex order. *)
Definition vertex_deltas (a b : Triangle) : list float :=
  map (fun pair : Point * Point =>
         let '(va, vb) := pair in
         math_hypot (abs (fst va - fst vb)) (abs (snd va - snd vb)))
      (combine (vertices a) (vertices b)).



Definition within (x target eps : float) : bool := abs (x - target) <=? eps.

(** What the scanner keeps of one enumerated triangle of [poly]. *)
Definition sharp_entry (poly : PolylineDump) (angle_threshold : float)
           (item : Z * Triangle) : list (Z * Z * TriangleMetrics) :=
  match triangle_metrics (snd item) with
  | Ok metrics =>
      if (min_angle_deg metrics <=? angle_threshold)%float
      then [(index poly, fst item, metrics)]
      else []
  | Raise _ => []
  end.

Definition sharp_entries (angle_threshold : float) (poly : PolylineDump)
  : list (Z * Z * TriangleMetrics) :=
  flat_map (sharp_entry poly angle_threshold) (enumerate (triangles poly)).

End Notions.

(** [x] is a number: not a NaN. *)
Definition is_number (x : float) : bool := (x =? x)%float.

(** ** Sample inputs *)

(** A reference triangle with two coincident vertices and an edge of length
    1e-200, and a candidate that differs from it by 1 at the first vertex. *)
Definition sliver : Triangle := ((0, 0), (0, 0), (1e-200, 0))%float.
Definition moved : Triangle := ((1, 0), (0, 0), (0, 0))%float.
Definition collinear : Triangle :=
  ((0, 0), (1e-200, 0), (2e-200, 0))%float.

(** A right triangle with legs of 1e200, and one with a vertex at
    infinity. *)
Definition huge : Triangle := ((0, 0), (1e200, 0), (0, 1e200))%float.

(** The comparison example of the specification. *)
Definition unit_triangle : Triangle := ((0, 0), (1, 0), (0, 1))%float.
Definition nudged_triangle : Triangle := ((0, 0), (1, 0), (0, 1.002))%float.

Definition dump_of (tris : list Triangle) : PolylineDump :=
  {| index := 0; point_count := 3; width := 0.5%float; layer := lit "L";
     triangles := tris |}.

(** ** Further notions *)

Section MoreNotions.

Context {P : Platform}.

(** A raw line that the parser takes for a triangle entry. *)
Definition is_entry (raw_line : str) : bool :=
  Str.startswith (Str.strip raw_line) TRIANGLE_PREFIX.

(** The lines the parser does not skip. *)
Definition relevant (raw_line : str) : bool :=
  is_header raw_line || is_entry raw_line.

(** The records of a parser state, the open one last. *)
Definition records (st : parser_state) : list PolylineDump :=
  fst st ++ match snd st with Some current => [current] | None => [] end.

(** The message of the [ParseError] of [_iter_lines]. *)
Definition decode_error (path : str) : exn :=
  ParseError (lit "Unable to decode " ++ path ++ lit " as UTF-8/UTF-16").

End MoreNotions.

(** A record as its header gives it, before any triangle is appended. *)
Definition opened (d : PolylineDump) : PolylineDump :=
  {| index := index d;
     point_count := point_count d;
     width := width d;
     layer := layer d;
     triangles := [] |}.

(** A result with its value mapped, an exception left as it is. *)
Definition map_ok {A B : Type} (f : A -> B) (r : result A) : result B :=
  match r with
  | Ok a => Ok (f a)
  | Raise e => Raise e
  end.

(** A diff with the two sides exchanged. *)
Definition swap_diff (d : TriangleDiff) : TriangleDiff :=
  {| triangle_index := triangle_index d;
     max_vertex_delta := max_vertex_delta d;
     max_coord_delta := max_coord_delta d;
     area_a := area_b d;
     area_b := area_a d;
     min_angle_a := min_angle_b d;
     min_angle_b := min_angle_a d;
     vertices_a := vertices_b d;
     vertices_b := vertices_a d |}.

(** A triangle as [float("nan")] coordinates give it. *)
Definition nan_point : Point := (nan, nan).
Definition nan_triangle : Triangle := (nan_point, nan_point, nan_point).

(** Not negative, and not a NaN. *)
Definition SFnonneg (x : spec_float) : bool :=
  match x with
  | S754_zero _ => true
  | S754_infinity s | S754_finite s _ _ => negb s
  | S754_nan => false
  end.

(** The division of a corner is by zero: neither adjacent side is zero,
    but [2 * b * c] is. *)
Definition vanishing_product (b c : float) : bool :=
  (negb ((b =? 0) || (c =? 0)) && (2 * b * c =? 0))%float.

Section FailureNotions.
Context {P : Platform}.

(** Some corner of the triangle divides by zero. *)
Definition vanishing (tri : Triangle) : bool :=
  let '(a, b, c) := tri in
  let ab := _distance a b in
  let bc := _distance b c in
  let ca := _distance c a in
  vanishing_product bc ca || vanishing_product ca ab
  || vanishing_product ab bc.

End FailureNotions.

Section DiffNotions.
Context {P : Platform}.

(** The comparator has to compute the metrics at an index, and one of the
    two triangles there divides by zero. *)
Definition fails_at (reference candidate : PolylineDump) (tolerance : float)
           (idx : Z) : bool :=
  reported_at reference candidate tolerance idx
  && match aligned reference candidate idx with
     | Some (tri_a, tri_b) => vanishing tri_a || vanishing tri_b
     | None => false
     end.

(** What a diff holds: the two triangles at its index, their deltas and
    their metrics. *)
Definition diff_of (reference candidate : PolylineDump) (d : TriangleDiff)
  : Prop :=
  aligned reference candidate (triangle_index d)
  = Some (vertices_a d, vertices_b d)
  /\ _triangle_delta (vertices_a d) (vertices_b d)
     = (max_vertex_delta d, max_coord_delta d)
  /\ exists metrics_a metrics_b,
      triangle_metrics (vertices_a d) = Ok metrics_a
      /\ triangle_metrics (vertices_b d) = Ok metrics_b
      /\ area_a d = area metrics_a
      /\ area_b d = area metrics_b
      /\ min_angle_a d = min_angle_deg metrics_a
      /\ min_angle_b d = min_angle_deg metrics_b.

End DiffNotions.

(** A record with its index moved up by [k]. *)
Definition shift_index (k : Z) (d : PolylineDump) : PolylineDump :=
  {| index := k + index d;
     point_count := point_count d;
     width := width d;
     layer := layer d;
     triangles := triangles d |}.

(** The state of the parser when [before] stands for the records closed
    before the ones of [st]. *)
Definition after_records (before : list PolylineDump) (st : parser_state)
  : parser_state :=
  (before ++ map (shift_index (len before)) (fst st),
   option_map (shift_index (len before)) (snd st)).

(** An ASCII buffer written as UTF-16, each byte a 16-bit unit, in
    little-endian and in big-endian order. *)
Definition utf16le_of (raw : Codec.bytes) : Codec.bytes :=
  flat_map (fun b => [b; Byte.x00]) raw.

Definition utf16be_of (raw : Codec.bytes) : Codec.bytes :=
  flat_map (fun b => [Byte.x00; b]) raw.

(** The reference platform with the result of [acos] kept from falling
    below [+0], as the C library's is. *)
Definition nonnegative_acos (x : float) : float :=
  py_max 0 (Reference.acos x).

Definition cpython_nonnegative : Platform := {|
  sys_little_endian := true;
  float_of_str := Reference.float_of_str;
  int_of_str := Reference.int_of_str;
  math_hypot := Reference.hypot;
  math_acos := nonnegative_acos
|}.

(** A triangle with two coincident vertices and an edge of length 1. *)
Definition needle : Triangle := ((0, 0), (0, 0), (1, 0))%float.
(** ** The command line: [load_logs] and [main]

    [main] is modelled from the parsed arguments on: [args] is the
    namespace [argparse] returns, and the two buffers are what the two
    paths hold.  What is printed is kept as the list of the [print] calls,
    each with its stream and its text without the final newline; it is
    threaded through the program, so that what was printed before an
    exception is still there. *)

Inductive stream : Type := stdout | stderr.

Definition printed : Type := stream * str.

Definition io (A : Type) : Type := list printed -> list printed * result A.

Definition io_ret {A : Type} (a : A) : io A := fun out => (out, Ok a).

Definition io_bind {A B : Type} (m : io A) (k : A -> io B) : io B :=
  fun out =>
    match m out with
    | (out', Ok a) => k a out'
    | (out', Raise e) => (out', Raise e)
    end.

Notation "x <~ m ;; k" := (io_bind m (fun x => k))
  (at level 61, m at next level, right associativity).

Notation "' pat <~ m ;; k" :=
  (io_bind m (fun x => match x with pat => k end))
  (at level 61, pat pattern, m at next level, right associativity).

(** [print(text, file=s)]. *)
Definition print (s : stream) (text : str) : io unit :=
  fun out => (out ++ [(s, text)], Ok tt).

(** A computation that prints nothing. *)
Definition lift {A : Type} (r : result A) : io A := fun out => (out, r).

Fixpoint io_for_each {S A : Type} (body : S -> A -> io S) (items : list A)
         (s : S) : io S :=
  match items with
  | [] => io_ret s
  | item :: rest => s' <~ body s item ;; io_for_each body rest s'
  end.

(** What [main] takes from the interpreter to print numbers: [str(n)] for
    an int, [str(x)] for a float, [format(x, ".Nf")] and [round(x, n)]. *)
Class Formatting : Type := {
  str_of_int : Z -> str;
  str_of_float : float -> str;
  format_fixed : nat -> float -> str;
  round_ndigits : float -> Z -> float
}.

(** The namespace of the parsed arguments. *)
Module Args.

Record Namespace : Type := {
  reference : str;
  candidate : str;
  tolerance : float;
  max_triangles : option Z;
  sharp_angle : option float;
  limit : option Z;
  reference_offset : Z;
  candidate_offset : Z
}.

End Args.

(** [l[start:]] and [l[:stop]], negative bounds counted from the end. *)
Definition slice_bound {A : Type} (l : list A) (bound : Z) : nat :=
  Z.to_nat (if (bound <? 0)%Z then Z.max (bound + len l) 0
            else Z.min bound (len l)).

Definition slice_from {A : Type} (l : list A) (start : Z) : list A :=
  skipn (slice_bound l start) l.

Definition slice_to {A : Type} (l : list A) (stop : Z) : list A :=
  firstn (slice_bound l stop) l.

(** [", ".join(items)]. *)
Fixpoint join (sep : str) (items : list str) : str :=
  match items with
  | [] => []
  | [item] => item
  | item :: rest => item ++ sep ++ join sep rest
  end.

Section CommandLine.

Context {P : Platform} {F : Formatting}.

Definition load_logs (reference_path candidate_path : str)
           (reference_raw candidate_raw : Codec.bytes)
  : result (list PolylineDump * list PolylineDump) :=
  reference <- parse_log reference_path reference_raw ;;
  candidate <- parse_log candidate_path candidate_raw ;;
  Ok (reference, candidate).

Definition newline : str := [10%N].
Definition degree : str := [176%N].

(** The texts of the [print] calls. *)
Definition warning_line (reference_polys candidate_polys : list PolylineDump)
  : str :=
  lit "Warning: polyline counts differ (reference="
  ++ str_of_int (len reference_polys) ++ lit ", candidate="
  ++ str_of_int (len candidate_polys) ++ lit ").".

Definition polyline_heading (idx : Z) (ref_poly : PolylineDump) : str :=
  newline ++ lit "Polyline #" ++ str_of_int idx
  ++ lit " (ref points=" ++ str_of_int (point_count ref_poly)
  ++ lit ", width=" ++ format_fixed 3 (width ref_poly)
  ++ lit ", layer=" ++ layer ref_poly ++ lit ")".

Definition diff_line (diff : TriangleDiff) : str :=
  lit "  Triangle " ++ str_of_int (triangle_index diff)
  ++ lit ": max_vertex_delta=" ++ format_fixed 6 (max_vertex_delta diff)
  ++ lit " (max_coord_delta=" ++ format_fixed 6 (max_coord_delta diff)
  ++ lit "), area_ref=" ++ format_fixed 6 (area_a diff)
  ++ lit ", area_cand=" ++ format_fixed 6 (area_b diff)
  ++ lit ", min_angle_ref=" ++ format_fixed 3 (min_angle_a diff) ++ degree
  ++ lit ", min_angle_cand=" ++ format_fixed 3 (min_angle_b diff) ++ degree.

Definition vertices_line (label : str) (tri : Triangle) : str :=
  let '(v0, v1, v2) := tri in
  lit "    " ++ label ++ lit ": ("
  ++ format_fixed 6 (fst v0) ++ lit ", " ++ format_fixed 6 (snd v0)
  ++ lit ") | ("
  ++ format_fixed 6 (fst v1) ++ lit ", " ++ format_fixed 6 (snd v1)
  ++ lit ") | ("
  ++ format_fixed 6 (fst v2) ++ lit ", " ++ format_fixed 6 (snd v2)
  ++ lit ")".

Definition total_line (total_mismatched : Z) : str :=
  newline ++ lit "Total mismatched triangles: "
  ++ str_of_int total_mismatched.

Definition sharp_heading (side : str) (sharp_angle : float) (count : Z)
  : str :=
  newline ++ lit "Triangles with min angle <= " ++ str_of_float sharp_angle
  ++ degree ++ lit " (" ++ side ++ lit "): " ++ str_of_int count.

Definition sharp_line (entry : Z * Z * TriangleMetrics) : str :=
  let '(poly_idx, tri_idx, metrics) := entry in
  let '(ab, bc, ca) := edge_lengths metrics in
  lit "  Polyline #" ++ str_of_int poly_idx
  ++ lit " triangle " ++ str_of_int tri_idx
  ++ lit ": min_angle=" ++ format_fixed 3 (min_angle_deg metrics) ++ degree
  ++ lit ", area=" ++ format_fixed 6 (area metrics)
  ++ lit ", edges=["
  ++ join (lit ", ")
          (map (fun e => str_of_float (round_ndigits e 6)) [ab; bc; ca])
  ++ lit "]".

(** The body of [for diff in diffs]. *)
Definition report_diff (diff : TriangleDiff) : io unit :=
  _ <~ print stdout (diff_line diff) ;;
  io_for_each
    (fun (_ : unit) (item : str * Triangle) =>
       print stdout (vertices_line (fst item) (snd item)))
    [(lit "ref", vertices_a diff); (lit "cand", vertices_b diff)] tt.

(** The body of [for idx in range(shared_count)]; the state is
    [total_mismatched]. *)
Definition report_polyline (args : Args.Namespace)
           (reference_polys candidate_polys : list PolylineDump)
           (total_mismatched : Z) (idx : Z) : io Z :=
  ref_poly <~ lift (getitem reference_polys idx) ;;
  cand_poly <~ lift (getitem candidate_polys idx) ;;
  diffs <~ lift (compare_polylines ref_poly cand_poly (Args.tolerance args)
                                   (Args.max_triangles args)) ;;
  match diffs with
  | [] => io_ret total_mismatched
  | _ :: _ =>
      let total_mismatched := (total_mismatched + len diffs)%Z in
      _ <~ print stdout (polyline_heading idx ref_poly) ;;
      _ <~ io_for_each (fun (_ : unit) diff => report_diff diff) diffs tt ;;
      io_ret total_mismatched
  end.

(** One of the two listings of sharp triangles. *)
Definition report_sharp (side : str) (sharp_angle : float)
           (sharp : list (Z * Z * TriangleMetrics)) : io unit :=
  _ <~ print stdout (sharp_heading side sharp_angle (len sharp)) ;;
  io_for_each (fun (_ : unit) entry => print stdout (sharp_line entry))
              sharp tt.

(** The polylines that are left of a dump after the offset and the
    limit. *)
Definition selected (polys : list PolylineDump) (offset : Z)
           (limit : option Z) : list PolylineDump :=
  let polys := if (offset =? 0)%Z then polys else slice_from polys offset in
  match limit with
  | Some limit => slice_to polys limit
  | None => polys
  end.

Definition main (args : Args.Namespace)
           (reference_raw candidate_raw : Codec.bytes) : io Z :=
  '(reference_polys, candidate_polys) <~
     lift (load_logs (Args.reference args) (Args.candidate args)
                     reference_raw candidate_raw) ;;
  let reference_polys :=
    selected reference_polys (Args.reference_offset args) (Args.limit args) in
  let candidate_polys :=
    selected candidate_polys (Args.candidate_offset args) (Args.limit args) in
  _ <~ (if negb (len reference_polys =? len candidate_polys)%Z
        then print stderr (warning_line reference_polys candidate_polys)
        else io_ret tt) ;;
  let shared_count := Z.min (len reference_polys) (len candidate_polys) in
  total_mismatched <~
    io_for_each (report_polyline args reference_polys candidate_polys)
                (range shared_count) 0%Z ;;
  _ <~ print stdout (total_line total_mismatched) ;;
  _ <~ match Args.sharp_angle args with
       | Some sharp_angle =>
           sharp_ref <~
             lift (collect_sharp_triangles
                     (slice_to reference_polys shared_count) sharp_angle) ;;
           sharp_cand <~
             lift (collect_sharp_triangles
                     (slice_to candidate_polys shared_count) sharp_angle) ;;
           match sharp_ref, sharp_cand with
           | [], [] => io_ret tt
           | _, _ =>
               _ <~ report_sharp (lit "reference") sharp_angle sharp_ref ;;
               report_sharp (lit "candidate") sharp_angle sharp_cand
           end
       | None => io_ret tt
       end ;;
  io_ret 0%Z.

End CommandLine.

(** ** A reference formatter

    CPython's [str(int)], [format(x, ".Nf")], [round(x, n)] and the
    shortest [repr] of a float that reads back, computed on the exact
    value of the float.  It is what the closed examples of [main] run
    on. *)

Module ReferenceFormat.

Local Open Scope Z_scope.

Fixpoint uint_chars (u : Decimal.uint) : str :=
  match u with
  | Decimal.Nil => []
  | Decimal.D0 u => 48%N :: uint_chars u
  | Decimal.D1 u => 49%N :: uint_chars u
  | Decimal.D2 u => 50%N :: uint_chars u
  | Decimal.D3 u => 51%N :: uint_chars u
  | Decimal.D4 u => 52%N :: uint_chars u
  | Decimal.D5 u => 53%N :: uint_chars u
  | Decimal.D6 u => 54%N :: uint_chars u
  | Decimal.D7 u => 55%N :: uint_chars u
  | Decimal.D8 u => 56%N :: uint_chars u
  | Decimal.D9 u => 57%N :: uint_chars u
  end.

(** The decimal digits of [|n|]. *)
Definition digits_of (n : Z) : str :=
  match n with
  | Z0 => [48%N]
  | Zpos p | Zneg p => uint_chars (Pos.to_uint p)
  end.

Definition sign_of (negative : bool) : str :=
  if negative then [45%N] else [].

Definition str_of_int (n : Z) : str := sign_of (n <? 0) ++ digits_of n.

(** [num / den] with the quotient rounded to the nearest integer, ties to
    even, and rounded down; [den] is positive. *)
Definition round_half_even (num den : Z) : Z :=
  let q := num / den in
  match 2 * (num mod den) ?= den with
  | Lt => q
  | Gt => q + 1
  | Eq => if Z.even q then q else q + 1
  end.

(** [m * 2 ^ e * 10 ^ n] as a fraction. *)
Definition scaled (m : positive) (e n : Z) : Z * Z :=
  (Zpos m * (if 0 <=? e then 2 ^ e else 1) * (if 0 <=? n then 10 ^ n else 1),
   (if 0 <=? e then 1 else 2 ^ (- e)) * (if 0 <=? n then 1 else 10 ^ (- n))).

(** The digits of [k / 10 ^ places] with [places] digits after the
    point. *)
Definition fixed_digits (k : Z) (places : nat) : str :=
  let ds := digits_of k in
  let ds := repeat 48%N (places + 1 - length ds) ++ ds in
  match places with
  | O => ds
  | _ => firstn (length ds - places) ds ++ [46%N]
         ++ skipn (length ds - places) ds
  end.

Definition format_fixed (places : nat) (x : float) : str :=
  match Prim2SF x with
  | S754_nan => lit "nan"
  | S754_infinity s => sign_of s ++ lit "inf"
  | S754_zero s => sign_of s ++ fixed_digits 0 places
  | S754_finite s m e =>
      let '(num, den) := scaled m e (Z.of_nat places) in
      sign_of s ++ fixed_digits (round_half_even num den) places
  end.

Definition round_ndigits (x : float) (n : Z) : float :=
  match Prim2SF x with
  | S754_finite s m e =>
      let '(num, den) := scaled m e n in
      Reference.of_decimal s (round_half_even num den) (- n)
  | _ => x
  end.

(** The [k]-digit decimal nearest to [m * 2 ^ e] among those that read
    back as [x], if there is one: [(c, n)] stands for [c / 10 ^ n].
    [e10] is the decimal exponent of the first digit. *)
Definition reads_back (x : float) (c n : Z) : bool :=
  (Reference.of_decimal false c (- n) =? abs x)%float.

Definition candidate (x : float) (m : positive) (e e10 : Z) (k : Z)
  : option (Z * Z) :=
  let n := k - 1 - e10 in
  let '(num, den) := scaled m e n in
  let lower := num / den in
  let upper := lower + 1 in
  let nearest := round_half_even num den in
  let other := if nearest =? lower then upper else lower in
  if reads_back x nearest n then Some (nearest, n)
  else if negb (num mod den =? 0) && reads_back x other n
       then Some (other, n)
       else None.

Fixpoint shortest (x : float) (m : positive) (e e10 : Z) (k : Z)
         (fuel : nat) : Z * Z :=
  match fuel with
  | O => (0, 0)
  | S fuel =>
      match candidate x m e e10 k with
      | Some c => c
      | None => shortest x m e e10 (k + 1) fuel
      end
  end.

(** The decimal exponent of the first digit of [m * 2 ^ e]. *)
Definition exponent10 (m : positive) (e : Z) : Z :=
  let '(num, den) := scaled m e 340 in
  Z.of_nat (length (digits_of (num / den))) - 1 - 340.

Fixpoint strip_zeros (rev_digits : str) : str :=
  match rev_digits with
  | 48%N :: rest => strip_zeros rest
  | _ => rev_digits
  end.

(** The digits [ds] with the point after the first [decpt] of them, as
    [repr] lays them out. *)
Definition layout (ds : str) (decpt : Z) : str :=
  let p := Z.of_nat (length ds) in
  if (decpt <? -3) || (16 <? decpt) then
    let exponent := decpt - 1 in
    firstn 1 ds
    ++ (match skipn 1 ds with [] => [] | more => 46%N :: more end)
    ++ [101%N] ++ (if exponent <? 0 then [45%N] else [43%N])
    ++ (if Z.abs exponent <? 10 then [48%N] else [])
    ++ digits_of exponent
  else if decpt <=? 0 then
    lit "0." ++ repeat 48%N (Z.to_nat (- decpt)) ++ ds
  else if p <=? decpt then
    ds ++ repeat 48%N (Z.to_nat (decpt - p)) ++ lit ".0"
  else
    firstn (Z.to_nat decpt) ds ++ [46%N] ++ skipn (Z.to_nat decpt) ds.

Definition str_of_float (x : float) : str :=
  match Prim2SF x with
  | S754_nan => lit "nan"
  | S754_infinity s => sign_of s ++ lit "inf"
  | S754_zero s => sign_of s ++ lit "0.0"
  | S754_finite s m e =>
      let e10 := exponent10 m e in
      let '(c, n) := shortest x m e e10 1 17 in
      let all := digits_of c in
      let ds := rev (strip_zeros (rev all)) in
      sign_of s ++ layout ds (Z.of_nat (length all) - n)
  end.

End ReferenceFormat.

#[export] Instance cpython_formatting : Formatting := {|
  str_of_int := ReferenceFormat.str_of_int;
  str_of_float := ReferenceFormat.str_of_float;
  format_fixed := ReferenceFormat.format_fixed;
  round_ndigits := ReferenceFormat.round_ndigits
|}.

(** ** Notions for the statements on [main] *)

Section ReportNotions.

Context {P : Platform} {F : Formatting}.

(** The shared positions with the polylines that stand there. *)
Definition shared_pairs (reference_polys candidate_polys : list PolylineDump)
  : list (Z * (PolylineDump * PolylineDump)) :=
  enumerate (combine reference_polys candidate_polys).

(** The comparison of one shared pair. *)
Definition compare_pair (args : Args.Namespace)
           (pair : Z * (PolylineDump * PolylineDump))
  : result (Z * PolylineDump * list TriangleDiff) :=
  let '(idx, (ref_poly, cand_poly)) := pair in
  diffs <- compare_polylines ref_poly cand_poly (Args.tolerance args)
                             (Args.max_triangles args) ;;
  Ok (idx, ref_poly, diffs).

(** What is printed for one diff, for one polyline and for one listing of
    sharp triangles. *)
Definition diff_report (diff : TriangleDiff) : list printed :=
  [(stdout, diff_line diff);
   (stdout, vertices_line (lit "ref") (vertices_a diff));
   (stdout, vertices_line (lit "cand") (vertices_b diff))].

Definition polyline_report (comparison : Z * PolylineDump * list TriangleDiff)
  : list printed :=
  let '(idx, ref_poly, diffs) := comparison in
  match diffs with
  | [] => []
  | _ :: _ =>
      (stdout, polyline_heading idx ref_poly) :: flat_map diff_report diffs
  end.

Definition sharp_report (side : str) (sharp_angle : float)
           (sharp : list (Z * Z * TriangleMetrics)) : list printed :=
  (stdout, sharp_heading side sharp_angle (len sharp))
  :: map (fun entry => (stdout, sharp_line entry)) sharp.

(** The number of diffs of a list of comparisons. *)
Definition mismatched (comparisons : list (Z * PolylineDump * list TriangleDiff))
  : Z :=
  len (flat_map (fun comparison => snd comparison) comparisons).

(** The warning, when the two selections differ in length. *)
Definition warning (reference_polys candidate_polys : list PolylineDump)
  : list printed :=
  if (len reference_polys =? len candidate_polys)%Z then []
  else [(stderr, warning_line reference_polys candidate_polys)].

(** The section on sharp triangles. *)
Definition sharp_section (sharp_angle : float)
           (sharp_ref sharp_cand : list (Z * Z * TriangleMetrics))
  : list printed :=
  match sharp_ref, sharp_cand with
  | [], [] => []
  | _, _ =>
      sharp_report (lit "reference") sharp_angle sharp_ref
      ++ sharp_report (lit "candidate") sharp_angle sharp_cand
  end.

(** A comparison of a shared pair fails. *)
Definition pair_fails (args : Args.Namespace)
           (pair : PolylineDump * PolylineDump) : bool :=
  existsb (fails_at (fst pair) (snd pair) (Args.tolerance args))
          (range (comparison_range (fst pair) (snd pair)
                                   (Args.max_triangles args))).

(** Some triangle of the polylines divides by zero. *)
Definition any_vanishing (polys : list PolylineDump) : bool :=
  existsb (fun poly => existsb vanishing (triangles poly)) polys.

End ReportNotions.

(** ** Sample command lines *)

Definition bytes_of (text : string) : Codec.bytes :=
  map Ascii.byte_of_ascii (list_ascii_of_string text).

Definition lines_of (lines : list string) : Codec.bytes :=
  flat_map (fun line => bytes_of line ++ [Byte.x0a]) lines.

Definition sample_reference : Codec.bytes :=
  lines_of ["=== dump ===";
            "Polyline: 3 points, width: 0.500, layer: LAYER:Cut";
            "Triangle 0: [0.0, 0.0], [1.0, 0.0], [0.0, 1.0]";
            "Polyline: 4 points, width: 0.250, layer: B";
            "Triangle 0: [0.0, 0.0], [10.0, 0.0], [10.0, 1.0]"]%string.

Definition sample_candidate : Codec.bytes :=
  lines_of ["Polyline: 3 points, width: 0.500, layer: LAYER:Cut";
            "Triangle 0: [0.0, 0.0], [1.0, 0.0], [0.0, 1.002]"]%string.

(** A dump with the triangle [sliver], whose metrics divide by zero. *)
Definition sample_sliver : Codec.bytes :=
  lines_of ["Polyline: 3 points, width: 0.500, layer: A";
            "Triangle 0: [0, 0], [0, 0], [1e-200, 0]"]%string.

Definition sample_args (reference_offset : Z) : Args.Namespace :=
  {| Args.reference := lit "reference.txt";
     Args.candidate := lit "candidate.txt";
     Args.tolerance := 0.001;
     Args.max_triangles := None;
     Args.sharp_angle := Some 12%float;
     Args.limit := None;
     Args.reference_offset := reference_offset;
     Args.candidate_offset := 0 |}.

(** ** The angles of a triangle *)

Section AngleNotions.
Context {P : Platform}.
Local Open Scope float_scope.

(** What one turn of the loop of [_min_internal_angle] appends when it does
    not raise: 0 next to an edge of length zero, else [math.acos] of the
    law-of-cosines quotient clamped to [-1, 1]. *)
Definition law_of_cosines_angle (a b c : float) : float :=
  if (b =? 0) || (c =? 0) then 0
  else math_acos
         (py_max (-1) (py_min 1 ((b * b + c * c - a * a) / (2 * b * c)))).

(** [angle * 180.0 / math.pi], the conversion of [_min_internal_angle]. *)
Definition in_degrees (angle : float) : float := angle * 180 / math_pi.

End AngleNotions.



(** * Properties *)

Import Strings.Byte.

(** ** The reference platform runs *)

Example float_of_str_samples :
  float_of_str (lit "0.500") = Some 0.5%float
  /\ float_of_str (lit " 1e-200 ") = Some 1e-200%float
  /\ float_of_str (lit "-1.002") = Some (-1.002)%float
  /\ float_of_str (lit "1e400") = Some infinity
  /\ float_of_str (lit "4.9e-324") = Some 4.9e-324%float
  /\ float_of_str (lit "2.2250738585072011e-308")
     = Some 2.2250738585072011e-308%float
  /\ float_of_str (lit "1_0.5") = Some 10.5%float
  /\ float_of_str (lit "NaN") = Some nan
  /\ float_of_str (lit "abc") = None
  /\ float_of_str (lit "") = None.
Proof.
  repeat split; vm_compute; reflexivity.
Qed.

Example int_of_str_samples :
  int_of_str (lit " -12 ") = Some (-12)%Z
  /\ int_of_str (lit "3") = Some 3%Z
  /\ int_of_str (lit "3.0") = None
  /\ int_of_str (lit "") = None.
Proof.
  repeat split; vm_compute; reflexivity.
Qed.

(** ** The decoder *)

Section Decoder.

Context {P : Platform}.

Lemma first_decoding_nth (encs : list (Codec.bytes -> option str))
      (raw : Codec.bytes) (n : nat) (decode : Codec.bytes -> option str)
      (text : str) :
  nth_error encs n = Some decode ->
  (forall m earlier, (m < n)%nat -> nth_error encs m = Some earlier ->
                     earlier raw = None) ->
  decode raw = Some text ->
  first_decoding encs raw = Some text.
Proof.
  revert n. induction encs as [|d encs IH]; intros [|n] Hn Hbefore Hdec;
    simpl in *; try discriminate.
  - injection Hn as ->. now rewrite Hdec.
  - rewrite (Hbefore 0%nat d) by (simpl; auto; lia).
    apply (IH n); auto.
    intros m e Hm He. apply (Hbefore (S m)); simpl; auto; lia.
Qed.

(** No buffer that starts with a UTF-16 byte-order mark is UTF-8. *)
Lemma utf16_bom_not_utf8 (raw rest : Codec.bytes) :
  raw = xff :: xfe :: rest \/ raw = xfe :: xff :: rest ->
  Codec.utf8 raw = None /\ Codec.utf8_sig raw = None.
Proof.
  intros [-> | ->]; split; try reflexivity;
    unfold Codec.utf8_sig; simpl; destruct rest; reflexivity.
Qed.

(** What "utf-8-sig" accepts, "utf-8" accepts: the second codec of the
    list is never the first to succeed. *)
Lemma utf8_sig_implies_utf8 (raw : Codec.bytes) (text : str) :
  Codec.utf8_sig raw = Some text ->
  exists text', Codec.utf8 raw = Some text'.
Proof.
  unfold Codec.utf8_sig, Codec.utf8.
  destruct (map Codec.code raw) as [|b0 [|b1 [|b2 rest]]];
    try (intros H; eexists; exact H).
  destruct ((b0 =? 239) && (b1 =? 187) && (b2 =? 191))%N eqn:E;
    [|intros H; eexists; exact H].
  apply andb_prop in E as [E E2]. apply andb_prop in E as [E0 E1].
  apply N.eqb_eq in E0, E1, E2. subst.
  intros H. exists (65279%N :: text). simpl. now rewrite H.
Qed.

End Decoder.

(** C5, as amended.  The decoder returns the text of the first codec, in
    the order UTF-8, UTF-8 with signature, UTF-16 (byte-order mark or native
    order), UTF-16 little-endian, that decodes the whole buffer.  A buffer
    that starts with a UTF-16 byte-order mark is never decoded as UTF-8; a
    buffer that is well-formed UTF-8 is decoded as UTF-8 whatever else it
    could be. *)
Theorem iter_lines_first_decoding :
  forall (P : Platform) (path : str) (raw : Codec.bytes),
    encodings = [Codec.utf8; Codec.utf8_sig;
                 Codec.utf16 sys_little_endian; Codec.utf16_le]
    /\ (forall (n : nat) decode text,
           nth_error encodings n = Some decode ->
           (forall m earlier, (m < n)%nat ->
                              nth_error encodings m = Some earlier ->
                              earlier raw = None) ->
           decode raw = Some text ->
           _iter_lines path raw = Ok (Str.splitlines text))
    /\ (forall rest,
           raw = xff :: xfe :: rest \/ raw = xfe :: xff :: rest ->
           Codec.utf8 raw = None
           /\ Codec.utf8_sig raw = None
           /\ forall text, Codec.utf16 sys_little_endian raw = Some text ->
                           _iter_lines path raw = Ok (Str.splitlines text))
    /\ (forall text, Codec.utf8 raw = Some text ->
                     _iter_lines path raw = Ok (Str.splitlines text)).
Proof.
  intros P path raw. split; [reflexivity|]. split; [|split].
  - intros n decode text Hn Hbefore Hdec. unfold _iter_lines.
    now rewrite (first_decoding_nth encodings raw n decode text).
  - intros rest Hraw.
    destruct (utf16_bom_not_utf8 raw rest Hraw) as [H8 Hsig].
    repeat split; auto.
    intros text H16. unfold _iter_lines, encodings. simpl.
    now rewrite H8, Hsig, H16.
  - intros text H8. unfold _iter_lines, encodings. simpl. now rewrite H8.
Qed.

(** The theorem at a UTF-16 dump with a byte-order mark, as PowerShell
    writes them: two lines, "A" and "B". *)
Lemma iter_lines_first_decoding_witness :
  _iter_lines (lit "dump.txt")
              [xff; xfe; x41; x00; x0d; x00; x0a; x00; x42; x00]
  = Ok [lit "A"; lit "B"].
Proof.
  destruct (iter_lines_first_decoding cpython (lit "dump.txt")
              [xff; xfe; x41; x00; x0d; x00; x0a; x00; x42; x00])
    as (_ & _ & Hbom & _).
  destruct (Hbom [x41; x00; x0d; x00; x0a; x00; x42; x00]) as (_ & _ & H).
  - left; reflexivity.
  - exact (H (lit "A" ++ [13; 10]%N ++ lit "B") eq_refl).
Defined.

(** C5, as stated, fails: the two bytes 41 00 are the UTF-16 text "A"
    (little-endian, no byte-order mark) and also well-formed UTF-8, so on
    every platform the decoder answers with the UTF-8 reading, "A" followed
    by U+0000. *)
Lemma utf16_buffer_decoded_as_utf8 :
  exists (raw : Codec.bytes) (text garbled : str),
    Codec.utf16_le raw = Some text
    /\ Codec.utf16 true raw = Some text
    /\ Codec.utf8 raw = Some garbled
    /\ garbled <> text
    /\ forall (P : Platform) (path : str),
         _iter_lines path raw = Ok [garbled]
         /\ _iter_lines path raw <> Ok (Str.splitlines text).
Proof.
  exists [x41; x00], (lit "A"), (lit "A" ++ [0%N]).
  repeat split; try reflexivity; discriminate.
Qed.

(** C6, as amended.  When none of the four codecs decodes the buffer, the
    decoder raises [ParseError], the one error class of the script, with a
    message that carries the path. *)
Theorem undecodable_raises_ParseError :
  forall (P : Platform) (path : str) (raw : Codec.bytes),
    Codec.utf8 raw = None ->
    Codec.utf8_sig raw = None ->
    Codec.utf16 sys_little_endian raw = None ->
    Codec.utf16_le raw = None ->
    exists msg,
      _iter_lines path raw = Raise (ParseError msg)
      /\ msg = lit "Unable to decode " ++ path ++ lit " as UTF-8/UTF-16"
      /\ is_ParseError (ParseError msg) = true.
Proof.
  intros P path raw H8 Hsig H16 Hle. eexists. split; [|split; reflexivity].
  unfold _iter_lines, encodings. simpl. now rewrite H8, Hsig, H16, Hle.
Qed.

Lemma undecodable_raises_ParseError_witness :
  exists msg,
    _iter_lines (lit "dump.txt") [xff] = Raise (ParseError msg)
    /\ msg = lit "Unable to decode " ++ lit "dump.txt"
             ++ lit " as UTF-8/UTF-16"
    /\ is_ParseError (ParseError msg) = true.
Proof.
  apply (undecodable_raises_ParseError cpython (lit "dump.txt") [xff]);
    reflexivity.
Defined.

(** C6, as stated, fails: the single byte FF is decoded by none of the
    codecs, on either byte order, and the error raised is a [ParseError],
    not an error of a kind of its own. *)
Lemma decode_failure_is_a_ParseError :
  exists raw : Codec.bytes,
    Codec.utf8 raw = None
    /\ Codec.utf8_sig raw = None
    /\ Codec.utf16 true raw = None
    /\ Codec.utf16 false raw = None
    /\ Codec.utf16_le raw = None
    /\ forall (P : Platform) (path : str),
       exists e, _iter_lines path raw = Raise e /\ is_ParseError e = true.
Proof.
  exists [xff]. repeat split; try reflexivity.
  intros P path. unfold _iter_lines, encodings. simpl.
  destruct sys_little_endian; simpl; eexists; split; reflexivity.
Qed.

(** X6.  The "utf-8-sig" entry of the list is never the one selected: a
    buffer it decodes is decoded by "utf-8" first, and a leading EF BB BF
    then stays in the text as U+FEFF. *)
Theorem utf8_sig_is_never_selected :
  forall (P : Platform) (path : str) (raw : Codec.bytes) (text : str),
    (Codec.utf8 raw = None -> Codec.utf8_sig raw = None)
    /\ (Codec.utf8_sig raw = Some text ->
        exists kept, Codec.utf8 raw = Some kept
                     /\ _iter_lines path raw = Ok (Str.splitlines kept))
    /\ (forall rest shorter,
           raw = xef :: xbb :: xbf :: rest ->
           Codec.utf8 rest = Some shorter ->
           Codec.utf8_sig raw = Some shorter
           /\ _iter_lines path raw = Ok (Str.splitlines (65279%N :: shorter))).
Proof.
  intros P path raw text.
  assert (H2 : Codec.utf8_sig raw = Some text ->
               exists kept, Codec.utf8 raw = Some kept
                            /\ _iter_lines path raw = Ok (Str.splitlines kept)).
  { intros H. destruct (utf8_sig_implies_utf8 raw text H) as (kept & Hk).
    exists kept. split; [exact Hk|].
    unfold _iter_lines, encodings. cbn [first_decoding]. now rewrite Hk. }
  split; [|split; [exact H2|]].
  - intros H8. destruct (Codec.utf8_sig raw) as [t|] eqn:E; [|reflexivity].
    destruct (utf8_sig_implies_utf8 raw t E) as (kept & Hk). congruence.
  - intros rest shorter -> Hs. unfold Codec.utf8 in Hs.
    assert (E8 : Codec.utf8 (xef :: xbb :: xbf :: rest)
                 = Some (65279%N :: shorter)).
    { unfold Codec.utf8. cbn [map]. 
      change (Codec.code xef) with 239%N. change (Codec.code xbb) with 187%N.
      change (Codec.code xbf) with 191%N.
      cbn. rewrite Hs. reflexivity. }
    split.
    + unfold Codec.utf8_sig. cbn [map].
      change (Codec.code xef) with 239%N. change (Codec.code xbb) with 187%N.
      change (Codec.code xbf) with 191%N. cbn. exact Hs.
    + unfold _iter_lines, encodings. cbn [first_decoding]. now rewrite E8.
Qed.

(** A UTF-8 dump with a signature: the header line starts with U+FEFF, is
    not taken for a header, and the triangle entry is an orphan. *)
Example utf8_signature_hides_the_first_header :
  parse_log (lit "dump.txt")
            ([xef; xbb; xbf]
               ++ map (fun c => match Byte.of_N c with
                                | Some b => b
                                | None => x00
                                end)
                      (lit "Polyline: 3 points, width: 0.500, layer: A"
                         ++ [10%N]
                         ++ lit "Triangle 0: [0, 0], [1, 0], [0, 1]"))
  = Raise (ParseError
             (lit "Triangle line encountered before polyline header in "
                ++ lit "dump.txt")).
Proof.
  vm_compute. reflexivity.
Qed.

(** ** String facts *)

Section StrFacts.

Lemma lstrip_incl (s : str) (x : N) : In x (Str.lstrip s) -> In x s.
Proof.
  induction s as [|c s IH]; simpl; auto.
  destruct (Str.isspace c); simpl; auto.
Qed.

Lemma strip_incl (s : str) (x : N) : In x (Str.strip s) -> In x s.
Proof.
  unfold Str.strip, Str.rstrip. intros H.
  apply in_rev, lstrip_incl, in_rev, lstrip_incl in H. exact H.
Qed.

Lemma lstrip_count (s : str) (x : N) :
  Str.isspace x = false ->
  count_occ N.eq_dec (Str.lstrip s) x = count_occ N.eq_dec s x.
Proof.
  intros Hx. induction s as [|c s IH]; simpl; auto.
  destruct (Str.isspace c) eqn:E; auto.
  rewrite IH. destruct (N.eq_dec c x); congruence.
Qed.

Lemma count_occ_rev (s : str) (x : N) :
  count_occ N.eq_dec (rev s) x = count_occ N.eq_dec s x.
Proof.
  induction s as [|c s IH]; simpl; auto.
  rewrite count_occ_app, IH. simpl. destruct (N.eq_dec c x); lia.
Qed.

Lemma strip_count (s : str) (x : N) :
  Str.isspace x = false ->
  count_occ N.eq_dec (Str.strip s) x = count_occ N.eq_dec s x.
Proof.
  intros Hx. unfold Str.strip, Str.rstrip.
  now rewrite count_occ_rev, lstrip_count, count_occ_rev, lstrip_count.
Qed.

(** Pieces of a split hold characters of the input only. *)
Lemma split_go_incl (sep s : str) (skip : nat) (cur : str)
      (budget : option nat) (piece : str) (x : N) :
  In piece (Str.split_go sep s skip cur budget) -> In x piece ->
  In x s \/ In x cur.
Proof.
  revert skip cur budget.
  induction s as [|c s IH]; intros skip cur budget; simpl.
  - intros [<-|[]] Hx. right. now apply in_rev.
  - destruct skip as [|n].
    + assert (Hkeep : In piece (Str.split_go sep s 0 (c :: cur) budget) ->
                      In x piece -> (c = x \/ In x s) \/ In x cur).
      { intros H Hx. destruct (IH _ _ _ H Hx) as [?|[?|?]]; auto. }
      assert (Hcut : In piece (rev cur :: Str.split_go sep s (length sep - 1) []
                                   (option_map pred budget)) ->
                     In x piece -> (c = x \/ In x s) \/ In x cur).
      { intros [<-|H] Hx; [right; now apply in_rev|].
        destruct (IH _ _ _ H Hx) as [?|[]]; auto. }
      destruct budget as [[|k]|]; [exact Hkeep| |];
        match goal with
        | |- context [if ?b then _ else _] =>
            destruct b; [exact Hcut|exact Hkeep]
        end.
    + intros H Hx. destruct (IH _ _ _ H Hx); auto.
Qed.

(** Splitting on one character: as many pieces as occurrences plus one,
    and none of them holds the character. *)
Lemma split_go_char_length (c : N) (s cur : str) :
  length (Str.split_go [c] s 0 cur None) = S (count_occ N.eq_dec s c).
Proof.
  revert cur. induction s as [|d s IH]; intros cur; simpl; auto.
  destruct (N.eqb_spec d c) as [->|Hne]; simpl.
  - rewrite IH. destruct (N.eq_dec c c); congruence.
  - rewrite IH. destruct (N.eq_dec d c); congruence.
Qed.

Lemma split_go_char_free (c : N) (s cur : str) (piece : str) :
  ~ In c cur ->
  In piece (Str.split_go [c] s 0 cur None) -> ~ In c piece.
Proof.
  revert cur. induction s as [|d s IH]; intros cur Hcur; simpl.
  - intros [<-|[]] H. now apply in_rev in H.
  - destruct (N.eqb_spec d c) as [->|Hne]; simpl.
    + intros [<-|H]; [intros H; now apply in_rev in H|].
      apply (IH []); auto.
    + apply IH. intros [?|?]; auto.
Qed.

Lemma getitem_In {A : Type} (l : list A) (i : Z) (x : A) :
  getitem l i = Ok x -> In x l.
Proof.
  unfold getitem.
  destruct (_ && _)%bool; [|discriminate].
  destruct (nth_error l _) eqn:E; simpl; [|discriminate].
  intros [= <-]. eapply nth_error_In; eauto.
Qed.

End StrFacts.

(** ** The parser *)

(** Inversion of a successful [bind]. *)
Lemma bind_Ok {A B : Type} (m : result A) (k : A -> result B) (b : B) :
  bind m k = Ok b -> exists a, m = Ok a /\ k a = Ok b.
Proof.
  destruct m; simpl; [eauto|discriminate].
Qed.

Ltac inv_bind H :=
  let a := fresh "a" in
  let E := fresh "E" in
  apply bind_Ok in H; destruct H as (a & E & H).

Lemma unpack3_length {A : Type} (l : list A) :
  length l <> 3%nat -> unpack3 l = Raise ValueError.
Proof.
  destruct l as [|a [|b [|c [|d l]]]]; simpl; congruence.
Qed.

Lemma unpack3_Ok {A : Type} (l : list A) (a b c : A) :
  unpack3 l = Ok (a, b, c) -> l = [a; b; c].
Proof.
  destruct l as [|a' [|b' [|c' [|d l]]]]; simpl; congruence.
Qed.

Lemma unpack2_Ok {A : Type} (l : list A) (a b : A) :
  unpack2 l = Ok (a, b) -> l = [a; b].
Proof.
  destruct l as [|a' [|b' [|d l]]]; simpl; congruence.
Qed.

Lemma try_except_Ok {A : Type} (body : result A)
      (caught : exn -> bool) (e : exn) (a : A) :
  try_except body caught (Raise e) = Ok a -> body = Ok a.
Proof.
  destruct body; simpl; auto. destruct (caught e0); discriminate.
Qed.

Section Header.

Context {P : Platform}.

Lemma header_fields_comma_count (line : str) :
  commas (Str.strip (Str.drop (length POLYLINE_PREFIX) line)) <> 2%nat ->
  header_fields line = Raise ValueError.
Proof.
  intros H. unfold header_fields.
  rewrite unpack3_length; [reflexivity|].
  rewrite length_map. unfold Str.split.
  change (lit ",") with [44%N]. rewrite split_go_char_length.
  unfold commas in H. lia.
Qed.

Lemma header_fields_layer (line : str) (pc : Z) (w : float) (l : str) :
  header_fields line = Ok (pc, w, l) -> ~ In 44%N l.
Proof.
  unfold header_fields. intros H.
  inv_bind H. destruct a as [[point_part width_part] layer_part].
  apply unpack3_Ok in E.
  do 5 (let x := fresh "v" in let E' := fresh "E" in
        apply bind_Ok in H; destruct H as (x & E' & H)).
  injection H as _ _ <-.
  intros Hin. apply strip_incl in Hin.
  apply getitem_In in E4.
  destruct (split_go_incl _ _ _ _ _ _ _ E4 Hin) as [Hin'|[]].
  assert (Hpart : In layer_part
                     (map Str.strip
                        (Str.split
                           (Str.strip (Str.drop (length POLYLINE_PREFIX) line))
                           (lit ",")))).
  { rewrite E. simpl; auto. }
  apply in_map_iff in Hpart as (piece & <- & Hpiece).
  apply strip_incl in Hin'.
  revert Hin'. eapply split_go_char_free; [|exact Hpiece]. auto.
Qed.

End Header.

(** C10.  A header whose payload does not hold exactly two commas is
    rejected with the [ParseError] that quotes the line; so is, in
    particular, a header [Polyline:<count>,<width>,<layer>] whose layer text
    holds a comma.  Hence the layer of a parsed record never holds one. *)
Theorem header_with_extra_comma_is_rejected :
  forall (P : Platform) (line : str) (index : Z),
    (commas (Str.strip (Str.drop (length POLYLINE_PREFIX) line)) <> 2%nat ->
     _parse_polyline_header line index = Raise (header_error line))
    /\ (forall count_text width_text layer_text : str,
           line = POLYLINE_PREFIX ++ count_text ++ lit "," ++ width_text
                  ++ lit "," ++ layer_text ->
           In 44%N layer_text ->
           _parse_polyline_header line index = Raise (header_error line))
    /\ (forall d : PolylineDump,
           _parse_polyline_header line index = Ok d -> ~ In 44%N (layer d)).
Proof.
  intros P line index.
  assert (H1 : commas (Str.strip (Str.drop (length POLYLINE_PREFIX) line))
               <> 2%nat ->
               _parse_polyline_header line index = Raise (header_error line)).
  { intros H. unfold _parse_polyline_header.
    now rewrite header_fields_comma_count. }
  split; [exact H1|split].
  - intros ct wt lt -> Hin. apply H1.
    unfold Str.drop. rewrite skipn_app, skipn_all, Nat.sub_diag. simpl skipn.
    unfold commas. rewrite strip_count by reflexivity.
    apply (count_occ_In N.eq_dec) in Hin.
    change (lit ",") with [44%N]. simpl app.
    repeat (rewrite count_occ_app || rewrite count_occ_cons_eq by reflexivity).
    lia.
  - intros d H. unfold _parse_polyline_header in H.
    inv_bind H. destruct a as [[pc w] l]. injection H as <-. simpl.
    apply try_except_Ok in E.
    eapply header_fields_layer; eauto.
Qed.

Lemma header_with_extra_comma_is_rejected_witness :
  _parse_polyline_header
    (lit "Polyline: 3 points, width: 0.500, layer: A,B") 0
  = Raise (header_error (lit "Polyline: 3 points, width: 0.500, layer: A,B"))
  /\ ~ In 44%N (lit "LAYER:Cut").
Proof.
  split.
  - apply (proj1 (proj2 (header_with_extra_comma_is_rejected cpython
             (lit "Polyline: 3 points, width: 0.500, layer: A,B") 0))
             (lit " 3 points") (lit " width: 0.500") (lit " layer: A,B")).
    + reflexivity.
    + simpl. tauto.
  - apply (proj2 (proj2 (header_with_extra_comma_is_rejected cpython
             (lit "Polyline: 3 points, width: 0.500, layer: LAYER:Cut") 0))
             {| index := 0; point_count := 3; width := 0.5;
                layer := lit "LAYER:Cut"; triangles := [] |}).
    vm_compute. reflexivity.
Defined.

Section Tri.
Context {P : Platform}.

Lemma of_option_Ok {A : Type} (e : exn) (o : option A) (a : A) :
  of_option e o = Ok a -> o = Some a.
Proof.
  destruct o; simpl; congruence.
Qed.

Lemma parse_chunk_Ok (acc : list Point) (chunk : str) (vs : list Point) :
  parse_chunk acc chunk = Ok vs <->
  exists v, vs = acc ++ [v] /\ numeric_chunk chunk v.
Proof.
  unfold parse_chunk, numeric_chunk. split.
  - intros H. inv_bind H. destruct a as [x_str y_str].
    inv_bind H. inv_bind H. injection H as <-.
    apply of_option_Ok in E0, E1.
    exists (a, a0). split; [reflexivity|]. exists x_str, y_str. auto.
  - intros ([x y] & -> & xs & ys & E & Ex & Ey). simpl in Ex, Ey.
    rewrite E. simpl. rewrite Ex. simpl. rewrite Ey. reflexivity.
Qed.

Lemma for_each_parse_chunk (triples : list str) (acc vs : list Point) :
  for_each parse_chunk triples acc = Ok vs <->
  exists vs', vs = acc ++ vs' /\ Forall2 numeric_chunk triples vs'.
Proof.
  revert acc. induction triples as [|chunk triples IH]; intros acc; simpl.
  - split.
    + intros [= <-]. exists []. rewrite app_nil_r. auto.
    + intros (vs' & -> & H). inversion H. now rewrite app_nil_r.
  - split.
    + intros H. inv_bind H. apply parse_chunk_Ok in E as (v & -> & Hv).
      apply IH in H as (vs' & -> & Hvs).
      exists (v :: vs'). rewrite <- app_assoc. auto.
    + intros (vs' & -> & H). inversion H as [|c v cs vs'' Hv Hvs]; subst.
      assert (E : parse_chunk acc chunk = Ok (acc ++ [v]))
        by (apply parse_chunk_Ok; eauto).
      rewrite E. simpl. apply IH. exists vs''.
      rewrite <- app_assoc. auto.
Qed.

Lemma triangle_body_Ok (line : str) (v0 v1 v2 : Point) :
  triangle_body line = Ok (v0, v1, v2) <->
  exists label payload c0 c1 c2,
    Str.split_max line (lit ":") 1 = [label; payload]
    /\ Str.split (Str.strip payload) (lit "],") = [c0; c1; c2]
    /\ numeric_chunk c0 v0 /\ numeric_chunk c1 v1 /\ numeric_chunk c2 v2.
Proof.
  unfold triangle_body. split.
  - intros H. inv_bind H. destruct a as [label payload].
    apply unpack2_Ok in E. inv_bind H.
    apply for_each_parse_chunk in E0 as (vs & -> & Hvs). simpl in H.
    destruct vs as [|w0 [|w1 [|w2 [|w3 vs]]]]; try discriminate.
    simpl in H. injection H as <- <- <-.
    inversion Hvs as [|c0 ? cs0 ? H0 Hvs0 Ec]; subst.
    inversion Hvs0 as [|c1 ? cs1 ? H1 Hvs1]; subst.
    inversion Hvs1 as [|c2 ? cs2 ? H2 Hvs2]; subst.
    inversion Hvs2; subst.
    exists label, payload, c0, c1, c2. auto.
  - intros (label & payload & c0 & c1 & c2 & E1 & E2 & H0 & H1 & H2).
    rewrite E1. simpl. rewrite E2.
    assert (E : for_each parse_chunk [c0; c1; c2] [] = Ok [v0; v1; v2]).
    { apply for_each_parse_chunk. exists [v0; v1; v2]. split; auto. }
    rewrite E. reflexivity.
Qed.

End Tri.

(** C7.  A triangle line parses exactly when the text after its first
    colon splits at "]," into three chunks, each of them numeric; every
    other line (another number of chunks, a chunk without a comma, a
    component [float()] rejects, no colon at all) raises the [ParseError]
    whose message quotes the line. *)
Theorem triangle_line_needs_three_numeric_chunks :
  forall (P : Platform) (line : str),
    (forall v0 v1 v2 : Point,
        _parse_triangle_line line = Ok (v0, v1, v2) <->
        exists label payload c0 c1 c2,
          Str.split_max line (lit ":") 1 = [label; payload]
          /\ Str.split (Str.strip payload) (lit "],") = [c0; c1; c2]
          /\ numeric_chunk c0 v0 /\ numeric_chunk c1 v1
          /\ numeric_chunk c2 v2)
    /\ ((exists t, _parse_triangle_line line = Ok t)
        \/ _parse_triangle_line line = Raise (triangle_error line))
    /\ (exists pre post, triangle_error line = ParseError (pre ++ line ++ post)).
Proof.
  intros P line. split; [|split].
  - intros v0 v1 v2. rewrite <- triangle_body_Ok.
    unfold _parse_triangle_line. destruct (triangle_body line); simpl.
    + reflexivity.
    + split; discriminate.
  - unfold _parse_triangle_line. destruct (triangle_body line); simpl; eauto.
  - unfold triangle_error. eauto.
Qed.


Lemma triangle_line_needs_three_numeric_chunks_witness :
  _parse_triangle_line (lit "Triangle 0: [0.0, 0.0], [1.0, 0.0], [0.0, 1.0]")
  = Ok ((0, 0), (1, 0), (0, 1))%float.
Proof.
  apply (proj1 (triangle_line_needs_three_numeric_chunks cpython
           (lit "Triangle 0: [0.0, 0.0], [1.0, 0.0], [0.0, 1.0]"))).
  exists (lit "Triangle 0"), (lit " [0.0, 0.0], [1.0, 0.0], [0.0, 1.0]"),
    (lit "[0.0, 0.0"), (lit " [1.0, 0.0"), (lit " [0.0, 1.0]").
  split; [reflexivity|]. split; [reflexivity|].
  repeat split.
  - exists (lit "0.0"), (lit "0.0"). repeat split; vm_compute; reflexivity.
  - exists (lit "1.0"), (lit "0.0"). repeat split; vm_compute; reflexivity.
  - exists (lit "0.0"), (lit "1.0"). repeat split; vm_compute; reflexivity.
Defined.

(** The example of the specification: two vertex groups only. *)
Example triangle_line_with_two_groups :
  _parse_triangle_line (lit "Triangle 0: [0.0, 0.0], [1.0, 0.0]")
  = Raise (triangle_error (lit "Triangle 0: [0.0, 0.0], [1.0, 0.0]")).
Proof.
  vm_compute. reflexivity.
Qed.

Section Parser.
Context {P : Platform}.

Lemma for_each_app {S A : Type} (body : S -> A -> result S)
      (l1 l2 : list A) (s : S) :
  for_each body (l1 ++ l2) s =
  bind (for_each body l1 s) (for_each body l2).
Proof.
  revert s. induction l1 as [|a l1 IH]; intros s; simpl; auto.
  destruct (body s a); simpl; auto.
Qed.

Lemma prefixes_disjoint (line : str) :
  Str.startswith line POLYLINE_PREFIX = true ->
  Str.startswith line TRIANGLE_PREFIX = false.
Proof.
  destruct line as [|c line]; [discriminate|]. simpl.
  destruct (N.eqb_spec c 80); [subst; reflexivity|discriminate].
Qed.

(** Lines after the last header only add triangles to the open record. *)
Lemma parse_tail (path : str) (rest : list str) (done : list PolylineDump)
      (current : PolylineDump) (st : parser_state) :
  Forall (fun l => is_header l = false) rest ->
  for_each (parse_line path) rest (done, Some current) = Ok st ->
  exists tris,
    map_result _parse_triangle_line (triangle_entries rest) = Ok tris
    /\ st = (done, Some (with_triangles current tris)).
Proof.
  revert current. induction rest as [|l rest IH]; intros current Hnh H.
  - injection H as <-. exists []. auto.
  - inversion Hnh as [|? ? Hl Hrest]; subst. simpl in H.
    inv_bind H. unfold parse_line in E. unfold is_header in Hl.
    unfold triangle_entries. cbn [map filter].
    destruct (Str.strip l) as [|c line] eqn:El.
    + injection E as <-. apply IH; auto.
    + rewrite Hl in E.
      destruct (Str.startswith (c :: line) TRIANGLE_PREFIX) eqn:Et.
      * cbn [snd fst] in E. inv_bind E. injection E as <-.
        destruct (IH _ Hrest H) as (tris & Htris & ->).
        exists (a0 :: tris). cbn [map_result]. rewrite E0.
        unfold triangle_entries in Htris. rewrite Htris. auto.
      * injection E as <-. apply IH; auto.
Qed.

End Parser.

(** C8.  Whenever the parse of a dump succeeds, the record opened by the
    last header line is the last element of the result, and its triangles
    are exactly the triangle entries that follow that header, in order:
    the end of the input closes it as a further header would. *)
Theorem final_polyline_is_kept :
  forall (P : Platform) (path : str) (before : list str) (header : str)
         (rest : list str) (result : list PolylineDump),
    is_header header = true ->
    Forall (fun l => is_header l = false) rest ->
    parse_lines path (before ++ header :: rest) = Ok result ->
    exists (done : list PolylineDump) (opened : PolylineDump)
           (tris : list Triangle),
      parse_lines path before = Ok done
      /\ _parse_polyline_header (Str.strip header) (len done) = Ok opened
      /\ map_result _parse_triangle_line (triangle_entries rest) = Ok tris
      /\ result = done ++ [with_triangles opened tris]
      /\ triangles (with_triangles opened tris) = tris.
Proof.
  intros P path before header rest result Hh Hrest H.
  unfold parse_lines in H.
  apply bind_Ok in H as (st & Hloop & H). injection H as <-.
  rewrite for_each_app in Hloop.
  apply bind_Ok in Hloop as (st0 & Hbefore & Hloop).
  cbn [for_each] in Hloop.
  apply bind_Ok in Hloop as (st1 & Hline & Hloop).
  unfold parse_line in Hline. unfold is_header in Hh.
  destruct (Str.strip header) as [|c line] eqn:El; [discriminate|].
  rewrite Hh in Hline.
  apply bind_Ok in Hline as (opened & Hopened & Hline).
  injection Hline as <-.
  destruct (parse_tail _ _ _ _ _ Hrest Hloop) as (tris & Htris & ->).
  exists (fst (finish_current st0)), opened, tris.
  unfold parse_lines. rewrite Hbefore.
  repeat split; auto.
  assert (Hnil : triangles opened = []).
  { unfold _parse_polyline_header in Hopened.
    apply bind_Ok in Hopened as ([[pc w] l] & _ & Hopened).
    now injection Hopened as <-. }
  clear - Hnil. unfold with_triangles.
  rewrite <- (app_nil_l tris) at 2. rewrite <- Hnil. clear Hnil.
  revert opened. induction tris as [|t tris IH]; intros opened; simpl.
  - now rewrite app_nil_r.
  - rewrite IH. simpl. now rewrite <- app_assoc.
Qed.

Lemma final_polyline_is_kept_witness :
  exists (done : list PolylineDump) (opened : PolylineDump)
         (tris : list Triangle),
    parse_lines (lit "dump.txt") [] = Ok done
    /\ _parse_polyline_header
         (Str.strip (lit "Polyline: 3 points, width: 0.500, layer: LAYER:Cut"))
         (len done) = Ok opened
    /\ map_result _parse_triangle_line
         (triangle_entries
            [lit "Triangle 0: [0.0, 0.0], [1.0, 0.0], [0.0, 1.0]";
             lit ""; lit "Total: 1"]) = Ok tris
    /\ [{| index := 0; point_count := 3; width := 0.5;
           layer := lit "LAYER:Cut";
           triangles := [((0, 0), (1, 0), (0, 1))%float] |}]
       = done ++ [with_triangles opened tris]
    /\ triangles (with_triangles opened tris) = tris.
Proof.
  apply (final_polyline_is_kept cpython (lit "dump.txt") []
           (lit "Polyline: 3 points, width: 0.500, layer: LAYER:Cut")
           [lit "Triangle 0: [0.0, 0.0], [1.0, 0.0], [0.0, 1.0]";
            lit ""; lit "Total: 1"]).
  - reflexivity.
  - repeat constructor.
  - vm_compute. reflexivity.
Defined.

Section ParserInvariant.
Context {P : Platform}.

Lemma numbered_finish (st : parser_state) :
  numbered st -> numbered (finish_current st).
Proof.
  destruct st as [polys [c|]]; unfold finish_current, numbered;
    cbn [fst snd]; auto.
  intros [Hp Hc]. split; [|discriminate].
  intros i d H.
  destruct (Nat.lt_ge_cases i (length polys)) as [Hi|Hi].
  - rewrite nth_error_app1 in H by assumption. auto.
  - rewrite nth_error_app2 in H by assumption.
    destruct (i - length polys)%nat as [|k] eqn:E; cbn in H.
    + injection H as <-. rewrite (Hc c eq_refl). f_equal. lia.
    + destruct k; discriminate.
Qed.

Lemma header_index (line : str) (i : Z) (d : PolylineDump) :
  _parse_polyline_header line i = Ok d -> index d = i.
Proof.
  unfold _parse_polyline_header. intros H.
  apply bind_Ok in H as ([[pc w] l] & _ & H). now injection H as <-.
Qed.

Lemma numbered_parse_line (path : str) (st st' : parser_state)
      (raw_line : str) :
  numbered st -> parse_line path st raw_line = Ok st' -> numbered st'.
Proof.
  intros Hst. unfold parse_line.
  destruct (Str.strip raw_line) as [|c line]; [now intros [= <-]|].
  destruct (Str.startswith (c :: line) POLYLINE_PREFIX).
  - intros H. apply bind_Ok in H as (d & Hd & H). injection H as <-.
    apply numbered_finish in Hst. destruct Hst as [Hp _].
    split; cbn [fst snd]; auto.
    intros c' [= <-]. now apply header_index in Hd.
  - destruct (Str.startswith (c :: line) TRIANGLE_PREFIX);
      [|now intros [= <-]].
    destruct st as [polys [cur|]]; cbn [fst snd]; [|discriminate].
    intros H. apply bind_Ok in H as (t & _ & H). injection H as <-.
    destruct Hst as [Hp Hc]. split; cbn [fst snd] in *; auto.
    intros c' [= <-]. cbn. auto.
Qed.

Lemma numbered_for_each (path : str) (lines : list str)
      (st st' : parser_state) :
  numbered st -> for_each (parse_line path) lines st = Ok st' -> numbered st'.
Proof.
  revert st. induction lines as [|l lines IH]; intros st Hst; cbn [for_each].
  - now intros [= <-].
  - intros H. apply bind_Ok in H as (st1 & H1 & H).
    eapply IH; [|exact H]. eapply numbered_parse_line; eauto.
Qed.

(** Before any header, a line is ignored or is an orphan triangle. *)
Lemma headless_lines (path : str) (lines : list str) :
  Forall (fun l => is_header l = false) lines ->
  for_each (parse_line path) lines ([], None) = Ok ([], None)
  \/ for_each (parse_line path) lines ([], None)
     = Raise (orphan_triangle_error path).
Proof.
  induction lines as [|l lines IH]; intros H; cbn [for_each]; auto.
  inversion H as [|? ? Hl Hrest]; subst. unfold is_header in Hl.
  unfold parse_line at 1 3.
  destruct (Str.strip l) as [|c line]; cbn [bind]; auto.
  rewrite Hl.
  destruct (Str.startswith (c :: line) TRIANGLE_PREFIX); cbn [snd bind]; auto.
Qed.

End ParserInvariant.

(** X7.  The [index] of a parsed record is its position in the result: the
    indices are 0, 1, 2, ... whatever numbers the dump prints. *)
Theorem parsed_indices_are_positions :
  forall (P : Platform) (path : str) (lines : list str)
         (result : list PolylineDump),
    parse_lines path lines = Ok result ->
    map index result = range (len result).
Proof.
  intros P path lines result H. unfold parse_lines in H.
  apply bind_Ok in H as (st & Hloop & H). injection H as <-.
  assert (Hn : numbered (finish_current st)).
  { apply numbered_finish. eapply numbered_for_each; [|exact Hloop].
    split; cbn [fst snd]; [|discriminate].
    intros [|i] d; discriminate. }
  destruct Hn as [Hp _]. revert Hp. generalize (fst (finish_current st)).
  intros l Hp. unfold range, len. rewrite Nat2Z.id.
  apply nth_error_ext. intros i.
  rewrite !nth_error_map.
  destruct (nth_error l i) as [d|] eqn:E; cbn.
  - rewrite (Hp i d E).
    assert (Hi : (i < length l)%nat) by (apply nth_error_Some; congruence).
    rewrite nth_error_seq. destruct (Nat.ltb_spec i (length l)); [|lia].
    reflexivity.
  - apply nth_error_None in E.
    rewrite nth_error_seq. destruct (Nat.ltb_spec i (length l)); [lia|].
    reflexivity.
Qed.

Lemma parsed_indices_are_positions_witness :
  map index
      [{| index := 0; point_count := 3; width := 0.5;
          layer := lit "LAYER:Cut";
          triangles := [((0, 0), (1, 0), (0, 1))%float] |};
       {| index := 1; point_count := 7; width := 0.25;
          layer := lit "B"; triangles := [] |}]
  = range 2.
Proof.
  apply (parsed_indices_are_positions cpython (lit "dump.txt")
           [lit "=== dump ===";
            lit "Polyline: 3 points, width: 0.500, layer: LAYER:Cut";
            lit "Triangle 0: [0.0, 0.0], [1.0, 0.0], [0.0, 1.0]";
            lit "Polyline: 7 points, width: 0.25, layer: B"]).
  vm_compute. reflexivity.
Defined.

(** X8.  A triangle entry that no header precedes ends the parse with the
    [ParseError] that names the path. *)
Theorem triangle_before_header_is_rejected :
  forall (P : Platform) (path : str) (before : list str) (line : str)
         (rest : list str),
    Forall (fun l => is_header l = false) before ->
    Str.startswith (Str.strip line) TRIANGLE_PREFIX = true ->
    parse_lines path (before ++ line :: rest)
    = Raise (orphan_triangle_error path).
Proof.
  intros P path before line rest Hb Ht. unfold parse_lines.
  rewrite for_each_app.
  destruct (headless_lines path before Hb) as [-> | ->]; [|reflexivity].
  cbn [bind for_each]. unfold parse_line at 1.
  destruct (Str.strip line) as [|c l] eqn:E; [discriminate|].
  destruct (Str.startswith (c :: l) POLYLINE_PREFIX) eqn:Eh.
  - apply prefixes_disjoint in Eh. congruence.
  - rewrite Ht. reflexivity.
Qed.


Lemma triangle_before_header_is_rejected_witness :
  parse_lines (lit "dump.txt")
              ([lit "=== dump ==="; lit ""]
                 ++ lit "Triangle 0: [0.0, 0.0], [1.0, 0.0], [0.0, 1.0]"
                 :: [lit "Polyline: 3 points, width: 0.500, layer: A"])
  = Raise (orphan_triangle_error (lit "dump.txt")).
Proof.
  apply (triangle_before_header_is_rejected cpython (lit "dump.txt")).
  - repeat constructor.
  - reflexivity.
Defined.

(** ** Binary64 comparisons *)

Section FloatFacts.

Local Open Scope float_scope.

Lemma SFcompare_antisym (x y : spec_float) :
  SFcompare y x = option_map CompOpp (SFcompare x y).
Proof.
  destruct x as [sx|sx| |sx mx ex], y as [sy|sy| |sy my ey]; simpl;
    try reflexivity;
    try (destruct sx; reflexivity);
    try (destruct sy; reflexivity);
    try (destruct sx, sy; reflexivity).
  destruct sx, sy; simpl; try reflexivity.
  - rewrite (Z.compare_antisym ex ey).
    destruct (ex ?= ey)%Z; simpl; try reflexivity.
    change (PosDef.Pos.compare_cont Eq mx my) with (Pos.compare mx my).
    change (PosDef.Pos.compare_cont Eq my mx) with (Pos.compare my mx).
    now rewrite (Pos.compare_antisym mx my).
  - rewrite (Z.compare_antisym ex ey).
    destruct (ex ?= ey)%Z; simpl; try reflexivity.
    change (PosDef.Pos.compare_cont Eq mx my) with (Pos.compare mx my).
    change (PosDef.Pos.compare_cont Eq my mx) with (Pos.compare my mx).
    now rewrite (Pos.compare_antisym mx my).
Qed.

Lemma is_number_spec (x : float) :
  is_number x = true <-> Prim2SF x <> S754_nan.
Proof.
  unfold is_number. rewrite eqb_spec. unfold SFeqb.
  destruct (Prim2SF x) as [s|s| |s m e]; simpl.
  - split; [discriminate|reflexivity].
  - destruct s; split; (discriminate || reflexivity).
  - split; [discriminate|congruence].
  - destruct s; rewrite Z.compare_refl;
      change (PosDef.Pos.compare_cont Eq m m) with (Pos.compare m m);
      rewrite Pos.compare_refl; split; (discriminate || reflexivity).
Qed.

Lemma SFcompare_None (x y : spec_float) :
  SFcompare x y = None <-> x = S754_nan \/ y = S754_nan.
Proof.
  destruct x, y; simpl; split; intros H; try discriminate; auto;
    destruct H; discriminate.
Qed.

Lemma ltb_asym (a b : float) : (a <? b) = true -> (b <? a) = false.
Proof.
  rewrite !ltb_spec. unfold SFltb.
  rewrite (SFcompare_antisym (Prim2SF a) (Prim2SF b)).
  destruct (SFcompare (Prim2SF a) (Prim2SF b)) as [[]|]; simpl; congruence.
Qed.

Lemma ltb_is_number (a b : float) :
  (a <? b) = true -> is_number a = true /\ is_number b = true.
Proof.
  rewrite ltb_spec, !is_number_spec. unfold SFltb.
  destruct (SFcompare (Prim2SF a) (Prim2SF b)) eqn:E; [|discriminate].
  intros _. split; intros H; rewrite H in E.
  - discriminate.
  - destruct (Prim2SF a); discriminate.
Qed.

Lemma leb_is_number (a b : float) :
  (a <=? b) = true -> is_number a = true /\ is_number b = true.
Proof.
  rewrite leb_spec, !is_number_spec. unfold SFleb.
  destruct (SFcompare (Prim2SF a) (Prim2SF b)) eqn:E; [|discriminate].
  intros _. split; intros H; rewrite H in E.
  - discriminate.
  - destruct (Prim2SF a); discriminate.
Qed.

(** On numbers [<=] and [>] are complementary. *)
Lemma leb_negb_ltb (a b : float) :
  is_number a = true -> is_number b = true ->
  (a <=? b) = negb (b <? a).
Proof.
  rewrite !is_number_spec, leb_spec, ltb_spec. unfold SFleb, SFltb.
  intros Ha Hb. rewrite (SFcompare_antisym (Prim2SF a) (Prim2SF b)).
  destruct (SFcompare (Prim2SF a) (Prim2SF b)) as [[]|] eqn:E;
    try reflexivity.
  apply SFcompare_None in E. tauto.
Qed.

Lemma eqb_zero_abs (y : float) : (y =? 0) = true -> abs y = 0.
Proof.
  rewrite eqb_spec. intros H. apply Prim2SF_inj. rewrite abs_spec.
  change (Prim2SF 0) with (S754_zero false) in *.
  destruct (Prim2SF y) as [s|s| |s m e]; simpl in *;
    try discriminate; try reflexivity;
    destruct s; discriminate.
Qed.

End FloatFacts.

(** ** Geometry metrics *)

Section Metrics.
Context {P : Platform}.
Local Open Scope float_scope.

Lemma angle_at_corner (ab bc ca : float) (acc : list float) :
  angle_at [ab; bc; ca] acc 0 =
    bind (corner_angle ab bc ca) (fun a => Ok (acc ++ [a]))
  /\ angle_at [ab; bc; ca] acc 1 =
    bind (corner_angle bc ca ab) (fun a => Ok (acc ++ [a]))
  /\ angle_at [ab; bc; ca] acc 2 =
    bind (corner_angle ca ab bc) (fun a => Ok (acc ++ [a])).
Proof.
  unfold angle_at, corner_angle.
  change (getitem [ab; bc; ca] 0) with (Ok ab).
  change (getitem [ab; bc; ca] 1) with (Ok bc).
  change (getitem [ab; bc; ca] 2) with (Ok ca).
  change (getitem [ab; bc; ca] ((0 + 1) mod 3)) with (Ok bc).
  change (getitem [ab; bc; ca] ((0 + 2) mod 3)) with (Ok ca).
  change (getitem [ab; bc; ca] ((1 + 1) mod 3)) with (Ok ca).
  change (getitem [ab; bc; ca] ((1 + 2) mod 3)) with (Ok ab).
  change (getitem [ab; bc; ca] ((2 + 1) mod 3)) with (Ok ab).
  change (getitem [ab; bc; ca] ((2 + 2) mod 3)) with (Ok bc).
  cbn [bind].
  repeat split;
    match goal with
    | |- context [if ?b then _ else _] => destruct b; [reflexivity|]
    end;
    match goal with
    | |- context [truediv ?x ?y] => destruct (truediv x y); [|reflexivity]
    end; cbn [bind];
    match goal with
    | |- context [py_acos ?x] => destruct (py_acos x); reflexivity
    end.
Qed.

Lemma internal_angles_unfold (ab bc ca : float) :
  internal_angles ab bc ca =
  (a0 <- corner_angle ab bc ca ;;
   a1 <- corner_angle bc ca ab ;;
   a2 <- corner_angle ca ab bc ;;
   Ok [a0; a1; a2]).
Proof.
  unfold internal_angles. change (range 3) with [0; 1; 2]%Z.
  cbn [for_each].
  destruct (angle_at_corner ab bc ca []) as (-> & _ & _).
  destruct (corner_angle ab bc ca) as [a0|]; [|reflexivity]. cbn [bind].
  destruct (angle_at_corner ab bc ca ([] ++ [a0])) as (_ & -> & _).
  destruct (corner_angle bc ca ab) as [a1|]; [|reflexivity]. cbn [bind].
  destruct (angle_at_corner ab bc ca (([] ++ [a0]) ++ [a1])) as (_ & _ & ->).
  destruct (corner_angle ca ab bc) as [a2|]; reflexivity.
Qed.

(** The clamped cosine is inside the domain of [math.acos]. *)
Lemma clamp_in_domain (x : float) :
  let c := py_max (-1) (py_min 1 x) in
  (c <? -1) = false /\ (1 <? c) = false.
Proof.
  unfold py_max, py_min.
  destruct (x <? 1) eqn:E1.
  - destruct (-1 <? x) eqn:E2.
    + split; apply ltb_asym; assumption.
    + split; reflexivity.
  - split; reflexivity.
Qed.

Lemma py_acos_clamped (x : float) :
  py_acos (py_max (-1) (py_min 1 x))
  = Ok (math_acos (py_max (-1) (py_min 1 x))).
Proof.
  unfold py_acos. destruct (clamp_in_domain x) as [-> ->]. reflexivity.
Qed.

Lemma corner_angle_raises (a b c : float) (e : exn) :
  corner_angle a b c = Raise e -> e = ZeroDivisionError.
Proof.
  unfold corner_angle. destruct ((b =? 0) || (c =? 0)); [discriminate|].
  unfold truediv. destruct (2 * b * c =? 0); simpl.
  - congruence.
  - rewrite py_acos_clamped. discriminate.
Qed.

Lemma to_degrees_Ok (angle : float) :
  to_degrees angle = Ok (angle * 180 / math_pi).
Proof.
  reflexivity.
Qed.

Lemma min_internal_angle_raises (ab bc ca : float) (e : exn) :
  _min_internal_angle ab bc ca = Raise e -> e = ZeroDivisionError.
Proof.
  unfold _min_internal_angle. rewrite internal_angles_unfold.
  destruct (corner_angle ab bc ca) eqn:E0; cbn [bind];
    [|intros [= <-]; eapply corner_angle_raises; eauto].
  destruct (corner_angle bc ca ab) eqn:E1; cbn [bind];
    [|intros [= <-]; eapply corner_angle_raises; eauto].
  destruct (corner_angle ca ab bc) eqn:E2; cbn [bind];
    [|intros [= <-]; eapply corner_angle_raises; eauto].
  cbn [map_result]. rewrite !to_degrees_Ok. cbn [bind py_min_of].
  discriminate.
Qed.

Lemma triangle_metrics_raises (tri : Triangle) (e : exn) :
  triangle_metrics tri = Raise e -> e = ZeroDivisionError.
Proof.
  destruct tri as [[a b] c]. unfold triangle_metrics.
  destruct (_min_internal_angle _ _ _) eqn:E; cbn [bind]; [discriminate|].
  intros [= <-]. eapply min_internal_angle_raises; eauto.
Qed.

End Metrics.

(** ** The comparator *)

Section Comparator.
Context {P : Platform}.
Local Open Scope float_scope.

Lemma In_range (n i : Z) : In i (range n) <-> (0 <= i < n)%Z.
Proof.
  unfold range. rewrite in_map_iff. split.
  - intros (k & <- & Hk). apply in_seq in Hk. lia.
  - intros H. exists (Z.to_nat i). rewrite in_seq. split; lia.
Qed.

Lemma getitem_in_bounds {A : Type} (l : list A) (i : Z) :
  (0 <= i < len l)%Z -> exists x, getitem l i = Ok x /\ nth_error l (Z.to_nat i) = Some x.
Proof.
  unfold getitem, len. intros H.
  destruct (Z.ltb_spec i 0); [lia|].
  destruct (Z.leb_spec 0 i); [|lia].
  destruct (Z.ltb_spec i (Z.of_nat (length l))); [|lia]. simpl.
  destruct (nth_error l (Z.to_nat i)) eqn:E; simpl; eauto.
  apply nth_error_None in E. lia.
Qed.

Lemma comparison_range_le (reference candidate : PolylineDump)
      (max_triangles : option Z) :
  (comparison_range reference candidate max_triangles
   <= Z.min (len (triangles reference)) (len (triangles candidate)))%Z.
Proof.
  unfold comparison_range. lia.
Qed.

Lemma comparison_range_uncapped (reference candidate : PolylineDump) :
  comparison_range reference candidate None
  = Z.min (len (triangles reference)) (len (triangles candidate)).
Proof.
  unfold comparison_range. lia.
Qed.

(** [max_vertex_delta] is never a NaN: the running maximum starts at 0 and
    is replaced only by a value that compares greater. *)
Lemma py_max_is_number (m h : float) :
  is_number m = true -> is_number (py_max m h) = true.
Proof.
  unfold py_max. intros Hm. destruct (m <? h) eqn:E; auto.
  now apply ltb_is_number in E.
Qed.

Lemma delta_step_is_number (acc : float * float) (pair : Point * Point) :
  is_number (fst acc) = true -> is_number (fst (delta_step acc pair)) = true.
Proof.
  destruct acc as [mv mc], pair as [va vb]. simpl.
  apply py_max_is_number.
Qed.

Lemma triangle_delta_is_number (a b : Triangle) :
  is_number (fst (_triangle_delta a b)) = true.
Proof.
  unfold _triangle_delta.
  assert (H : is_number (fst (0, 0)) = true) by reflexivity.
  revert H. generalize (0, 0). 
  induction (combine (vertices a) (vertices b)) as [|p l IH];
    intros acc H; simpl; auto.
  apply IH. now apply delta_step_is_number.
Qed.

(** With a tolerance that is a number, "not [<=]" is "[>]". *)
Lemma reported_at_exceeds (reference candidate : PolylineDump)
      (tolerance : float) (idx : Z) :
  is_number tolerance = true ->
  reported_at reference candidate tolerance idx
  = exceeds reference candidate tolerance idx.
Proof.
  intros H. unfold reported_at, exceeds.
  destruct (aligned reference candidate idx) as [[ta tb]|]; auto.
  rewrite leb_negb_ltb, negb_involutive; auto.
  apply triangle_delta_is_number.
Qed.

(** One turn of the loop, at an index inside both sequences. *)
Lemma compare_at_cases (reference candidate : PolylineDump)
      (tolerance : float) (diffs : list TriangleDiff) (idx : Z) :
  (0 <= idx < len (triangles reference))%Z ->
  (0 <= idx < len (triangles candidate))%Z ->
  (reported_at reference candidate tolerance idx = false
   /\ compare_at reference candidate tolerance diffs idx = Ok diffs)
  \/ (reported_at reference candidate tolerance idx = true
      /\ ((exists d, compare_at reference candidate tolerance diffs idx
                     = Ok (diffs ++ [d])
                     /\ triangle_index d = idx)
          \/ compare_at reference candidate tolerance diffs idx
             = Raise ZeroDivisionError)).
Proof.
  intros Ha Hb. unfold compare_at, reported_at, aligned.
  destruct (getitem_in_bounds _ _ Ha) as (ta & -> & _).
  destruct (getitem_in_bounds _ _ Hb) as (tb & -> & _).
  cbn [bind].
  destruct (_triangle_delta ta tb) as [mv mc]. cbn [fst] in *.
  destruct (mv <=? tolerance); cbn [negb]; [left; auto|right].
  split; [reflexivity|].
  destruct (triangle_metrics ta) as [ma|e] eqn:Ea; cbn [bind].
  - destruct (triangle_metrics tb) as [mb|e] eqn:Eb; cbn [bind].
    + left. eexists. split; reflexivity.
    + right. now rewrite (triangle_metrics_raises _ _ Eb).
  - right. now rewrite (triangle_metrics_raises _ _ Ea).
Qed.

Lemma compare_loop (reference candidate : PolylineDump) (tolerance : float)
      (idxs : list Z) (acc : list TriangleDiff) :
  Forall (fun idx => (0 <= idx < len (triangles reference))%Z
                     /\ (0 <= idx < len (triangles candidate))%Z) idxs ->
  (exists diffs,
      for_each (compare_at reference candidate tolerance) idxs acc = Ok diffs
      /\ map triangle_index diffs
         = map triangle_index acc
               ++ filter (reported_at reference candidate tolerance) idxs)
  \/ for_each (compare_at reference candidate tolerance) idxs acc
     = Raise ZeroDivisionError.
Proof.
  revert acc.
  induction idxs as [|idx idxs IH]; intros acc Hin; cbn [for_each filter].
  - left. exists acc. now rewrite app_nil_r.
  - inversion Hin as [|? ? [Ha Hb] Hrest]; subst.
    destruct (compare_at_cases reference candidate tolerance acc idx Ha Hb)
      as [[-> ->]|[-> [(d & -> & Hd)| ->]]]; cbn [bind]; auto.
    destruct (IH (acc ++ [d]) Hrest) as [(diffs & -> & Hdiffs)| ->]; auto.
    left. exists diffs. split; auto.
    rewrite Hdiffs, map_app, <- app_assoc. simpl. now rewrite Hd.
Qed.

Lemma range_in_bounds (reference candidate : PolylineDump)
      (max_triangles : option Z) :
  Forall (fun idx => (0 <= idx < len (triangles reference))%Z
                     /\ (0 <= idx < len (triangles candidate))%Z)
         (range (comparison_range reference candidate max_triangles)).
Proof.
  apply Forall_forall. intros idx H. apply In_range in H.
  pose proof (comparison_range_le reference candidate max_triangles). lia.
Qed.

(** The comparator returns the reported indices of the range, in order, or
    raises the [ZeroDivisionError] of [triangle_metrics]. *)
Lemma compare_polylines_cases (reference candidate : PolylineDump)
      (tolerance : float) (max_triangles : option Z) :
  (exists diffs,
      compare_polylines reference candidate tolerance max_triangles = Ok diffs
      /\ map triangle_index diffs
         = filter (reported_at reference candidate tolerance)
                  (range (comparison_range reference candidate
                                           max_triangles)))
  \/ compare_polylines reference candidate tolerance max_triangles
     = Raise ZeroDivisionError.
Proof.
  unfold compare_polylines.
  destruct (compare_loop reference candidate tolerance
              (range (comparison_range reference candidate max_triangles))
              [] (range_in_bounds _ _ _))
    as [(diffs & H & Hd)|H]; eauto.
Qed.

End Comparator.

(** The reference platform obeys the laws. *)
Lemma cpython_laws : PlatformLaws cpython.
Proof.
  split.
  - intros x. reflexivity.
  - intros y. cbn. unfold Reference.hypot.
    destruct (y =? 0)%float eqn:E; [|reflexivity].
    now rewrite (eqb_zero_abs y E).
  - intros y. cbn. unfold Reference.hypot.
    destruct (y =? 0)%float; reflexivity.
  - vm_compute. reflexivity.
Qed.

(** C2.  The comparator loops over [range(n)] with
    [n = min(limit, len(reference.triangles), len(candidate.triangles))],
    that is over the indices 0 .. n - 1; without a cap [n] is the smaller of
    the two lengths.  Every index of the range is inside both sequences, so
    no lookup raises [IndexError], and every reported index is below both
    lengths: the extra triangles of the longer sequence are never
    reported. *)
Theorem comparison_stays_in_shared_range :
  forall (P : Platform) (reference candidate : PolylineDump)
         (tolerance : float) (max_triangles : option Z),
    let la := len (triangles reference) in
    let lb := len (triangles candidate) in
    let limit := match max_triangles with
                 | Some cap => cap
                 | None => Z.max la lb
                 end in
    let n := comparison_range reference candidate max_triangles in
    compare_polylines reference candidate tolerance max_triangles
    = for_each (compare_at reference candidate tolerance) (range n) []
    /\ n = Z.min (Z.min limit la) lb
    /\ (forall idx, In idx (range n) <-> (0 <= idx <= n - 1)%Z)
    /\ (max_triangles = None -> n = Z.min la lb)
    /\ (forall idx, In idx (range n) ->
          exists tri_a tri_b,
            getitem (triangles reference) idx = Ok tri_a
            /\ getitem (triangles candidate) idx = Ok tri_b)
    /\ compare_polylines reference candidate tolerance max_triangles
       <> Raise IndexError
    /\ (forall diffs d,
          compare_polylines reference candidate tolerance max_triangles
          = Ok diffs ->
          In d diffs -> (0 <= triangle_index d < Z.min la lb)%Z).
Proof.
  intros P reference candidate tolerance max_triangles la lb limit n.
  pose proof (comparison_range_le reference candidate max_triangles) as Hle.
  fold la lb n in Hle.
  split; [reflexivity|]. split; [reflexivity|]. split; [|split; [|split; [|split]]].
  - intros idx. rewrite In_range. lia.
  - intros ->. apply comparison_range_uncapped.
  - intros idx H. apply In_range in H.
    destruct (getitem_in_bounds (triangles reference) idx) as (ta & Ha & _);
      [fold la; lia|].
    destruct (getitem_in_bounds (triangles candidate) idx) as (tb & Hb & _);
      [fold lb; lia|].
    eauto.
  - destruct (compare_polylines_cases reference candidate tolerance
                max_triangles) as [(diffs & -> & _)| ->]; discriminate.
  - intros diffs d H Hd.
    destruct (compare_polylines_cases reference candidate tolerance
                max_triangles) as [(diffs' & H' & Hidx)|H']; [|congruence].
    rewrite H in H'. injection H' as <-.
    assert (Hin : In (triangle_index d) (map triangle_index diffs))
      by now apply in_map.
    rewrite Hidx in Hin. apply filter_In in Hin as [Hin _].
    apply In_range in Hin. fold n in Hin. lia.
Qed.

Section FailingInputs.
Context {P : Platform} {L : PlatformLaws P}.
Local Open Scope float_scope.

Lemma sliver_metrics : triangle_metrics sliver = Raise ZeroDivisionError.
Proof.
  unfold triangle_metrics, sliver, _distance. cbn [fst snd].
  change (0 - 0) with 0. change (0 - 1e-200) with (-1e-200).
  change (1e-200 - 0) with 1e-200.
  rewrite !hypot_zero_r.
  unfold _min_internal_angle. rewrite internal_angles_unfold.
  reflexivity.
Qed.

Lemma collinear_metrics : triangle_metrics collinear = Raise ZeroDivisionError.
Proof.
  unfold triangle_metrics, collinear, _distance. cbn [fst snd].
  change (0 - 0) with 0. change (0 - 1e-200) with (-1e-200).
  change (1e-200 - 2e-200) with (-1e-200).
  change (2e-200 - 0) with 2e-200.
  rewrite !hypot_zero_r.
  unfold _min_internal_angle. rewrite internal_angles_unfold.
  reflexivity.
Qed.

Lemma sliver_delta : _triangle_delta sliver moved = (1, 1).
Proof.
  unfold _triangle_delta, sliver, moved. cbn [vertices combine fold_left delta_step fst snd].
  change (abs (0 - 0)) with 0. change (abs (0 - 1)) with 1.
  change (abs (1e-200 - 0)) with 1e-200.
  rewrite !hypot_zero_r. reflexivity.
Qed.

Lemma sliver_comparison :
  compare_polylines (dump_of [sliver]) (dump_of [moved]) 0.001 None
  = Raise ZeroDivisionError.
Proof.
  unfold compare_polylines.
  change (range _) with [0%Z]. cbn [for_each]. unfold compare_at.
  change (getitem (triangles (dump_of [sliver])) 0) with (Ok sliver).
  change (getitem (triangles (dump_of [moved])) 0) with (Ok moved).
  cbn [bind]. rewrite sliver_delta.
  change (1 <=? 0.001) with false. cbn iota.
  rewrite sliver_metrics. reflexivity.
Qed.

End FailingInputs.

(** The failing inputs are dumps the parser accepts. *)
Example sliver_is_parsed :
  _parse_triangle_line (lit "Triangle 0: [0, 0], [0, 0], [1e-200, 0]")
  = Ok sliver
  /\ _parse_triangle_line (lit "Triangle 1: [0, 0], [1e-200, 0], [2e-200, 0]")
     = Ok collinear
  /\ _parse_triangle_line (lit "Triangle 2: [0, 0], [1e200, 0], [0, 1e200]")
     = Ok huge.
Proof.
  repeat split; vm_compute; reflexivity.
Qed.

(** C1 fails on the code at this input.  The reference polyline holds the
    one triangle [sliver], the candidate the triangle [moved]; the tolerance
    is 0.001.  Index 0 is in the comparison range and its
    [max_vertex_delta], 1, exceeds the tolerance, yet no [TriangleDiff] is
    emitted: [triangle_metrics] divides by [2 * 1e-200 * 1e-200], which is
    0 in binary64, and the comparison ends in [ZeroDivisionError]. *)
Theorem comparator_raises_instead_of_reporting :
  forall P : Platform, PlatformLaws P ->
    In 0%Z (range (comparison_range (dump_of [sliver]) (dump_of [moved]) None))
    /\ (0 <=? 0.001)%float = true
    /\ fst (_triangle_delta sliver moved) = 1%float
    /\ exceeds (dump_of [sliver]) (dump_of [moved]) 0.001 0 = true
    /\ compare_polylines (dump_of [sliver]) (dump_of [moved]) 0.001 None
       = Raise ZeroDivisionError.
Proof.
  intros P L. split; [now left|]. split; [reflexivity|].
  split; [now rewrite sliver_delta|]. split; [|apply sliver_comparison].
  unfold exceeds, aligned.
  change (getitem (triangles (dump_of [sliver])) 0) with (Ok sliver).
  change (getitem (triangles (dump_of [moved])) 0) with (Ok moved).
  cbv iota beta. now rewrite sliver_delta.
Qed.

Lemma comparator_raises_instead_of_reporting_witness :
  In 0%Z (range (comparison_range (dump_of [sliver]) (dump_of [moved]) None))
  /\ (0 <=? 0.001)%float = true
  /\ fst (_triangle_delta sliver moved) = 1%float
  /\ exceeds (dump_of [sliver]) (dump_of [moved]) 0.001 0 = true
  /\ compare_polylines (dump_of [sliver]) (dump_of [moved]) 0.001 None
     = Raise ZeroDivisionError.
Proof.
  exact (comparator_raises_instead_of_reporting cpython cpython_laws).
Defined.

(** C3 fails on the code at this input.  The first two vertices of
    [sliver] coincide, so the edge AB has length exactly 0; the two other
    edges have length 1e-200.  Neither of them is 0, the guard of the first
    corner does not fire, and the division by [2 * b * c], which underflows
    to 0, raises [ZeroDivisionError]: no minimum angle is returned. *)
Theorem zero_length_edge_raises :
  forall P : Platform, PlatformLaws P ->
    _distance (0, 0)%float (0, 0)%float = 0%float
    /\ _distance (0, 0)%float (1e-200, 0)%float = 1e-200%float
    /\ (2 * 1e-200 * 1e-200 =? 0)%float = true
    /\ _min_internal_angle 0 1e-200 1e-200 = Raise ZeroDivisionError
    /\ triangle_metrics sliver = Raise ZeroDivisionError.
Proof.
  intros P L. unfold _distance. cbn [fst snd].
  change (0 - 0)%float with 0%float.
  change (0 - 1e-200)%float with (-1e-200)%float.
  rewrite !hypot_zero_r.
  split; [reflexivity|]. split; [reflexivity|]. split; [reflexivity|].
  split; [|apply sliver_metrics].
  unfold _min_internal_angle. now rewrite internal_angles_unfold.
Qed.

Lemma zero_length_edge_raises_witness :
  _distance (0, 0)%float (0, 0)%float = 0%float
  /\ _distance (0, 0)%float (1e-200, 0)%float = 1e-200%float
  /\ (2 * 1e-200 * 1e-200 =? 0)%float = true
  /\ _min_internal_angle 0 1e-200 1e-200 = Raise ZeroDivisionError
  /\ triangle_metrics sliver = Raise ZeroDivisionError.
Proof.
  exact (zero_length_edge_raises cpython cpython_laws).
Defined.

(** C4 fails on the code at this input.  The three vertices of [collinear]
    lie on one line, 1e-200 apart: its area is 0, it is degenerate, and
    instead of the minimum angle 0 the metrics end in [ZeroDivisionError],
    by the underflow of [2 * b * c] again. *)
Theorem degenerate_triangle_raises :
  forall P : Platform, PlatformLaws P ->
    triangle_area collinear = 0%float
    /\ triangle_metrics collinear = Raise ZeroDivisionError.
Proof.
  intros P L. split; [reflexivity|apply collinear_metrics].
Qed.

Lemma degenerate_triangle_raises_witness :
  triangle_area collinear = 0%float
  /\ triangle_metrics collinear = Raise ZeroDivisionError.
Proof.
  exact (degenerate_triangle_raises cpython cpython_laws).
Defined.

Section Extras.
Context {P : Platform}.
Local Open Scope float_scope.

Lemma triangle_delta_fold (a b : Triangle) :
  fst (_triangle_delta a b) = fold_left py_max (vertex_deltas a b) 0.
Proof.
  unfold _triangle_delta, vertex_deltas.
  generalize (combine (vertices a) (vertices b)).
  assert (H : fst (0, 0) = 0) by reflexivity. revert H.
  generalize (0, 0) at 1 2. generalize 0 at 1 2.
  intros m acc H l. revert m acc H.
  induction l as [|[va vb] l IH]; intros m acc H; cbn [fold_left map].
  - exact H.
  - apply IH. destruct acc as [mv mc]. cbn [delta_step fst] in *.
    now rewrite H.
Qed.

End Extras.

(** X1.  Whenever the comparator returns, with a tolerance that is not
    negative, the indices of the diffs it returns are, in order, the
    indices of the comparison range whose [max_vertex_delta] strictly
    exceeds the tolerance: an index of the range has a diff if and only if
    its delta exceeds the tolerance. *)
Theorem reported_iff_exceeds :
  forall (P : Platform) (reference candidate : PolylineDump)
         (tolerance : float) (max_triangles : option Z)
         (diffs : list TriangleDiff),
    (0 <=? tolerance)%float = true ->
    compare_polylines reference candidate tolerance max_triangles = Ok diffs ->
    map triangle_index diffs
    = filter (exceeds reference candidate tolerance)
             (range (comparison_range reference candidate max_triangles))
    /\ forall idx,
        In idx (range (comparison_range reference candidate max_triangles)) ->
        ((exists d, In d diffs /\ triangle_index d = idx)
         <-> exceeds reference candidate tolerance idx = true).
Proof.
  intros P reference candidate tolerance max_triangles diffs Htol H.
  apply leb_is_number in Htol as [_ Htol].
  destruct (compare_polylines_cases reference candidate tolerance
              max_triangles) as [(diffs' & H' & Hidx)|H']; [|congruence].
  rewrite H in H'. injection H' as <-.
  assert (E : map triangle_index diffs
              = filter (exceeds reference candidate tolerance)
                  (range (comparison_range reference candidate
                                           max_triangles))).
  { rewrite Hidx. apply filter_ext. intros idx.
    now apply reported_at_exceeds. }
  split; [exact E|]. intros idx Hin. split.
  - intros (d & Hd & <-).
    assert (Hm : In (triangle_index d) (map triangle_index diffs))
      by now apply in_map.
    rewrite E in Hm. now apply filter_In in Hm.
  - intros Hex.
    assert (Hm : In idx (map triangle_index diffs)).
    { rewrite E. apply filter_In. auto. }
    apply in_map_iff in Hm as (d & Hd & Hin'). eauto.
Qed.

Lemma reported_iff_exceeds_witness :
  let diffs :=
    match compare_polylines (dump_of [unit_triangle])
                            (dump_of [nudged_triangle]) 0.001 None with
    | Ok diffs => diffs
    | Raise _ => []
    end in
  map triangle_index diffs
  = filter (exceeds (dump_of [unit_triangle]) (dump_of [nudged_triangle])
                    0.001)
           (range (comparison_range (dump_of [unit_triangle])
                                    (dump_of [nudged_triangle]) None))
  /\ forall idx,
      In idx (range (comparison_range (dump_of [unit_triangle])
                                      (dump_of [nudged_triangle]) None)) ->
      ((exists d, In d diffs /\ triangle_index d = idx)
       <-> exceeds (dump_of [unit_triangle]) (dump_of [nudged_triangle])
                   0.001 idx = true).
Proof.
  apply (reported_iff_exceeds cpython (dump_of [unit_triangle])
           (dump_of [nudged_triangle]) 0.001 None).
  - reflexivity.
  - vm_compute. reflexivity.
Defined.

(** The example of the specification: one diff at tolerance 1e-3, with
    both deltas about 0.002, and none at tolerance 1e-2. *)
Example comparison_of_the_specification :
  (exists d,
      compare_polylines (dump_of [unit_triangle]) (dump_of [nudged_triangle])
                        0.001 None = Ok [d]
      /\ triangle_index d = 0%Z
      /\ within (max_vertex_delta d) 0.002 1e-15 = true
      /\ within (max_coord_delta d) 0.002 1e-15 = true
      /\ area_a d = 0.5%float)
  /\ compare_polylines (dump_of [unit_triangle]) (dump_of [nudged_triangle])
                       0.01 None = Ok [].
Proof.
  split; [eexists; split; [vm_compute; reflexivity|]|];
    repeat split; vm_compute; reflexivity.
Qed.

(** X2.  A pair of aligned triangles whose three vertex distances are all
    zero has [max_vertex_delta] 0, and with a tolerance that is not
    negative (and not a NaN) it is never among the diffs the comparator
    returns. *)
Theorem zero_deltas_are_never_reported :
  forall (P : Platform) (reference candidate : PolylineDump)
         (tolerance : float) (max_triangles : option Z)
         (idx : Z) (tri_a tri_b : Triangle),
    (0 <=? tolerance)%float = true ->
    aligned reference candidate idx = Some (tri_a, tri_b) ->
    Forall (fun delta => delta = 0%float) (vertex_deltas tri_a tri_b) ->
    fst (_triangle_delta tri_a tri_b) = 0%float
    /\ forall diffs,
        compare_polylines reference candidate tolerance max_triangles
        = Ok diffs ->
        ~ exists d, In d diffs /\ triangle_index d = idx.
Proof.
  intros P reference candidate tolerance max_triangles idx ta tb Htol Ha Hz.
  assert (E : fst (_triangle_delta ta tb) = 0%float).
  { rewrite triangle_delta_fold.
    assert (Hgen : forall l, Forall (fun delta => delta = 0%float) l ->
                             fold_left py_max l 0%float = 0%float).
    { induction l as [|x l IH]; intros Hl; [reflexivity|].
      inversion Hl; subst. cbn [fold_left].
      change (py_max 0 0) with 0%float. auto. }
    now apply Hgen. }
  split; [exact E|]. intros diffs H (d & Hd & Hidx).
  destruct (compare_polylines_cases reference candidate tolerance
              max_triangles) as [(diffs' & H' & Hm)|H']; [|congruence].
  rewrite H in H'. injection H' as <-.
  assert (Hin : In idx (map triangle_index diffs))
    by (rewrite <- Hidx; now apply in_map).
  rewrite Hm in Hin. apply filter_In in Hin as [_ Hrep].
  unfold reported_at in Hrep. rewrite Ha, E, Htol in Hrep. discriminate.
Qed.

Lemma zero_deltas_are_never_reported_witness :
  fst (_triangle_delta unit_triangle unit_triangle) = 0%float
  /\ forall diffs,
      compare_polylines (dump_of [unit_triangle]) (dump_of [unit_triangle])
                        0.001 None = Ok diffs ->
      ~ exists d, In d diffs /\ triangle_index d = 0%Z.
Proof.
  apply (zero_deltas_are_never_reported cpython (dump_of [unit_triangle])
           (dump_of [unit_triangle]) 0.001 None 0%Z
           unit_triangle unit_triangle).
  - reflexivity.
  - reflexivity.
  - repeat constructor.
Defined.

(** X3.  The parts of the degenerate-triangle policy that hold in binary64: a
    corner with an adjacent edge of length zero has angle 0; the clamped
    cosine is inside [-1, 1], so [math.acos] never raises on it; a corner
    raises nothing but [ZeroDivisionError], and only when [2 * b * c] is
    zero although neither [b] nor [c] is. *)
Theorem zero_edge_angle_and_clamp :
  forall (P : Platform) (a b c : float),
    (((b =? 0) || (c =? 0))%float = true -> corner_angle a b c = Ok 0%float)
    /\ (forall x : float,
           let clamped := py_max (-1) (py_min 1 x) in
           (clamped <? -1)%float = false
           /\ (1 <? clamped)%float = false
           /\ py_acos clamped = Ok (math_acos clamped))
    /\ (forall e, corner_angle a b c = Raise e -> e = ZeroDivisionError)
    /\ (((b =? 0) || (c =? 0))%float = false ->
        (2 * b * c =? 0)%float = false ->
        corner_angle a b c
        = Ok (math_acos
                (py_max (-1)
                   (py_min 1 ((b * b + c * c - a * a) / (2 * b * c))%float)))).
Proof.
  intros P a b c. split; [|split; [|split]].
  - intros H. unfold corner_angle. now rewrite H.
  - intros x clamped. destruct (clamp_in_domain x) as [H1 H2].
    repeat split; auto. apply py_acos_clamped.
  - apply corner_angle_raises.
  - intros Hg Hd. unfold corner_angle, truediv. rewrite Hg, Hd.
    cbn [bind]. apply py_acos_clamped.
Qed.

(** ** The sharp-triangle scanner *)

Section Sharp.
Context {P : Platform}.

Lemma sharp_step (poly : PolylineDump) (thr : float) (item : Z * Triangle)
      (acc acc' : list (Z * Z * TriangleMetrics)) :
  sharp_at poly thr acc item = Ok acc' ->
  acc' = acc ++ sharp_entry poly thr item.
Proof.
  destruct item as [idx tri]. unfold sharp_at, sharp_entry. cbn [fst snd].
  destruct (triangle_metrics tri) as [m|e]; cbn [bind]; [|discriminate].
  destruct (min_angle_deg m <=? thr)%float; intros [= <-]; auto.
  now rewrite app_nil_r.
Qed.

Lemma sharp_inner (poly : PolylineDump) (thr : float)
      (items : list (Z * Triangle)) (acc res : list (Z * Z * TriangleMetrics)) :
  for_each (sharp_at poly thr) items acc = Ok res ->
  res = acc ++ flat_map (sharp_entry poly thr) items.
Proof.
  revert acc. induction items as [|item items IH]; intros acc;
    cbn [for_each flat_map].
  - intros [= <-]. now rewrite app_nil_r.
  - intros H. apply bind_Ok in H as (acc' & Hstep & H).
    rewrite (IH _ H), (sharp_step _ _ _ _ _ Hstep).
    now rewrite <- app_assoc.
Qed.

Lemma sharp_outer (thr : float) (polylines : list PolylineDump)
      (acc res : list (Z * Z * TriangleMetrics)) :
  for_each (fun results poly =>
              for_each (sharp_at poly thr) (enumerate (triangles poly))
                       results)
           polylines acc = Ok res ->
  res = acc ++ flat_map (sharp_entries thr) polylines.
Proof.
  revert acc. induction polylines as [|poly polylines IH]; intros acc;
    cbn [for_each flat_map].
  - intros [= <-]. now rewrite app_nil_r.
  - intros H. apply bind_Ok in H as (acc' & Hstep & H).
    rewrite (IH _ H), (sharp_inner _ _ _ _ _ Hstep).
    unfold sharp_entries at 2. now rewrite <- app_assoc.
Qed.

End Sharp.

(** X9.  Whenever the scanner returns, its results are, polyline by polyline
    and triangle by triangle, the triangles whose minimum angle is at or
    below the threshold, each with its polyline index, its position and
    its metrics. *)
Theorem sharp_triangles_in_order :
  forall (P : Platform) (polylines : list PolylineDump)
         (angle_threshold : float)
         (results : list (Z * Z * TriangleMetrics)),
    collect_sharp_triangles polylines angle_threshold = Ok results ->
    results = flat_map (sharp_entries angle_threshold) polylines
    /\ forall poly_index idx metrics,
        In (poly_index, idx, metrics) results ->
        (min_angle_deg metrics <=? angle_threshold)%float = true
        /\ exists poly tri,
            In poly polylines /\ index poly = poly_index
            /\ getitem (triangles poly) idx = Ok tri
            /\ triangle_metrics tri = Ok metrics.
Proof.
  intros P polylines thr results H.
  apply sharp_outer in H. cbn [app] in H. split; [exact H|].
  intros pi idx m Hin. rewrite H in Hin.
  apply in_flat_map in Hin as (poly & Hpoly & Hin).
  unfold sharp_entries in Hin.
  apply in_flat_map in Hin as ([i tri] & Hitem & Hin).
  unfold sharp_entry in Hin. cbn [fst snd] in Hin.
  destruct (triangle_metrics tri) as [m'|e] eqn:Em; [|destruct Hin].
  destruct (min_angle_deg m' <=? thr)%float eqn:Et; [|destruct Hin].
  destruct Hin as [[= <- <- <-]|[]].
  split; [exact Et|]. exists poly, tri. repeat split; auto.
  unfold enumerate in Hitem.
  assert (Hn : exists k : nat, i = Z.of_nat k
                               /\ nth_error (triangles poly) k = Some tri).
  { revert Hitem. unfold range, len. rewrite Nat2Z.id.
    generalize (triangles poly). intros l.
    assert (G : forall (l : list Triangle) (s : nat),
               In (i, tri) (combine (map Z.of_nat (seq s (length l))) l) ->
               exists k, i = Z.of_nat (s + k)
                         /\ nth_error l k = Some tri).
    { clear. induction l as [|t l IH]; intros s; cbn; [tauto|].
      intros [[= <- <-]|Hin].
      - exists 0%nat. rewrite Nat.add_0_r. auto.
      - apply IH in Hin as (k & -> & Hk). exists (S k).
        split; [f_equal; lia|exact Hk]. }
    intros Hitem. apply G in Hitem as (k & -> & Hk). eauto. }
  destruct Hn as (k & -> & Hk).
  assert (Hlt : (k < length (triangles poly))%nat)
    by (apply nth_error_Some; congruence).
  destruct (getitem_in_bounds (triangles poly) (Z.of_nat k)) as (x & Hx & Hx');
    [unfold len; lia|].
  rewrite Nat2Z.id in Hx'. congruence.
Qed.

Lemma sharp_triangles_in_order_witness :
  let results :=
    match collect_sharp_triangles
            [dump_of [unit_triangle]; dump_of [unit_triangle; moved]] 46 with
    | Ok results => results
    | Raise _ => []
    end in
  results
  = flat_map (sharp_entries 46)
             [dump_of [unit_triangle]; dump_of [unit_triangle; moved]]
  /\ forall poly_index idx metrics,
      In (poly_index, idx, metrics) results ->
      (min_angle_deg metrics <=? 46)%float = true
      /\ exists poly tri,
          In poly [dump_of [unit_triangle]; dump_of [unit_triangle; moved]]
          /\ index poly = poly_index
          /\ getitem (triangles poly) idx = Ok tri
          /\ triangle_metrics tri = Ok metrics.
Proof.
  apply (sharp_triangles_in_order cpython
           [dump_of [unit_triangle]; dump_of [unit_triangle; moved]] 46).
  vm_compute. reflexivity.
Defined.
(** * Further properties

    ** The parser *)

Section ParserErrors.
Context {P : Platform}.

Lemma bind_Raise {A B : Type} (m : result A) (k : A -> result B) (e : exn) :
  bind m k = Raise e ->
  m = Raise e \/ exists a, m = Ok a /\ k a = Raise e.
Proof.
  destruct m as [a|e']; simpl; intros H.
  - right. now exists a.
  - left. now injection H as <-.
Qed.

Lemma for_each_Raise {S A : Type} (body : S -> A -> result S)
      (items : list A) (s : S) (e : exn) :
  for_each body items s = Raise e ->
  exists s' item, In item items /\ body s' item = Raise e.
Proof.
  revert s. induction items as [|item items IH]; intros s H; simpl in H.
  - discriminate.
  - apply bind_Raise in H as [H | (s' & _ & H)].
    + exists s, item. split; [now left | exact H].
    + destruct (IH _ H) as (s'' & item' & Hin & Hb).
      exists s'', item'. split; [now right | exact Hb].
Qed.

Lemma getitem_Raise {A : Type} (l : list A) (i : Z) (e : exn) :
  getitem l i = Raise e -> e = IndexError.
Proof.
  unfold getitem.
  destruct ((0 <=? _) && _)%Z; [|now intros [= <-]].
  destruct (nth_error _ _); simpl; [discriminate | now intros [= <-]].
Qed.

Lemma of_option_Raise {A : Type} (e0 : exn) (o : option A) (e : exn) :
  of_option e0 o = Raise e -> e = e0.
Proof. destruct o; simpl; [discriminate | now intros [= <-]]. Qed.

Lemma unpack3_Raise {A : Type} (l : list A) (e : exn) :
  unpack3 l = Raise e -> e = ValueError.
Proof.
  destruct l as [|a [|b [|c [|d l]]]]; simpl; try discriminate;
    now intros [= <-].
Qed.

Lemma header_fields_Raise (line : str) (e : exn) :
  header_fields line = Raise e -> value_or_index e = true.
Proof.
  unfold header_fields. intros H.
  repeat (apply bind_Raise in H as [H | (? & _ & H)];
          [first [ apply unpack3_Raise in H | apply getitem_Raise in H
                 | apply of_option_Raise in H ]; now subst |]);
    try (destruct x as [[? ?] ?]);
  repeat (apply bind_Raise in H as [H | (? & _ & H)];
          [first [ apply unpack3_Raise in H | apply getitem_Raise in H
                 | apply of_option_Raise in H ]; now subst |]).
  discriminate.
Qed.

Lemma parse_polyline_header_Raise (line : str) (index : Z) (e : exn) :
  _parse_polyline_header line index = Raise e -> e = header_error line.
Proof.
  unfold _parse_polyline_header. intros H.
  apply bind_Raise in H as [H | (x & _ & H)].
  - unfold try_except in H.
    destruct (header_fields line) as [x|e'] eqn:E; [discriminate|].
    rewrite (header_fields_Raise _ _ E) in H. now injection H as <-.
  - destruct x as [[? ?] ?]. discriminate.
Qed.

Lemma parse_triangle_line_Raise (line : str) (e : exn) :
  _parse_triangle_line line = Raise e -> e = triangle_error line.
Proof.
  unfold _parse_triangle_line, try_except, any_exception.
  destruct (triangle_body line); [discriminate | now intros [= <-]].
Qed.

Lemma parse_line_Raise (path : str) (st : parser_state) (raw_line : str)
      (e : exn) :
  parse_line path st raw_line = Raise e ->
  e = orphan_triangle_error path
  \/ e = header_error (Str.strip raw_line)
  \/ e = triangle_error (Str.strip raw_line).
Proof.
  unfold parse_line.
  destruct (Str.strip raw_line) as [|c line] eqn:E; [discriminate|].
  destruct (Str.startswith (c :: line) POLYLINE_PREFIX).
  - intros H. apply bind_Raise in H as [H | (x & _ & H)]; [|discriminate].
    right; left. eapply parse_polyline_header_Raise, H.
  - destruct (Str.startswith (c :: line) TRIANGLE_PREFIX); [|discriminate].
    destruct (snd st).
    + intros H. apply bind_Raise in H as [H | (x & _ & H)]; [|discriminate].
      right; right. eapply parse_triangle_line_Raise, H.
    + intros [= <-]. now left.
Qed.

Lemma parse_lines_Raise (path : str) (lines : list str) (e : exn) :
  parse_lines path lines = Raise e ->
  e = orphan_triangle_error path
  \/ exists raw_line,
      In raw_line lines
      /\ (e = header_error (Str.strip raw_line)
          \/ e = triangle_error (Str.strip raw_line)).
Proof.
  unfold parse_lines. intros H.
  apply bind_Raise in H as [H | (x & _ & H)]; [|discriminate].
  apply for_each_Raise in H as (s' & raw_line & Hin & H).
  apply parse_line_Raise in H as [H | H]; [now left|].
  right. now exists raw_line.
Qed.

End ParserErrors.

(** X10.  The only exception [parse_log] raises is [ParseError], with one
    of its four messages: the buffer cannot be decoded, a triangle entry
    comes before the first header, or a header or a triangle entry, quoted
    stripped in the message, cannot be parsed.  No [ValueError] or
    [IndexError] of the field parsing escapes. *)
Theorem parse_log_raises_only_ParseError :
  forall (P : Platform) (path : str) (raw : Codec.bytes) (e : exn),
    parse_log path raw = Raise e ->
    is_ParseError e = true
    /\ (e = decode_error path
        \/ e = orphan_triangle_error path
        \/ exists lines raw_line,
            _iter_lines path raw = Ok lines
            /\ In raw_line lines
            /\ (e = header_error (Str.strip raw_line)
                \/ e = triangle_error (Str.strip raw_line))).
Proof.
  intros P path raw e H.
  assert (Hcases :
            e = decode_error path
            \/ e = orphan_triangle_error path
            \/ exists lines raw_line,
                _iter_lines path raw = Ok lines
                /\ In raw_line lines
                /\ (e = header_error (Str.strip raw_line)
                    \/ e = triangle_error (Str.strip raw_line))).
  { unfold parse_log in H.
    apply bind_Raise in H as [H | (lines & Hl & H)].
    - left. unfold _iter_lines in H.
      destruct (first_decoding encodings raw); [discriminate|].
      now injection H as <-.
    - apply parse_lines_Raise in H as [H | (raw_line & Hin & H)].
      + right; left; exact H.
      + right; right. now exists lines, raw_line. }
  split; [|exact Hcases].
  destruct Hcases as [-> | [-> | (lines & raw_line & _ & _ & [-> | ->])]];
    reflexivity.
Qed.

Lemma parse_log_raises_only_ParseError_witness :
  is_ParseError (header_error (lit "Polyline: three points")) = true
  /\ (header_error (lit "Polyline: three points") = decode_error (lit "a.txt")
      \/ header_error (lit "Polyline: three points")
         = orphan_triangle_error (lit "a.txt")
      \/ exists lines raw_line,
          _iter_lines (lit "a.txt")
                      (map Ascii.byte_of_ascii
                           (list_ascii_of_string "  Polyline: three points  "))
          = Ok lines
          /\ In raw_line lines
          /\ (header_error (lit "Polyline: three points")
              = header_error (Str.strip raw_line)
              \/ header_error (lit "Polyline: three points")
                 = triangle_error (Str.strip raw_line))).
Proof.
  apply (parse_log_raises_only_ParseError cpython (lit "a.txt")
           (map Ascii.byte_of_ascii
                (list_ascii_of_string "  Polyline: three points  "))).
  vm_compute. reflexivity.
Defined.

Section StripFacts.

Lemma lstrip_head (s : str) (c : N) (r : str) :
  Str.lstrip s = c :: r -> Str.isspace c = false.
Proof.
  induction s as [|d s IH]; simpl; [discriminate|].
  destruct (Str.isspace d) eqn:E; [exact IH|].
  now intros [= <- _].
Qed.

Lemma lstrip_fixed (c : N) (r : str) :
  Str.isspace c = false -> Str.lstrip (c :: r) = c :: r.
Proof. intros H. simpl. now rewrite H. Qed.

Lemma lstrip_idem (s : str) : Str.lstrip (Str.lstrip s) = Str.lstrip s.
Proof.
  destruct (Str.lstrip s) as [|c r] eqn:E; [reflexivity|].
  apply lstrip_fixed. eapply lstrip_head, E.
Qed.

Lemma lstrip_snoc (l : str) (c : N) :
  Str.isspace c = false -> exists l', Str.lstrip (l ++ [c]) = l' ++ [c].
Proof.
  intros H. induction l as [|d l IH]; simpl.
  - rewrite H. now exists [].
  - destruct (Str.isspace d); [exact IH|]. now exists (d :: l).
Qed.

Lemma rstrip_cons (c : N) (r : str) :
  Str.isspace c = false -> exists r', Str.rstrip (c :: r) = c :: r'.
Proof.
  intros H. unfold Str.rstrip. simpl rev.
  destruct (lstrip_snoc (rev r) c H) as (l' & ->).
  exists (rev l'). now rewrite rev_app_distr.
Qed.

Lemma rstrip_idem (s : str) : Str.rstrip (Str.rstrip s) = Str.rstrip s.
Proof. unfold Str.rstrip. now rewrite rev_involutive, lstrip_idem. Qed.

Lemma strip_idem (s : str) : Str.strip (Str.strip s) = Str.strip s.
Proof.
  unfold Str.strip.
  destruct (Str.lstrip s) as [|c r] eqn:E; [reflexivity|].
  pose proof (lstrip_head _ _ _ E) as Hc.
  destruct (rstrip_cons c r Hc) as (r' & Hr).
  rewrite Hr, (lstrip_fixed c r' Hc), <- Hr. apply rstrip_idem.
Qed.

End StripFacts.

Section Skipping.
Context {P : Platform}.

Lemma parse_line_strip (path : str) (st : parser_state) (raw_line : str) :
  parse_line path st (Str.strip raw_line) = parse_line path st raw_line.
Proof. unfold parse_line. now rewrite strip_idem. Qed.

Lemma parse_line_skip (path : str) (st : parser_state) (raw_line : str) :
  relevant raw_line = false -> parse_line path st raw_line = Ok st.
Proof.
  unfold relevant, is_header, is_entry, parse_line. intros H.
  apply orb_false_elim in H as [H1 H2].
  destruct (Str.strip raw_line); [reflexivity|]. now rewrite H1, H2.
Qed.

Lemma blank_is_skipped (raw_line : str) :
  Str.strip raw_line = [] -> relevant raw_line = false.
Proof.
  unfold relevant, is_header, is_entry. now intros ->.
Qed.

Lemma for_each_ext {S A : Type} (f g : S -> A -> result S) (items : list A)
      (s : S) :
  (forall s' item, In item items -> f s' item = g s' item) ->
  for_each f items s = for_each g items s.
Proof.
  revert s. induction items as [|item items IH]; intros s H; simpl.
  - reflexivity.
  - rewrite (H s item) by now left.
    destruct (g s item); simpl; [|reflexivity].
    apply IH. intros s' item' Hin. apply H. now right.
Qed.

Lemma for_each_map {S A B : Type} (body : S -> B -> result S) (f : A -> B)
      (items : list A) (s : S) :
  for_each body (map f items) s
  = for_each (fun s' item => body s' (f item)) items s.
Proof.
  revert s. induction items as [|item items IH]; intros s; simpl.
  - reflexivity.
  - destruct (body s (f item)); simpl; [apply IH | reflexivity].
Qed.

Lemma for_each_filter {S A : Type} (body : S -> A -> result S)
      (keep : A -> bool) (items : list A) (s : S) :
  (forall s' item, keep item = false -> body s' item = Ok s') ->
  for_each body (filter keep items) s = for_each body items s.
Proof.
  intros H. revert s. induction items as [|item items IH]; intros s; simpl.
  - reflexivity.
  - destruct (keep item) eqn:E; simpl.
    + destruct (body s item); simpl; [apply IH | reflexivity].
    + rewrite (H s item E). simpl. apply IH.
Qed.

End Skipping.

(** X11.  Lines the parser skips, and the white space around a line, have
    no effect on the outcome, result or error: a dump parses as it does
    with every line stripped and with every line removed that, stripped,
    is empty or starts with neither "Polyline:" nor "Triangle". *)
Theorem skipped_lines_do_not_matter :
  forall (P : Platform) (path : str) (lines : list str),
    parse_lines path (filter relevant lines) = parse_lines path lines
    /\ parse_lines path (map Str.strip lines) = parse_lines path lines
    /\ (forall raw_line, Str.strip raw_line = [] -> relevant raw_line = false)
    /\ (forall before raw_line after,
           relevant raw_line = false ->
           parse_lines path (before ++ raw_line :: after)
           = parse_lines path (before ++ after)).
Proof.
  intros P path lines. unfold parse_lines. repeat split.
  - rewrite for_each_filter; [reflexivity|].
    intros s' item H. now apply parse_line_skip.
  - rewrite for_each_map.
    rewrite (for_each_ext _ (parse_line path)); [reflexivity|].
    intros s' item _. apply parse_line_strip.
  - apply blank_is_skipped.
  - intros before raw_line after H.
    rewrite !for_each_app. simpl.
    destruct (for_each (parse_line path) before ([], None)); simpl;
      [|reflexivity].
    now rewrite (parse_line_skip path a raw_line H).
Qed.

Section Blocks.
Context {P : Platform}.

Lemma records_finish (st : parser_state) :
  records (finish_current st) = records st
  /\ fst (finish_current st) = records st.
Proof.
  destruct st as [done [c|]]; unfold finish_current, records; simpl;
    rewrite ?app_nil_r; auto.
Qed.

Lemma header_opened (line : str) (i : Z) (d : PolylineDump) :
  _parse_polyline_header line i = Ok d -> opened d = d /\ index d = i.
Proof.
  unfold _parse_polyline_header. intros H.
  apply bind_Ok in H as ([[pc w] l] & _ & H). now injection H as <-.
Qed.

Lemma map_result_app {A B : Type} (f : A -> result B) (l1 l2 : list A)
      (r1 r2 : list B) :
  map_result f l1 = Ok r1 -> map_result f l2 = Ok r2 ->
  map_result f (l1 ++ l2) = Ok (r1 ++ r2).
Proof.
  revert r1. induction l1 as [|x l1 IH]; intros r1 H1 H2; simpl in *.
  - now injection H1 as <-.
  - destruct (f x) as [y|]; simpl in *; [|discriminate].
    destruct (map_result f l1) as [ys|]; simpl in *; [|discriminate].
    injection H1 as <-. now rewrite (IH ys eq_refl H2).
Qed.

Lemma triangle_entries_cons (raw_line : str) (lines : list str) :
  triangle_entries (raw_line :: lines)
  = (if is_entry raw_line then [Str.strip raw_line] else [])
      ++ triangle_entries lines.
Proof.
  unfold triangle_entries, is_entry. cbn [map filter].
  now destruct (Str.startswith (Str.strip raw_line) TRIANGLE_PREFIX).
Qed.

(** What one line adds to the records of the state. *)
Lemma parse_line_records (path : str) (st st' : parser_state)
      (raw_line : str) :
  parse_line path st raw_line = Ok st' ->
  exists (hs : list PolylineDump) (tris : list Triangle),
    map opened (records st') = map opened (records st) ++ hs
    /\ concat (map triangles (records st'))
       = concat (map triangles (records st)) ++ tris
    /\ Forall2 (fun h d => _parse_polyline_header (Str.strip h) (index d)
                           = Ok d)
               (filter is_header [raw_line]) hs
    /\ map_result _parse_triangle_line
                  (if is_entry raw_line then [Str.strip raw_line] else [])
       = Ok tris.
Proof.
  unfold parse_line, is_entry. cbn [filter]. unfold is_header.
  destruct (Str.strip raw_line) as [|c line] eqn:E.
  - change (Str.startswith [] POLYLINE_PREFIX) with false.
    change (Str.startswith [] TRIANGLE_PREFIX) with false.
    intros [= <-]. exists [], []. rewrite !app_nil_r.
    repeat split; auto using Forall2_nil.
  - destruct (Str.startswith (c :: line) POLYLINE_PREFIX) eqn:Eh.
    + rewrite (prefixes_disjoint _ Eh).
      intros H. apply bind_Ok in H as (d & Hd & H). injection H as <-.
      destruct (records_finish st) as [Hr Hf].
      destruct (header_opened _ _ _ Hd) as [Ho Hi].
      exists [d], []. unfold records at 1 3. cbn [fst snd].
      rewrite Hf, !map_app, !concat_app, app_nil_r.
      cbn [map concat app]. rewrite Ho, app_nil_r.
      apply (f_equal triangles) in Ho as Ht. cbn [opened triangles] in Ht.
      rewrite <- Ht, app_nil_r.
      repeat split; auto.
      constructor; [|constructor]. rewrite E, Hi. exact Hd.
    + destruct (Str.startswith (c :: line) TRIANGLE_PREFIX) eqn:Et.
      * destruct st as [done [cur|]]; cbn [fst snd]; [|discriminate].
        intros H. apply bind_Ok in H as (t & Ht & H). injection H as <-.
        exists [], [t]. unfold records. cbn [fst snd].
        rewrite !map_app, !concat_app, app_nil_r.
        cbn [map concat app bind map_result opened append_triangle
             index point_count width layer triangles].
        rewrite Ht, !app_nil_r, app_assoc. cbn [bind].
        repeat split; auto using Forall2_nil.
      * intros [= <-]. exists [], []. rewrite !app_nil_r.
        repeat split; auto using Forall2_nil.
Qed.

Lemma for_each_records (path : str) (lines : list str)
      (st st' : parser_state) :
  for_each (parse_line path) lines st = Ok st' ->
  exists (hs : list PolylineDump) (tris : list Triangle),
    map opened (records st') = map opened (records st) ++ hs
    /\ concat (map triangles (records st'))
       = concat (map triangles (records st)) ++ tris
    /\ Forall2 (fun h d => _parse_polyline_header (Str.strip h) (index d)
                           = Ok d)
               (filter is_header lines) hs
    /\ map_result _parse_triangle_line (triangle_entries lines) = Ok tris.
Proof.
  revert st. induction lines as [|raw_line lines IH]; intros st H.
  - simpl in H. injection H as <-. exists [], [].
    rewrite !app_nil_r. simpl. auto.
  - simpl in H. apply bind_Ok in H as (st1 & H1 & H).
    destruct (parse_line_records _ _ _ _ H1) as (hs1 & t1 & A1 & B1 & C1 & D1).
    destruct (IH _ H) as (hs2 & t2 & A2 & B2 & C2 & D2).
    exists (hs1 ++ hs2), (t1 ++ t2).
    rewrite A2, A1, B2, B1, !app_assoc. repeat split; auto.
    + change (raw_line :: lines) with ([raw_line] ++ lines).
      rewrite filter_app. now apply Forall2_app.
    + rewrite triangle_entries_cons. now apply map_result_app.
Qed.

Lemma map_result_length {A B : Type} (f : A -> result B) (l : list A)
      (r : list B) :
  map_result f l = Ok r -> length r = length l.
Proof.
  revert r. induction l as [|x l IH]; intros r H; cbn [map_result] in H.
  - now injection H as <-.
  - apply bind_Ok in H as (y & _ & H). apply bind_Ok in H as (ys & Hys & H).
    injection H as <-. simpl. f_equal. now apply IH.
Qed.

Lemma triangle_entries_length (lines : list str) :
  length (triangle_entries lines) = length (filter is_entry lines).
Proof.
  induction lines as [|l lines IH]; [reflexivity|].
  rewrite triangle_entries_cons. cbn [filter].
  destruct (is_entry l); simpl; now rewrite IH.
Qed.

End Blocks.

(** X12.  In a successful parse the records are, in order, what the header
    lines give, one record for each header line, and their triangles, taken
    together in order, are what the triangle lines give. *)
Theorem parsed_records_match_lines :
  forall (P : Platform) (path : str) (lines : list str)
         (result : list PolylineDump),
    parse_lines path lines = Ok result ->
    Forall2 (fun h d => _parse_polyline_header (Str.strip h) (index d)
                        = Ok (opened d))
            (filter is_header lines) result
    /\ len result = len (filter is_header lines)
    /\ map_result _parse_triangle_line (triangle_entries lines)
       = Ok (concat (map triangles result))
    /\ len (concat (map triangles result)) = len (filter is_entry lines).
Proof.
  intros P path lines result H.
  unfold parse_lines in H. apply bind_Ok in H as (st & H & Hr).
  cbv beta in Hr. injection Hr as <-.
  destruct (records_finish st) as [_ ->].
  destruct (for_each_records _ _ _ _ H) as (hs & tris & A & B & C & D).
  unfold records at 2 in A. unfold records at 2 in B. simpl in A, B.
  assert (F : Forall2 (fun h d => _parse_polyline_header (Str.strip h)
                                    (index d) = Ok (opened d))
                      (filter is_header lines) (records st)).
  { rewrite <- A in C. clear - C.
    remember (filter is_header lines) as hl. clear Heqhl.
    revert hl C. induction (records st) as [|d ds IH]; intros hl C.
    - inversion C. constructor.
    - simpl in C. inversion C as [|h d' hl' ds' Hd Hrest]; subst.
      constructor; [exact Hd | now apply IH]. }
  rewrite B. repeat split; auto.
  - unfold len. f_equal. symmetry. eapply Forall2_length, F.
  - unfold len. f_equal.
    rewrite (map_result_length _ _ _ D). apply triangle_entries_length.
Qed.

Lemma parsed_records_match_lines_witness :
  let lines :=
    [lit "=== dump ===";
     lit "Polyline: 3 points, width: 0.500, layer: LAYER:Cut";
     lit "  Triangle 0: [0.0, 0.0], [1.0, 0.0], [0.0, 1.0]";
     lit "";
     lit "Polyline: 7 points, width: 0.250, layer: B";
     lit "Total: 1"] in
  let result :=
    [{| index := 0; point_count := 3; width := 0.5;
        layer := lit "LAYER:Cut";
        triangles := [((0, 0), (1, 0), (0, 1))%float] |};
     {| index := 1; point_count := 7; width := 0.25;
        layer := lit "B"; triangles := [] |}] in
  Forall2 (fun h d => _parse_polyline_header (Str.strip h) (index d)
                      = Ok (opened d))
          (filter is_header lines) result
  /\ len result = len (filter is_header lines)
  /\ map_result _parse_triangle_line (triangle_entries lines)
     = Ok (concat (map triangles result))
  /\ len (concat (map triangles result)) = len (filter is_entry lines).
Proof.
  apply (parsed_records_match_lines cpython (lit "dump.txt")).
  vm_compute. reflexivity.
Defined.

Section Concatenation.
Context {P : Platform}.

Lemma header_shift (line : str) (i k : Z) :
  _parse_polyline_header line (k + i)
  = map_ok (shift_index k) (_parse_polyline_header line i).
Proof.
  unfold _parse_polyline_header.
  destruct (try_except _ _ _) as [[[pc w] l]|e]; reflexivity.
Qed.

Lemma after_records_finish (before : list PolylineDump) (st : parser_state) :
  finish_current (after_records before st)
  = after_records before (finish_current st).
Proof.
  destruct st as [done [c|]]; unfold finish_current, after_records;
    cbn [fst snd option_map]; [|reflexivity].
  now rewrite map_app, app_assoc.
Qed.

Lemma parse_line_after (path : str) (before : list PolylineDump)
      (st : parser_state) (raw_line : str) :
  snd st <> None \/ is_entry raw_line = false ->
  parse_line path (after_records before st) raw_line
  = map_ok (after_records before) (parse_line path st raw_line).
Proof.
  intros Hopen. unfold parse_line, is_entry in *.
  destruct (Str.strip raw_line) as [|c line]; [reflexivity|].
  destruct (Str.startswith (c :: line) POLYLINE_PREFIX).
  - rewrite after_records_finish.
    destruct (finish_current st) as [done cur]. cbn [after_records fst snd].
    replace (Z.of_nat (length (before ++ map (shift_index (len before)) done)))
      with (len before + Z.of_nat (length done))%Z
      by (unfold len; rewrite length_app, length_map; lia).
    rewrite header_shift.
    destruct (_parse_polyline_header (c :: line) (Z.of_nat (length done)));
      reflexivity.
  - destruct (Str.startswith (c :: line) TRIANGLE_PREFIX); [|reflexivity].
    destruct st as [done [cur|]]; cbn [after_records fst snd option_map].
    + destruct (_parse_triangle_line (c :: line)); reflexivity.
    + destruct Hopen as [H | H]; [now elim H | discriminate].
Qed.

Lemma parse_line_keeps_open (path : str) (st st' : parser_state)
      (raw_line : str) :
  snd st <> None -> parse_line path st raw_line = Ok st' -> snd st' <> None.
Proof.
  intros Hopen. unfold parse_line.
  destruct (Str.strip raw_line) as [|c line]; [now intros [= <-]|].
  destruct (Str.startswith (c :: line) POLYLINE_PREFIX).
  - intros H. apply bind_Ok in H as (d & _ & H). now injection H as <-.
  - destruct (Str.startswith (c :: line) TRIANGLE_PREFIX);
      [|now intros [= <-]].
    destruct (snd st); [|discriminate].
    intros H. apply bind_Ok in H as (t & _ & H). now injection H as <-.
Qed.

Lemma for_each_after (path : str) (before : list PolylineDump)
      (lines : list str) (st : parser_state) :
  snd st <> None ->
  for_each (parse_line path) lines (after_records before st)
  = map_ok (after_records before) (for_each (parse_line path) lines st).
Proof.
  revert st. induction lines as [|raw_line lines IH]; intros st Hopen;
    cbn [for_each]; [reflexivity|].
  rewrite parse_line_after by now left.
  destruct (parse_line path st raw_line) as [st'|e] eqn:E;
    cbn [bind map_ok]; [|reflexivity].
  apply IH. eapply parse_line_keeps_open; eauto.
Qed.

Lemma parse_header_line (path : str) (st : parser_state) (header : str) :
  is_header header = true ->
  parse_line path st header
  = parse_line path (finish_current st) header
  /\ forall st', parse_line path st header = Ok st' -> snd st' <> None.
Proof.
  unfold is_header, parse_line. intros H.
  destruct (Str.strip header) as [|c line]; [discriminate|].
  rewrite H. split.
  - destruct st as [done [cur|]]; reflexivity.
  - intros st' Hs. apply bind_Ok in Hs as (d & _ & Hs).
    now injection Hs as <-.
Qed.

End Concatenation.

(** X22.  Dumps concatenate: when the second part starts with a header,
    the lines of two parts one after the other parse to the records of the
    first part followed by the records of the second, their indices moved
    up by the number of records of the first; the parse fails when one of
    the two fails, with the error of the first that does. *)
Theorem concatenated_dumps_concatenate :
  forall (P : Platform) (path : str) (first : list str) (header : str)
         (rest : list str),
    is_header header = true ->
    parse_lines path (first ++ header :: rest)
    = (records_a <- parse_lines path first ;;
       records_b <- parse_lines path (header :: rest) ;;
       Ok (records_a ++ map (shift_index (len records_a)) records_b)).
Proof.
  intros P path first header rest Hh.
  unfold parse_lines. rewrite for_each_app.
  destruct (for_each (parse_line path) first ([], None)) as [st|e];
    cbn [bind for_each]; [|reflexivity].
  destruct (parse_header_line path st header Hh) as [E1 _].
  destruct (parse_header_line path ([], None) header Hh) as [_ Hopen].
  rewrite E1.
  destruct (records_finish st) as [_ Hf].
  assert (Hst : finish_current st
                = after_records (fst (finish_current st)) ([], None)).
  { destruct st as [done [c|]]; unfold finish_current, after_records;
      cbn [fst snd map option_map]; now rewrite app_nil_r. }
  rewrite Hst at 1. rewrite parse_line_after by (right; unfold is_entry;
    unfold is_header in Hh; now apply prefixes_disjoint).
  destruct (parse_line path ([], None) header) as [st1|e] eqn:E;
    cbn [bind map_ok]; [|reflexivity].
  rewrite for_each_after by (now apply Hopen).
  destruct (for_each (parse_line path) rest st1) as [st2|e];
    cbn [bind map_ok]; [|reflexivity].
  now rewrite after_records_finish.
Qed.

Lemma concatenated_dumps_concatenate_witness :
  parse_lines (lit "dump.txt")
    ([lit "Polyline: 3 points, width: 0.500, layer: A";
      lit "Triangle 0: [0.0, 0.0], [1.0, 0.0], [0.0, 1.0]"]
       ++ lit "Polyline: 7 points, width: 0.250, layer: B"
       :: [lit "Triangle 0: [0.0, 0.0], [2.0, 0.0], [0.0, 2.0]"])
  = (records_a <-
       parse_lines (lit "dump.txt")
         [lit "Polyline: 3 points, width: 0.500, layer: A";
          lit "Triangle 0: [0.0, 0.0], [1.0, 0.0], [0.0, 1.0]"] ;;
     records_b <-
       parse_lines (lit "dump.txt")
         (lit "Polyline: 7 points, width: 0.250, layer: B"
          :: [lit "Triangle 0: [0.0, 0.0], [2.0, 0.0], [0.0, 2.0]"]) ;;
     Ok (records_a ++ map (shift_index (len records_a)) records_b)).
Proof.
  apply (concatenated_dumps_concatenate cpython).
  reflexivity.
Defined.

Section HeaderFields.
Context {P : Platform}.

Lemma getitem_0 {A : Type} (l : list A) (x : A) :
  getitem l 0 = Ok x <-> exists rest, l = x :: rest.
Proof.
  unfold getitem. cbn [Z.ltb Z.compare].
  destruct l as [|y l]; cbn [length]; [split; [discriminate|]|].
  - intros (rest & H). discriminate.
  - replace ((0 <=? 0) && (0 <? Z.of_nat (S (length l))))%Z with true
      by (symmetry; apply andb_true_intro; split;
          [reflexivity | apply Z.ltb_lt; lia]).
    cbn. split.
    + intros [= ->]. now exists l.
    + intros (rest & [= -> _]). reflexivity.
Qed.

Lemma getitem_1 {A : Type} (l : list A) (x : A) :
  getitem l 1 = Ok x <-> exists first rest, l = first :: x :: rest.
Proof.
  unfold getitem. cbn [Z.ltb Z.compare].
  destruct l as [|y [|z l]]; cbn [length].
  - split; [discriminate|]. intros (f & r & H). discriminate.
  - split; [discriminate|]. intros (f & r & H). discriminate.
  - replace ((0 <=? 1) && (1 <? Z.of_nat (S (S (length l)))))%Z with true
      by (symmetry; apply andb_true_intro; split;
          [reflexivity | apply Z.ltb_lt; lia]).
    cbn. split.
    + intros [= ->]. now exists y, l.
    + intros (f & r & [= _ -> _]). reflexivity.
Qed.

Lemma unpack3_iff {A : Type} (l : list A) (a b c : A) :
  unpack3 l = Ok (a, b, c) <-> l = [a; b; c].
Proof.
  split; [apply unpack3_Ok | now intros ->].
Qed.

Lemma of_option_iff {A : Type} (e : exn) (o : option A) (a : A) :
  of_option e o = Ok a <-> o = Some a.
Proof.
  destruct o; simpl; split; congruence.
Qed.

Lemma header_fields_Ok (line : str) (pc : Z) (w : float) (l : str) :
  header_fields line = Ok (pc, w, l) <->
  exists point_part width_part layer_part token tokens
         width_key width_text width_rest layer_key layer_text layer_rest,
    map Str.strip
        (Str.split (Str.strip (Str.drop (length POLYLINE_PREFIX) line))
                   (lit ","))
    = [point_part; width_part; layer_part]
    /\ Str.words point_part = token :: tokens
    /\ int_of_str token = Some pc
    /\ Str.split_max width_part (lit ":") 1
       = width_key :: width_text :: width_rest
    /\ float_of_str width_text = Some w
    /\ Str.split_max layer_part (lit ":") 1
       = layer_key :: layer_text :: layer_rest
    /\ l = Str.strip layer_text.
Proof.
  unfold header_fields. split.
  - intros H.
    apply bind_Ok in H as ([[pp wp] lp] & Hu & H).
    apply bind_Ok in H as (token & Ht & H).
    apply bind_Ok in H as (pc' & Hpc & H).
    apply bind_Ok in H as (wt & Hw & H).
    apply bind_Ok in H as (w' & Hf & H).
    apply bind_Ok in H as (lt & Hl & H).
    injection H as <- <- <-.
    apply unpack3_iff in Hu. apply getitem_0 in Ht as (tokens & Ht).
    apply of_option_iff in Hpc, Hf.
    apply getitem_1 in Hw as (wk & wr & Hw).
    apply getitem_1 in Hl as (lk & lr & Hl).
    exists pp, wp, lp, token, tokens, wk, wt, wr, lk, lt, lr. auto 10.
  - intros (pp & wp & lp & token & tokens & wk & wt & wr & lk & lt & lr
            & Hu & Ht & Hpc & Hw & Hf & Hl & ->).
    rewrite Hu. cbn [unpack3 bind]. rewrite Ht.
    rewrite (proj2 (getitem_0 _ _)) by eauto. cbn [bind].
    rewrite Hpc. cbn [of_option bind]. rewrite Hw.
    rewrite (proj2 (getitem_1 _ _)) by eauto. cbn [bind].
    rewrite Hf. cbn [of_option bind]. rewrite Hl.
    rewrite (proj2 (getitem_1 _ _)) by eauto. reflexivity.
Qed.

End HeaderFields.

(** X23.  What a header has to hold, and what is read from it.  The text
    after "Polyline:" must split at its commas into exactly three parts;
    the point count is the first word of the first part, read by [int()];
    the width is what follows the first colon of the second part, read by
    [float()]; the layer is what follows the first colon of the third part,
    stripped, colons included.  The words "points", "width" and "layer" are
    not looked at.  Every other header is rejected with the [ParseError]
    that quotes it. *)
Theorem header_parses_iff_three_fields :
  forall (P : Platform) (line : str) (position : Z),
    (forall d : PolylineDump,
        _parse_polyline_header line position = Ok d <->
        exists point_part width_part layer_part token tokens
               width_key width_text width_rest
               layer_key layer_text layer_rest,
          map Str.strip
              (Str.split (Str.strip (Str.drop (length POLYLINE_PREFIX) line))
                         (lit ","))
          = [point_part; width_part; layer_part]
          /\ Str.words point_part = token :: tokens
          /\ int_of_str token = Some (point_count d)
          /\ Str.split_max width_part (lit ":") 1
             = width_key :: width_text :: width_rest
          /\ float_of_str width_text = Some (width d)
          /\ Str.split_max layer_part (lit ":") 1
             = layer_key :: layer_text :: layer_rest
          /\ layer d = Str.strip layer_text
          /\ index d = position
          /\ triangles d = [])
    /\ ((exists d, _parse_polyline_header line position = Ok d)
        \/ _parse_polyline_header line position = Raise (header_error line)).
Proof.
  intros P line position. split.
  - intros d. unfold _parse_polyline_header. split.
    + intros H. apply bind_Ok in H as ([[pc w] l] & Hf & H).
      apply try_except_Ok in Hf. apply header_fields_Ok in Hf.
      injection H as <-. cbn [point_count width layer triangles].
      destruct Hf as (pp & wp & lp & token & tokens & wk & wt & wr
                      & lk & lt & lr & Hf).
      exists pp, wp, lp, token, tokens, wk, wt, wr, lk, lt, lr.
      repeat split; try apply Hf.
    + intros (pp & wp & lp & token & tokens & wk & wt & wr & lk & lt & lr
              & Hu & Ht & Hpc & Hw & Hf & Hl & Hly & Hi & Htr).
      assert (E : header_fields line = Ok (point_count d, width d, layer d)).
      { apply header_fields_Ok.
        exists pp, wp, lp, token, tokens, wk, wt, wr, lk, lt, lr. auto 10. }
      rewrite E. cbn [try_except bind]. destruct d. cbn in *. now subst.
  - destruct (_parse_polyline_header line position) as [d|e] eqn:E;
      [left; eauto|right].
    now rewrite (parse_polyline_header_Raise _ _ _ E).
Qed.

Example header_keywords_are_not_checked :
  _parse_polyline_header (lit "Polyline: 10 pts, w: 0.4, l: LAYER:User.1") 0
  = Ok {| index := 0; point_count := 10; width := 0.4;
          layer := lit "LAYER:User.1"; triangles := [] |}.
Proof.
  vm_compute. reflexivity.
Qed.
(** ** The decoder *)

Section DecoderFacts.
Context {P : Platform}.

Lemma utf8_go_ascii (bs : list N) :
  Forall (fun b => (b < 128)%N) bs -> Codec.utf8_go bs = Some bs.
Proof.
  induction 1 as [|b bs Hb _ IH]; [reflexivity|].
  cbn [Codec.utf8_go]. apply N.ltb_lt in Hb. now rewrite Hb, IH.
Qed.

Lemma iter_lines_utf8 (path : str) (raw : Codec.bytes) (text : str) :
  Codec.utf8 raw = Some text ->
  _iter_lines path raw = Ok (Str.splitlines text).
Proof.
  intros H. unfold _iter_lines, encodings. cbn [first_decoding].
  now rewrite H.
Qed.

Lemma units_length (little : bool) (bs : list N) :
  Codec.units little bs = None <-> Nat.Odd (length bs).
Proof.
  assert (G : forall n bs, (length bs < n)%nat ->
                           (Codec.units little bs = None
                            <-> Nat.Odd (length bs))).
  { clear bs. induction n as [|n IH]; intros bs Hn; [lia|].
    destruct bs as [|b0 [|b1 r]].
    - simpl. split; [discriminate|]. intros [k Hk]. lia.
    - simpl. split; [|reflexivity]. intros _. now exists 0%nat.
    - cbn [Codec.units]. simpl length in *.
      specialize (IH r ltac:(lia)).
      destruct (Codec.units little r) as [us|]; simpl.
      + split; [discriminate|]. intros [k Hk].
        assert (Ho : Nat.Odd (length r)) by (exists (k - 1)%nat; lia).
        apply IH in Ho. discriminate.
      + split; [|reflexivity]. intros _.
        destruct (proj1 IH eq_refl) as [k Hk]. exists (S k). lia. }
  apply (G (S (length bs))). lia.
Qed.

Lemma join_surrogates_plain (us : list N) :
  Forall (fun u => Codec.between 55296 u 57343 = false) us ->
  Codec.join_surrogates us = Some us.
Proof.
  induction 1 as [|u us Hu _ IH]; [reflexivity|].
  cbn [Codec.join_surrogates]. now rewrite Hu, IH.
Qed.

Lemma utf16_go_bom (bs : list N) :
  Codec.utf16_go true bs = None ->
  Codec.utf16_go true (255 :: 254 :: bs)%N = None.
Proof.
  unfold Codec.utf16_go. cbn [Codec.units].
  destruct (Codec.units true bs) as [us|]; [|reflexivity].
  intros H. cbn [option_map].
  change (255 + 256 * 254)%N with 65279%N.
  cbn [Codec.join_surrogates].
  change (Codec.between 55296 65279 57343) with false.
  cbv iota. now rewrite H.
Qed.

End DecoderFacts.

(** X13.  A buffer of ASCII bytes is read byte for byte: its lines are
    the lines of the text with the same codes, and the dump is parsed from
    them. *)
Theorem ascii_buffer_is_read_as_is :
  forall (P : Platform) (path : str) (raw : Codec.bytes),
    Forall (fun b => (Codec.code b < 128)%N) raw ->
    _iter_lines path raw = Ok (Str.splitlines (map Codec.code raw))
    /\ parse_log path raw
       = parse_lines path (Str.splitlines (map Codec.code raw)).
Proof.
  intros P path raw H.
  assert (E : _iter_lines path raw
              = Ok (Str.splitlines (map Codec.code raw))).
  { apply iter_lines_utf8. unfold Codec.utf8. apply utf8_go_ascii.
    now apply Forall_map. }
  split; [exact E|]. unfold parse_log. now rewrite E.
Qed.

Lemma ascii_buffer_is_read_as_is_witness :
  _iter_lines (lit "dump.txt") [x41; x0a; x42]
  = Ok (Str.splitlines (map Codec.code [x41; x0a; x42]))
  /\ parse_log (lit "dump.txt") [x41; x0a; x42]
     = parse_lines (lit "dump.txt")
                   (Str.splitlines (map Codec.code [x41; x0a; x42])).
Proof.
  apply (ascii_buffer_is_read_as_is cpython).
  repeat constructor.
Defined.

(** X14.  A buffer that starts with the little-endian byte-order mark
    FF FE, as PowerShell writes them, is read as the UTF-16 little-endian
    text that follows the mark, on every platform; when that text is
    malformed the buffer is rejected with the [ParseError] of the
    decoder. *)
Theorem little_endian_mark_selects_utf16 :
  forall (P : Platform) (path : str) (rest : Codec.bytes),
    _iter_lines path (xff :: xfe :: rest)
    = match Codec.utf16_le rest with
      | Some text => Ok (Str.splitlines text)
      | None => Raise (decode_error path)
      end.
Proof.
  intros P path rest.
  destruct (utf16_bom_not_utf8 (xff :: xfe :: rest) rest (or_introl eq_refl))
    as [H8 Hsig].
  unfold _iter_lines, encodings. cbn [first_decoding].
  rewrite H8, Hsig.
  assert (E : Codec.utf16 sys_little_endian (xff :: xfe :: rest)
              = Codec.utf16_le rest) by reflexivity.
  rewrite E. destruct (Codec.utf16_le rest) as [text|] eqn:E16;
    [reflexivity|].
  unfold Codec.utf16_le in *. cbn [map].
  change (Codec.code xff) with 255%N. change (Codec.code xfe) with 254%N.
  now rewrite (utf16_go_bom _ E16).
Qed.

(** X15.  What the decoder accepts and rejects beyond UTF-8: a buffer of
    even length whose little-endian 16-bit units hold no surrogate is
    always decoded, whatever its bytes are; a buffer of odd length that is
    not UTF-8 is always rejected. *)
Theorem decoder_accepts_even_rejects_odd :
  forall (P : Platform) (path : str) (raw : Codec.bytes),
    (forall us,
        Codec.units true (map Codec.code raw) = Some us ->
        Forall (fun u => Codec.between 55296 u 57343 = false) us ->
        exists lines, _iter_lines path raw = Ok lines)
    /\ (Nat.Odd (length raw) -> Codec.utf8 raw = None ->
        _iter_lines path raw = Raise (decode_error path)).
Proof.
  intros P path raw. split.
  - intros us Hu Hs. unfold _iter_lines.
    assert (E : Codec.utf16_le raw = Some us).
    { unfold Codec.utf16_le, Codec.utf16_go. rewrite Hu.
      now apply join_surrogates_plain. }
    unfold encodings. cbn [first_decoding].
    destruct (Codec.utf8 raw); [eauto|].
    destruct (Codec.utf8_sig raw); [eauto|].
    destruct (Codec.utf16 sys_little_endian raw); [eauto|].
    rewrite E. eauto.
  - intros Hodd H8.
    assert (Hsig : Codec.utf8_sig raw = None).
    { destruct (Codec.utf8_sig raw) as [t|] eqn:E; [|reflexivity].
      destruct (utf8_sig_implies_utf8 _ _ E) as (t' & Ht').
      congruence. }
    assert (Hany : forall little, Codec.utf16_go little (map Codec.code raw)
                                  = None).
    { intros little. unfold Codec.utf16_go.
      replace (Codec.units little (map Codec.code raw)) with (@None (list N));
        [reflexivity|].
      symmetry. apply units_length. now rewrite length_map. }
    assert (H16 : forall native, Codec.utf16 native raw = None).
    { intros native. unfold Codec.utf16.
      destruct (map Codec.code raw) as [|b0 [|b1 r]] eqn:Er.
      - apply Hany.
      - apply Hany.
      - assert (Hr : forall little, Codec.utf16_go little r = None).
        { intros little. unfold Codec.utf16_go.
          replace (Codec.units little r) with (@None (list N));
            [reflexivity|].
          symmetry. apply units_length.
          apply (f_equal (@length N)) in Er. rewrite length_map in Er.
          simpl in Er. destruct Hodd as [k Hk].
          exists (k - 1)%nat. lia. }
        rewrite !Hr, Hany. now repeat destruct (_ && _)%bool. }
    unfold _iter_lines, encodings. cbn [first_decoding].
    rewrite H8, Hsig, H16. unfold Codec.utf16_le. now rewrite Hany.
Qed.

Lemma decoder_accepts_even_rejects_odd_witness :
  (exists lines, _iter_lines (lit "dump.txt") [xff; x00] = Ok lines)
  /\ _iter_lines (lit "dump.txt") [xff] = Raise (decode_error (lit "dump.txt")).
Proof.
  split.
  - apply (proj1 (decoder_accepts_even_rejects_odd cpython (lit "dump.txt")
                    [xff; x00]) [255%N]); [reflexivity|].
    repeat constructor.
  - apply (proj2 (decoder_accepts_even_rejects_odd cpython (lit "dump.txt")
                    [xff])); [|reflexivity].
    exists 0%nat. reflexivity.
Defined.

Section Widening.
Context {P : Platform}.

Lemma utf16_go_ascii (little : bool) (raw : Codec.bytes) :
  Forall (fun b => (Codec.code b < 128)%N) raw ->
  Codec.utf16_go little
    (map Codec.code (if little then utf16le_of raw else utf16be_of raw))
  = Some (map Codec.code raw).
Proof.
  intros H. unfold Codec.utf16_go.
  assert (U : Codec.units little
                (map Codec.code
                     (if little then utf16le_of raw else utf16be_of raw))
              = Some (map Codec.code raw)).
  { clear H. induction raw as [|b raw IH]; [now destruct little|].
    destruct little; unfold utf16le_of, utf16be_of in *;
      cbn [flat_map app map Codec.units]; rewrite IH; cbn [option_map];
      change (Codec.code x00) with 0%N; do 2 f_equal; lia. }
  rewrite U. apply join_surrogates_plain.
  apply Forall_map. eapply Forall_impl; [|exact H].
  intros b Hb. cbv beta in Hb. unfold Codec.between.
  destruct (N.leb_spec 55296 (Codec.code b)); [lia | reflexivity].
Qed.

End Widening.

(** X29.  The encoding does not show: an ASCII dump written as UTF-16
    with a byte-order mark, little-endian or big-endian, gives the lines
    of the same dump written as ASCII, and parses to the same records, on
    every platform. *)
Theorem marked_utf16_reads_as_ascii :
  forall (P : Platform) (path : str) (raw : Codec.bytes),
    Forall (fun b => (Codec.code b < 128)%N) raw ->
    _iter_lines path (xff :: xfe :: utf16le_of raw) = _iter_lines path raw
    /\ _iter_lines path (xfe :: xff :: utf16be_of raw) = _iter_lines path raw
    /\ parse_log path (xff :: xfe :: utf16le_of raw) = parse_log path raw
    /\ parse_log path (xfe :: xff :: utf16be_of raw) = parse_log path raw.
Proof.
  intros P path raw H.
  assert (A : _iter_lines path raw
              = Ok (Str.splitlines (map Codec.code raw))).
  { apply iter_lines_utf8. unfold Codec.utf8. apply utf8_go_ascii.
    now apply Forall_map. }
  assert (L : _iter_lines path (xff :: xfe :: utf16le_of raw)
              = _iter_lines path raw).
  { destruct (utf16_bom_not_utf8 (xff :: xfe :: utf16le_of raw) _
                (or_introl eq_refl)) as [H8 Hsig].
    rewrite A. unfold _iter_lines, encodings. cbn [first_decoding].
    rewrite H8, Hsig.
    change (Codec.utf16 sys_little_endian (xff :: xfe :: utf16le_of raw))
      with (Codec.utf16_go true (map Codec.code (utf16le_of raw))).
    now rewrite (utf16_go_ascii true raw H). }
  assert (B : _iter_lines path (xfe :: xff :: utf16be_of raw)
              = _iter_lines path raw).
  { destruct (utf16_bom_not_utf8 (xfe :: xff :: utf16be_of raw) _
                (or_intror eq_refl)) as [H8 Hsig].
    rewrite A. unfold _iter_lines, encodings. cbn [first_decoding].
    rewrite H8, Hsig.
    change (Codec.utf16 sys_little_endian (xfe :: xff :: utf16be_of raw))
      with (Codec.utf16_go false (map Codec.code (utf16be_of raw))).
    now rewrite (utf16_go_ascii false raw H). }
  unfold parse_log. rewrite L, B. auto.
Qed.

Lemma marked_utf16_reads_as_ascii_witness :
  _iter_lines (lit "dump.txt") (xff :: xfe :: utf16le_of [x41; x0a; x42])
  = _iter_lines (lit "dump.txt") [x41; x0a; x42]
  /\ _iter_lines (lit "dump.txt") (xfe :: xff :: utf16be_of [x41; x0a; x42])
     = _iter_lines (lit "dump.txt") [x41; x0a; x42]
  /\ parse_log (lit "dump.txt") (xff :: xfe :: utf16le_of [x41; x0a; x42])
     = parse_log (lit "dump.txt") [x41; x0a; x42]
  /\ parse_log (lit "dump.txt") (xfe :: xff :: utf16be_of [x41; x0a; x42])
     = parse_log (lit "dump.txt") [x41; x0a; x42].
Proof.
  apply (marked_utf16_reads_as_ascii cpython).
  repeat constructor.
Defined.
(** ** The comparator and the metrics *)

Section MoreFloatFacts.

Local Open Scope float_scope.

Lemma SFabs_binary_round (s : bool) (m : positive) (e : Z) :
  SFabs (binary_round prec emax s m e)
  = SFabs (binary_round prec emax (negb s) m e).
Proof.
  unfold binary_round.
  destruct (shl_align m e _) as [mz ez].
  unfold binary_round_aux.
  destruct (shr_fexp prec emax (Z.pos mz) ez loc_Exact) as [mrs' e'].
  destruct (shr_fexp prec emax _ e' loc_Exact) as [mrs'' e''].
  destruct (shr_m mrs''); [reflexivity| |reflexivity].
  now destruct (e'' <=? emax - prec)%Z.
Qed.

Lemma SFabs_normalize_opp (m e : Z) :
  SFabs (binary_normalize prec emax (- m) e false)
  = SFabs (binary_normalize prec emax m e false).
Proof.
  destruct m as [|p|p]; [reflexivity| |]; unfold binary_normalize; simpl Z.opp.
  - apply (SFabs_binary_round true).
  - apply (SFabs_binary_round false).
Qed.

Lemma SFabs_sub_comm (x y : spec_float) :
  SFabs (SFsub prec emax x y) = SFabs (SFsub prec emax y x).
Proof.
  destruct x as [sx|sx| |sx mx ex], y as [sy|sy| |sy my ey];
    try reflexivity;
    try (destruct sx, sy; reflexivity).
  unfold SFsub. rewrite (Z.min_comm ey ex).
  set (ez := Z.min ex ey).
  set (A := cond_Zopp sx (Z.pos (fst (shl_align mx ex ez)))).
  set (B := cond_Zopp sy (Z.pos (fst (shl_align my ey ez)))).
  replace (B - A)%Z with (- (A - B))%Z by lia.
  symmetry. apply SFabs_normalize_opp.
Qed.

Lemma abs_sub_comm (x y : float) : abs (x - y) = abs (y - x).
Proof.
  apply Prim2SF_inj. rewrite !abs_spec, !sub_spec. apply SFabs_sub_comm.
Qed.

Lemma cond_Zopp_diag (s : bool) (m : Z) : (cond_Zopp s m - cond_Zopp s m = 0)%Z.
Proof. lia. Qed.

(** [x - x] is [+0] for a finite [x] and a NaN otherwise. *)
Lemma abs_sub_diag (x : float) : abs (x - x) = 0 \/ abs (x - x) = nan.
Proof.
  assert (H : SFabs (SFsub prec emax (Prim2SF x) (Prim2SF x)) = S754_zero false
              \/ SFabs (SFsub prec emax (Prim2SF x) (Prim2SF x)) = S754_nan).
  { destruct (Prim2SF x) as [s|s| |s m e].
    - left. now destruct s.
    - right. now destruct s.
    - now right.
    - left. unfold SFsub. now rewrite cond_Zopp_diag. }
  destruct H as [H | H]; [left | right];
    apply Prim2SF_inj; rewrite abs_spec, sub_spec; exact H.
Qed.

Lemma abs_sub_nan (x : float) : abs (x - nan) = nan.
Proof.
  apply Prim2SF_inj. rewrite abs_spec, sub_spec.
  change (Prim2SF nan) with S754_nan.
  unfold SF64sub, SFsub. now destruct (Prim2SF x).
Qed.

Lemma ltb_nan_r (x : float) : (x <? nan) = false.
Proof.
  rewrite ltb_spec. change (Prim2SF nan) with S754_nan.
  unfold SFltb. now rewrite (proj2 (SFcompare_None _ _) (or_intror eq_refl)).
Qed.

(** [max(m, nan)] is [m]: a NaN in second place never wins. *)
Lemma py_max_nan (m : float) : py_max m nan = m.
Proof. unfold py_max. now rewrite ltb_nan_r. Qed.

Lemma leb_zero_spec (x : float) : (0 <=? x) = SFnonneg (Prim2SF x).
Proof.
  rewrite leb_spec. change (Prim2SF 0) with (S754_zero false).
  unfold SFleb. destruct (Prim2SF x) as [s|s| |s m e]; try reflexivity;
    now destruct s.
Qed.

Lemma ltb_zero_spec (x : float) :
  (x <? 0) = match Prim2SF x with
             | S754_infinity s | S754_finite s _ _ => s
             | _ => false
             end.
Proof.
  rewrite ltb_spec. change (Prim2SF 0) with (S754_zero false).
  unfold SFltb. destruct (Prim2SF x) as [s|s| |s m e]; try reflexivity;
    now destruct s.
Qed.

Lemma SFltb_nonneg (x y : spec_float) :
  SFltb x y = true -> SFnonneg x = true -> SFnonneg y = true.
Proof.
  unfold SFltb.
  destruct x as [sx|sx| |sx mx ex], y as [sy|sy| |sy my ey]; simpl;
    try discriminate; try reflexivity;
    destruct sx, sy; simpl; try discriminate; try reflexivity.
Qed.

Lemma py_max_nonneg (m h : float) :
  (0 <=? m) = true -> (0 <=? py_max m h) = true.
Proof.
  unfold py_max. destruct (m <? h) eqn:E; [|auto].
  rewrite !leb_zero_spec. rewrite ltb_spec in E. now apply SFltb_nonneg.
Qed.

Lemma SFmul_half_abs (x : spec_float) :
  match SFmul prec emax (Prim2SF 0.5) (SFabs x) with
  | S754_infinity s | S754_finite s _ _ => s
  | _ => false
  end = false.
Proof.
  change (Prim2SF 0.5) with (S754_finite false 4503599627370496 (-53)).
  destruct x as [s|s| |s m e]; try reflexivity.
  unfold SFabs, SFmul, xorb, binary_round_aux.
  destruct (shr_fexp prec emax _ _ loc_Exact) as [mrs' e'].
  destruct (shr_fexp prec emax _ e' loc_Exact) as [mrs'' e''].
  destruct (shr_m mrs''); [reflexivity| |reflexivity].
  now destruct (e'' <=? emax - prec)%Z.
Qed.

Lemma half_abs_not_negative (v : float) : (0.5 * abs v <? 0) = false.
Proof.
  rewrite ltb_zero_spec, mul_spec, abs_spec. apply SFmul_half_abs.
Qed.

End MoreFloatFacts.

Section Symmetry.
Context {P : Platform}.
Local Open Scope float_scope.

Lemma delta_step_swap (acc : float * float) (va vb : Point) :
  delta_step acc (va, vb) = delta_step acc (vb, va).
Proof.
  destruct acc as [mv mc]. unfold delta_step.
  now rewrite (abs_sub_comm (fst va)), (abs_sub_comm (snd va)).
Qed.

Lemma triangle_delta_swap (a b : Triangle) :
  _triangle_delta a b = _triangle_delta b a.
Proof.
  destruct a as [[a0 a1] a2], b as [[b0 b1] b2].
  unfold _triangle_delta, vertices. cbn [combine fold_left].
  now rewrite !(delta_step_swap _ a0), !(delta_step_swap _ a1),
    !(delta_step_swap _ a2).
Qed.

Lemma comparison_range_swap (reference candidate : PolylineDump)
      (max_triangles : option Z) :
  comparison_range candidate reference max_triangles
  = comparison_range reference candidate max_triangles.
Proof. unfold comparison_range. destruct max_triangles; lia. Qed.

Lemma compare_at_swap (reference candidate : PolylineDump)
      (tolerance : float) (acc : list TriangleDiff) (idx : Z) :
  compare_at candidate reference tolerance (map swap_diff acc) idx
  = map_ok (map swap_diff)
           (compare_at reference candidate tolerance acc idx).
Proof.
  unfold compare_at.
  destruct (getitem (triangles reference) idx) as [ta|ea] eqn:Ea;
    destruct (getitem (triangles candidate) idx) as [tb|eb] eqn:Eb;
    cbn [bind map_ok];
    try (apply getitem_Raise in Ea; subst ea);
    try (apply getitem_Raise in Eb; subst eb); try reflexivity.
  rewrite (triangle_delta_swap tb ta).
  destruct (_triangle_delta ta tb) as [mv mc].
  destruct (mv <=? tolerance); [reflexivity|].
  destruct (triangle_metrics ta) as [ma|e1] eqn:E1;
    destruct (triangle_metrics tb) as [mb|e2] eqn:E2;
    cbn [bind map_ok]; try reflexivity.
  - now rewrite map_app.
  - apply triangle_metrics_raises in E1, E2. now subst.
Qed.

Lemma compare_loop_swap (reference candidate : PolylineDump)
      (tolerance : float) (idxs : list Z) (acc : list TriangleDiff) :
  for_each (compare_at candidate reference tolerance) idxs
           (map swap_diff acc)
  = map_ok (map swap_diff)
           (for_each (compare_at reference candidate tolerance) idxs acc).
Proof.
  revert acc. induction idxs as [|idx idxs IH]; intros acc;
    cbn [for_each]; [reflexivity|].
  rewrite compare_at_swap.
  destruct (compare_at reference candidate tolerance acc idx) as [acc'|e];
    cbn [bind map_ok]; [apply IH | reflexivity].
Qed.

End Symmetry.

(** X16.  The comparison is symmetric: with reference and candidate
    exchanged the comparator reports the same indices with the same
    deltas, the fields of the two sides exchanged, and it fails on the same
    inputs with the same exception. *)
Theorem comparison_is_symmetric :
  forall (P : Platform) (reference candidate : PolylineDump)
         (tolerance : float) (max_triangles : option Z),
    compare_polylines candidate reference tolerance max_triangles
    = map_ok (map swap_diff)
             (compare_polylines reference candidate tolerance max_triangles)
    /\ forall a b : Triangle, _triangle_delta b a = _triangle_delta a b.
Proof.
  intros P reference candidate tolerance max_triangles. split.
  - unfold compare_polylines. rewrite comparison_range_swap.
    apply (compare_loop_swap reference candidate tolerance _ []).
  - intros a b. apply triangle_delta_swap.
Qed.

Section Cap.
Context {P : Platform}.
Local Open Scope Z_scope.

Lemma compare_at_Ok (reference candidate : PolylineDump)
      (tolerance : float) (acc diffs : list TriangleDiff) (idx : Z) :
  compare_at reference candidate tolerance acc idx = Ok diffs ->
  diffs = acc \/ exists d, diffs = acc ++ [d] /\ triangle_index d = idx.
Proof.
  unfold compare_at. intros H.
  apply bind_Ok in H as (ta & _ & H). apply bind_Ok in H as (tb & _ & H).
  destruct (_triangle_delta ta tb) as [mv mc].
  destruct (mv <=? tolerance)%float.
  - left. now injection H as <-.
  - apply bind_Ok in H as (ma & _ & H). apply bind_Ok in H as (mb & _ & H).
    right. injection H as <-. eexists. split; reflexivity.
Qed.

Lemma compare_loop_Ok (reference candidate : PolylineDump)
      (tolerance : float) (idxs : list Z) (acc diffs : list TriangleDiff) :
  for_each (compare_at reference candidate tolerance) idxs acc = Ok diffs ->
  exists news,
    diffs = acc ++ news
    /\ Forall (fun d => In (triangle_index d) idxs) news.
Proof.
  revert acc. induction idxs as [|idx idxs IH]; intros acc H;
    cbn [for_each] in H.
  - injection H as <-. exists []. now rewrite app_nil_r.
  - apply bind_Ok in H as (acc' & H1 & H).
    destruct (IH _ H) as (news & -> & Hn).
    assert (Hn' : Forall (fun d => In (triangle_index d) (idx :: idxs)) news).
    { eapply Forall_impl; [|exact Hn]. intros d Hd. now right. }
    apply compare_at_Ok in H1 as [-> | (d & -> & Hd)].
    + now exists news.
    + exists (d :: news). rewrite <- app_assoc. split; [reflexivity|].
      constructor; [now left | exact Hn'].
Qed.

Lemma range_split (c n : Z) :
  0 <= c <= n ->
  exists tail, range n = range c ++ tail
               /\ Forall (fun i => c <= i < n) tail.
Proof.
  intros H. unfold range.
  replace (Z.to_nat n) with (Z.to_nat c + (Z.to_nat n - Z.to_nat c))%nat
    by lia.
  rewrite seq_app, map_app. eexists. split; [reflexivity|].
  apply Forall_forall. intros i Hi. apply in_map_iff in Hi as (k & <- & Hk).
  apply in_seq in Hk. lia.
Qed.

Lemma range_nonpositive (n : Z) : n <= 0 -> range n = [].
Proof.
  intros H. unfold range. now replace (Z.to_nat n) with 0%nat by lia.
Qed.

Lemma filter_all {A : Type} (f : A -> bool) (l : list A) :
  Forall (fun x => f x = true) l -> filter f l = l.
Proof.
  induction 1 as [|x l Hx _ IH]; simpl; [reflexivity|].
  now rewrite Hx, IH.
Qed.

Lemma filter_none {A : Type} (f : A -> bool) (l : list A) :
  Forall (fun x => f x = false) l -> filter f l = [].
Proof.
  induction 1 as [|x l Hx _ IH]; simpl; [reflexivity|].
  now rewrite Hx, IH.
Qed.

End Cap.

(** X17.  What [max_triangles] does: a cap of zero or less compares
    nothing, a cap of at least the shorter length changes nothing, and when
    the comparison without a cap succeeds the capped one returns the diffs
    of it whose index is below the cap. *)
Theorem cap_keeps_the_diffs_below_it :
  forall (P : Platform) (reference candidate : PolylineDump)
         (tolerance : float) (cap : Z),
    ((cap <= 0)%Z ->
     compare_polylines reference candidate tolerance (Some cap) = Ok [])
    /\ ((Z.min (len (triangles reference)) (len (triangles candidate))
         <= cap)%Z ->
        compare_polylines reference candidate tolerance (Some cap)
        = compare_polylines reference candidate tolerance None)
    /\ (forall diffs,
           compare_polylines reference candidate tolerance None = Ok diffs ->
           compare_polylines reference candidate tolerance (Some cap)
           = Ok (filter (fun d => (triangle_index d <? cap)%Z) diffs)).
Proof.
  intros P reference candidate tolerance cap.
  set (la := len (triangles reference)).
  set (lb := len (triangles candidate)).
  assert (Hla : (0 <= la)%Z) by (unfold la, len; lia).
  assert (Hlb : (0 <= lb)%Z) by (unfold lb, len; lia).
  assert (Hcap : comparison_range reference candidate (Some cap)
                 = Z.min cap (Z.min la lb))
    by (unfold comparison_range; fold la lb; lia).
  assert (Hnone : comparison_range reference candidate None = Z.min la lb)
    by (unfold comparison_range; fold la lb; lia).
  unfold compare_polylines. rewrite Hcap, Hnone. repeat split.
  - intros H. rewrite range_nonpositive by lia. reflexivity.
  - intros H. now replace (Z.min cap (Z.min la lb)) with (Z.min la lb) by lia.
  - intros diffs H.
    set (n := Z.min la lb) in *.
    set (c := Z.max 0 (Z.min cap n)).
    assert (Hc : range (Z.min cap n) = range c).
    { unfold range. f_equal. f_equal. lia. }
    rewrite Hc.
    destruct (range_split c n ltac:(lia)) as (tail & Hr & Htail).
    rewrite Hr, for_each_app in H.
    apply bind_Ok in H as (d1 & H1 & H2). rewrite H1. f_equal.
    apply compare_loop_Ok in H1 as (n1 & -> & Hn1).
    apply compare_loop_Ok in H2 as (n2 & -> & Hn2).
    cbn [app]. rewrite filter_app, filter_all, filter_none.
    + now rewrite app_nil_r.
    + eapply Forall_impl; [|exact Hn2]. intros d Hd. cbv beta in Hd.
      rewrite Forall_forall in Htail. apply Htail in Hd.
      apply Z.ltb_ge. lia.
    + eapply Forall_impl; [|exact Hn1]. intros d Hd. cbv beta in Hd.
      apply In_range in Hd. apply Z.ltb_lt. lia.
Qed.

Lemma cap_keeps_the_diffs_below_it_witness :
  compare_polylines (dump_of [unit_triangle; unit_triangle])
                    (dump_of [nudged_triangle; nudged_triangle]) 0.001
                    (Some 0%Z) = Ok []
  /\ compare_polylines (dump_of [unit_triangle; unit_triangle])
                       (dump_of [nudged_triangle; nudged_triangle]) 0.001
                       (Some 2%Z)
     = compare_polylines (dump_of [unit_triangle; unit_triangle])
                         (dump_of [nudged_triangle; nudged_triangle]) 0.001
                         None
  /\ compare_polylines (dump_of [unit_triangle; unit_triangle])
                       (dump_of [nudged_triangle; nudged_triangle]) 0.001
                       (Some 1%Z)
     = Ok (filter (fun d => (triangle_index d <? 1)%Z)
                  match compare_polylines
                          (dump_of [unit_triangle; unit_triangle])
                          (dump_of [nudged_triangle; nudged_triangle])
                          0.001 None with
                  | Ok diffs => diffs
                  | Raise _ => []
                  end).
Proof.
  destruct (cap_keeps_the_diffs_below_it cpython
              (dump_of [unit_triangle; unit_triangle])
              (dump_of [nudged_triangle; nudged_triangle]) 0.001 0)
    as (H0 & _ & _).
  destruct (cap_keeps_the_diffs_below_it cpython
              (dump_of [unit_triangle; unit_triangle])
              (dump_of [nudged_triangle; nudged_triangle]) 0.001 2)
    as (_ & H2 & _).
  destruct (cap_keeps_the_diffs_below_it cpython
              (dump_of [unit_triangle; unit_triangle])
              (dump_of [nudged_triangle; nudged_triangle]) 0.001 1)
    as (_ & _ & H1).
  split; [apply H0; lia|]. split; [apply H2; vm_compute; discriminate|].
  apply H1. vm_compute. reflexivity.
Defined.

Section Ignored.
Context {P : Platform}.
Local Open Scope float_scope.

Lemma ltb_not_number (a b : float) : is_number b = false -> (a <? b) = false.
Proof.
  intros H. destruct (a <? b) eqn:E; [|reflexivity].
  apply ltb_is_number in E as [_ E]. congruence.
Qed.

Lemma py_max_ignores (m h : float) :
  is_number h = false \/ h = 0 -> (0 <=? m) = true -> py_max m h = m.
Proof.
  intros [H | ->] Hm; unfold py_max.
  - now rewrite ltb_not_number.
  - destruct (m <? 0) eqn:E; [|reflexivity].
    rewrite leb_zero_spec in Hm. rewrite ltb_zero_spec in E.
    destruct (Prim2SF m) as [s|s| |s e]; simpl in *; try discriminate;
      subst; discriminate.
Qed.

Lemma fold_py_max_ignores (deltas : list float) :
  Forall (fun delta => is_number delta = false \/ delta = 0) deltas ->
  fold_left py_max deltas 0 = 0.
Proof.
  induction 1 as [|delta deltas H _ IH]; [reflexivity|].
  cbn [fold_left]. now rewrite (py_max_ignores 0 delta H eq_refl).
Qed.

Lemma not_reported (reference candidate : PolylineDump) (tolerance : float)
      (max_triangles : option Z) (idx : Z) (diffs : list TriangleDiff) :
  reported_at reference candidate tolerance idx = false ->
  compare_polylines reference candidate tolerance max_triangles = Ok diffs ->
  ~ exists d, In d diffs /\ triangle_index d = idx.
Proof.
  intros Hr H (d & Hin & Hd).
  destruct (compare_polylines_cases reference candidate tolerance
              max_triangles) as [(diffs' & H' & Hidx) | H']; [|congruence].
  assert (diffs' = diffs) by congruence. subst diffs'.
  assert (Hi : In idx (map triangle_index diffs))
    by (rewrite <- Hd; now apply in_map).
  rewrite Hidx in Hi. apply filter_In in Hi as [_ Hi]. congruence.
Qed.

Lemma vertex_deltas_nan (L : math_hypot nan nan = nan) (tri : Triangle) :
  Forall (fun delta => is_number delta = false \/ delta = 0)
         (vertex_deltas tri nan_triangle)
  /\ Forall (fun delta => is_number delta = false \/ delta = 0)
            (vertex_deltas nan_triangle tri).
Proof.
  destruct tri as [[a b] c]. unfold vertex_deltas, nan_triangle, nan_point.
  cbn [vertices combine map fst snd].
  rewrite !abs_sub_nan, !(abs_sub_comm nan), !abs_sub_nan, L.
  split; repeat constructor.
Qed.

Lemma vertex_deltas_diag (L : PlatformLaws P)
      (Lnan : math_hypot nan nan = nan) (tri : Triangle) :
  Forall (fun delta => is_number delta = false \/ delta = 0)
         (vertex_deltas tri tri).
Proof.
  assert (H : forall v : Point,
             is_number (math_hypot (abs (fst v - fst v))
                                   (abs (snd v - snd v))) = false
             \/ math_hypot (abs (fst v - fst v)) (abs (snd v - snd v)) = 0).
  { intros [x y]. cbn [fst snd].
    destruct (abs_sub_diag x) as [-> | ->], (abs_sub_diag y) as [-> | ->].
    - right. now rewrite hypot_zero_r.
    - left. now rewrite hypot_zero_l.
    - left. now rewrite hypot_zero_r.
    - left. now rewrite Lnan. }
  destruct tri as [[a b] c]. unfold vertex_deltas.
  cbn [vertices combine map].
  repeat (constructor; [apply H|]). constructor.
Qed.

End Ignored.

(** X18.  A vertex pair whose distance is a NaN weighs nothing:
    [max_vertex_delta] is the maximum of the distances that are numbers,
    so a pair of triangles all of whose vertex distances are NaN or zero is
    never reported, and on a platform where [hypot(nan, nan)] is a NaN a
    triangle whose coordinates are all NaN differs from no triangle. *)
Theorem nan_distances_are_never_reported :
  forall (P : Platform) (reference candidate : PolylineDump)
         (tolerance : float) (max_triangles : option Z)
         (idx : Z) (tri_a tri_b : Triangle),
    (0 <=? tolerance)%float = true ->
    aligned reference candidate idx = Some (tri_a, tri_b) ->
    Forall (fun delta => is_number delta = false \/ delta = 0%float)
           (vertex_deltas tri_a tri_b) ->
    fst (_triangle_delta tri_a tri_b) = 0%float
    /\ (forall diffs,
           compare_polylines reference candidate tolerance max_triangles
           = Ok diffs ->
           ~ exists d, In d diffs /\ triangle_index d = idx)
    /\ (math_hypot nan nan = nan ->
        forall tri : Triangle,
          fst (_triangle_delta tri nan_triangle) = 0%float
          /\ fst (_triangle_delta nan_triangle tri) = 0%float).
Proof.
  intros P reference candidate tolerance max_triangles idx tri_a tri_b
         Htol Hal Hd.
  assert (E : fst (_triangle_delta tri_a tri_b) = 0%float).
  { rewrite triangle_delta_fold. now apply fold_py_max_ignores. }
  split; [exact E|]. split.
  - intros diffs H. eapply not_reported; [|exact H].
    unfold reported_at. now rewrite Hal, E, Htol.
  - intros L tri. destruct (vertex_deltas_nan L tri) as [H1 H2].
    rewrite !triangle_delta_fold. split; now apply fold_py_max_ignores.
Qed.

Lemma nan_distances_are_never_reported_witness :
  fst (_triangle_delta unit_triangle nan_triangle) = 0%float
  /\ (forall diffs,
         compare_polylines (dump_of [unit_triangle]) (dump_of [nan_triangle])
                           0.001 None = Ok diffs ->
         ~ exists d, In d diffs /\ triangle_index d = 0%Z)
  /\ (math_hypot nan nan = nan ->
      forall tri : Triangle,
        fst (_triangle_delta tri nan_triangle) = 0%float
        /\ fst (_triangle_delta nan_triangle tri) = 0%float).
Proof.
  apply (nan_distances_are_never_reported cpython
           (dump_of [unit_triangle]) (dump_of [nan_triangle]) 0.001 None 0
           unit_triangle nan_triangle).
  - reflexivity.
  - reflexivity.
  - vm_compute. repeat constructor.
Defined.

(** X19.  On a platform that obeys [PlatformLaws] and where
    [hypot(nan, nan)] is a NaN, a polyline compared with itself gives no
    diff, for every tolerance that is not negative and every cap, whatever
    its coordinates are: no triangle is reported, and the metrics, which
    may fail, are never computed. *)
Theorem self_comparison_is_empty :
  forall (P : Platform), PlatformLaws P -> math_hypot nan nan = nan ->
  forall (poly : PolylineDump) (tolerance : float) (max_triangles : option Z),
    (0 <=? tolerance)%float = true ->
    compare_polylines poly poly tolerance max_triangles = Ok [].
Proof.
  intros P L Lnan poly tolerance max_triangles Htol.
  unfold compare_polylines.
  pose proof (range_in_bounds poly poly max_triangles) as Hb.
  induction Hb as [|idx idxs [Hi _] _ IH]; cbn [for_each]; [reflexivity|].
  replace (compare_at poly poly tolerance [] idx)
    with (@Ok (list TriangleDiff) []); [exact IH|].
  unfold compare_at.
  destruct (getitem_in_bounds _ _ Hi) as (tri & -> & _). cbn [bind].
  destruct (_triangle_delta tri tri) as [mv mc] eqn:E.
  replace mv with (fst (_triangle_delta tri tri)) by now rewrite E.
  rewrite triangle_delta_fold, fold_py_max_ignores, Htol; [reflexivity|].
  now apply vertex_deltas_diag.
Qed.

Lemma self_comparison_is_empty_witness :
  compare_polylines (dump_of [sliver; huge; nan_triangle])
                    (dump_of [sliver; huge; nan_triangle]) 0 None = Ok [].
Proof.
  apply (self_comparison_is_empty cpython cpython_laws eq_refl).
  reflexivity.
Defined.

Section DiffContents.
Context {P : Platform}.
Local Open Scope float_scope.

Lemma delta_step_nonneg (acc : float * float) (pair : Point * Point) :
  (0 <=? fst acc) = true /\ (0 <=? snd acc) = true ->
  (0 <=? fst (delta_step acc pair)) = true
  /\ (0 <=? snd (delta_step acc pair)) = true.
Proof.
  destruct acc as [mv mc], pair as [va vb]. cbn [fst snd delta_step].
  intros [Hv Hc]. split; auto using py_max_nonneg.
Qed.

Lemma triangle_delta_nonneg (a b : Triangle) :
  (0 <=? fst (_triangle_delta a b)) = true
  /\ (0 <=? snd (_triangle_delta a b)) = true.
Proof.
  unfold _triangle_delta.
  assert (H : (0 <=? fst (0, 0)) = true /\ (0 <=? snd (0, 0)) = true)
    by (split; reflexivity).
  revert H. generalize (0, 0).
  induction (combine (vertices a) (vertices b)) as [|p l IH];
    intros acc H; cbn [fold_left]; [exact H|].
  apply IH. now apply delta_step_nonneg.
Qed.

Lemma metrics_area (tri : Triangle) (m : TriangleMetrics) :
  triangle_metrics tri = Ok m ->
  area m = triangle_area tri /\ (area m <? 0) = false.
Proof.
  destruct tri as [[a b] c]. unfold triangle_metrics, triangle_area.
  intros H. apply bind_Ok in H as (angle & _ & H). injection H as <-.
  cbn [area]. split; [reflexivity | apply half_abs_not_negative].
Qed.

Lemma compare_at_diff (reference candidate : PolylineDump)
      (tolerance : float) (acc diffs : list TriangleDiff) (idx : Z) :
  compare_at reference candidate tolerance acc idx = Ok diffs ->
  diffs = acc
  \/ exists d, diffs = acc ++ [d]
               /\ triangle_index d = idx
               /\ diff_of reference candidate d
               /\ (max_vertex_delta d <=? tolerance) = false.
Proof.
  unfold compare_at. intros H.
  apply bind_Ok in H as (ta & Ea & H). apply bind_Ok in H as (tb & Eb & H).
  destruct (_triangle_delta ta tb) as [mv mc] eqn:Ed.
  destruct (mv <=? tolerance) eqn:Et.
  - left. now injection H as <-.
  - apply bind_Ok in H as (ma & Ema & H). apply bind_Ok in H as (mb & Emb & H).
    right. injection H as <-. eexists. split; [reflexivity|].
    split; [reflexivity|]. split; [|exact Et].
    unfold diff_of, aligned.
    cbn [triangle_index vertices_a vertices_b max_vertex_delta
         max_coord_delta area_a area_b min_angle_a min_angle_b].
    rewrite Ea, Eb. split; [reflexivity|]. split; [exact Ed|].
    exists ma, mb. repeat split; assumption.
Qed.

Lemma compare_loop_diffs (reference candidate : PolylineDump)
      (tolerance : float) (idxs : list Z) (acc diffs : list TriangleDiff) :
  for_each (compare_at reference candidate tolerance) idxs acc = Ok diffs ->
  exists news,
    diffs = acc ++ news
    /\ Forall (fun d => diff_of reference candidate d
                        /\ (max_vertex_delta d <=? tolerance) = false) news.
Proof.
  revert acc. induction idxs as [|idx idxs IH]; intros acc H;
    cbn [for_each] in H.
  - injection H as <-. exists []. now rewrite app_nil_r.
  - apply bind_Ok in H as (acc' & H1 & H).
    destruct (IH _ H) as (news & -> & Hn).
    apply compare_at_diff in H1 as [-> | (d & -> & _ & Hd & Ht)].
    + now exists news.
    + exists (d :: news). rewrite <- app_assoc. split; [reflexivity|].
      now constructor.
Qed.

End DiffContents.

(** X20.  What a returned diff holds: the two triangles that stand at its
    index, the deltas [_triangle_delta] gives for them, which are not
    within the tolerance, and the areas and minimum angles of their
    metrics.  The two deltas are numbers and not negative, whatever the
    coordinates are, and no area is negative. *)
Theorem diffs_hold_the_compared_triangles :
  forall (P : Platform) (reference candidate : PolylineDump)
         (tolerance : float) (max_triangles : option Z)
         (diffs : list TriangleDiff),
    compare_polylines reference candidate tolerance max_triangles = Ok diffs ->
    Forall (fun d =>
              diff_of reference candidate d
              /\ (max_vertex_delta d <=? tolerance)%float = false
              /\ (0 <=? max_vertex_delta d)%float = true
              /\ (0 <=? max_coord_delta d)%float = true
              /\ (area_a d <? 0)%float = false
              /\ (area_b d <? 0)%float = false) diffs.
Proof.
  intros P reference candidate tolerance max_triangles diffs H.
  unfold compare_polylines in H.
  apply compare_loop_diffs in H as (news & -> & Hn). cbn [app].
  eapply Forall_impl; [|exact Hn].
  intros d [Hd Ht]. split; [exact Hd|]. split; [exact Ht|].
  destruct Hd as (_ & Edelta & ma & mb & Ea & Eb & Aa & Ab & _).
  destruct (triangle_delta_nonneg (vertices_a d) (vertices_b d)) as [Hv Hc].
  rewrite Edelta in Hv, Hc. cbn [fst snd] in Hv, Hc.
  rewrite Aa, Ab.
  destruct (metrics_area _ _ Ea) as [_ Na].
  destruct (metrics_area _ _ Eb) as [_ Nb]. auto.
Qed.

Lemma diffs_hold_the_compared_triangles_witness :
  Forall (fun d =>
            diff_of (dump_of [unit_triangle]) (dump_of [nudged_triangle]) d
            /\ (max_vertex_delta d <=? 0.001)%float = false
            /\ (0 <=? max_vertex_delta d)%float = true
            /\ (0 <=? max_coord_delta d)%float = true
            /\ (area_a d <? 0)%float = false
            /\ (area_b d <? 0)%float = false)
         match compare_polylines (dump_of [unit_triangle])
                                 (dump_of [nudged_triangle]) 0.001 None with
         | Ok diffs => diffs
         | Raise _ => []
         end.
Proof.
  apply (diffs_hold_the_compared_triangles cpython
           (dump_of [unit_triangle]) (dump_of [nudged_triangle]) 0.001 None).
  vm_compute. reflexivity.
Defined.

Section Failures.
Context {P : Platform}.
Local Open Scope float_scope.

Lemma corner_angle_total (a b c : float) :
  if vanishing_product b c
  then corner_angle a b c = Raise ZeroDivisionError
  else exists angle, corner_angle a b c = Ok angle.
Proof.
  unfold vanishing_product, corner_angle, truediv.
  destruct ((b =? 0) || (c =? 0)); cbn [negb andb]; [eauto|].
  destruct (2 * b * c =? 0); cbn [bind]; [reflexivity|].
  rewrite py_acos_clamped. eauto.
Qed.

Lemma min_internal_angle_total (ab bc ca : float) :
  if vanishing_product bc ca || vanishing_product ca ab
     || vanishing_product ab bc
  then _min_internal_angle ab bc ca = Raise ZeroDivisionError
  else exists angle, _min_internal_angle ab bc ca = Ok angle.
Proof.
  unfold _min_internal_angle. rewrite internal_angles_unfold.
  pose proof (corner_angle_total ab bc ca) as H0.
  pose proof (corner_angle_total bc ca ab) as H1.
  pose proof (corner_angle_total ca ab bc) as H2.
  destruct (vanishing_product bc ca); cbn [orb].
  { now rewrite H0. }
  destruct H0 as (a0 & ->). cbn [bind].
  destruct (vanishing_product ca ab); cbn [orb].
  { now rewrite H1. }
  destruct H1 as (a1 & ->). cbn [bind].
  destruct (vanishing_product ab bc).
  { now rewrite H2. }
  destruct H2 as (a2 & ->). cbn [bind map_result].
  rewrite !to_degrees_Ok. cbn [bind py_min_of]. eauto.
Qed.

Lemma triangle_metrics_total (tri : Triangle) :
  if vanishing tri
  then triangle_metrics tri = Raise ZeroDivisionError
  else exists metrics, triangle_metrics tri = Ok metrics.
Proof.
  destruct tri as [[a b] c]. unfold vanishing, triangle_metrics.
  pose proof (min_internal_angle_total (_distance a b) (_distance b c)
                (_distance c a)) as H.
  destruct (_ || _ || _).
  - now rewrite H.
  - destruct H as (angle & ->). cbn [bind]. eauto.
Qed.

Lemma compare_at_total (reference candidate : PolylineDump)
      (tolerance : float) (acc : list TriangleDiff) (idx : Z) :
  (0 <= idx < len (triangles reference))%Z ->
  (0 <= idx < len (triangles candidate))%Z ->
  if fails_at reference candidate tolerance idx
  then compare_at reference candidate tolerance acc idx
       = Raise ZeroDivisionError
  else exists diffs, compare_at reference candidate tolerance acc idx
                     = Ok diffs.
Proof.
  intros Ha Hb. unfold fails_at, reported_at, aligned, compare_at.
  destruct (getitem_in_bounds _ _ Ha) as (ta & -> & _).
  destruct (getitem_in_bounds _ _ Hb) as (tb & -> & _).
  cbn [bind].
  destruct (_triangle_delta ta tb) as [mv mc]. cbn [fst].
  destruct (mv <=? tolerance); cbn [negb andb]; [eauto|].
  pose proof (triangle_metrics_total ta) as Hta.
  pose proof (triangle_metrics_total tb) as Htb.
  destruct (vanishing ta); cbn [orb].
  { now rewrite Hta. }
  destruct Hta as (ma & ->). cbn [bind].
  destruct (vanishing tb).
  { now rewrite Htb. }
  destruct Htb as (mb & ->). cbn [bind]. eauto.
Qed.

Lemma compare_loop_total (reference candidate : PolylineDump)
      (tolerance : float) (idxs : list Z) (acc : list TriangleDiff) :
  Forall (fun idx => (0 <= idx < len (triangles reference))%Z
                     /\ (0 <= idx < len (triangles candidate))%Z) idxs ->
  if existsb (fails_at reference candidate tolerance) idxs
  then for_each (compare_at reference candidate tolerance) idxs acc
       = Raise ZeroDivisionError
  else exists diffs,
      for_each (compare_at reference candidate tolerance) idxs acc
      = Ok diffs.
Proof.
  intros H. revert acc.
  induction H as [|idx idxs [Ha Hb] _ IH]; intros acc;
    cbn [existsb for_each]; [eauto|].
  pose proof (compare_at_total reference candidate tolerance acc idx Ha Hb)
    as H1.
  destruct (fails_at reference candidate tolerance idx); cbn [orb].
  { now rewrite H1. }
  destruct H1 as (acc' & ->). cbn [bind]. apply IH.
Qed.

Lemma sharp_loop_total (poly : PolylineDump) (thr : float)
      (items : list (Z * Triangle)) (acc : list (Z * Z * TriangleMetrics)) :
  if existsb (fun item => vanishing (snd item)) items
  then for_each (sharp_at poly thr) items acc = Raise ZeroDivisionError
  else exists res, for_each (sharp_at poly thr) items acc = Ok res.
Proof.
  revert acc. induction items as [|[idx tri] items IH]; intros acc;
    cbn [existsb for_each snd]; [eauto|].
  unfold sharp_at at 1. unfold sharp_at at 2.
  pose proof (triangle_metrics_total tri) as H.
  destruct (vanishing tri); cbn [orb].
  { now rewrite H. }
  destruct H as (m & ->). cbn [bind].
  destruct (min_angle_deg m <=? thr); cbn [bind]; apply IH.
Qed.

Lemma existsb_enumerate (tris : list Triangle) :
  existsb (fun item : Z * Triangle => vanishing (snd item)) (enumerate tris)
  = existsb vanishing tris.
Proof.
  unfold enumerate, range, len. rewrite Nat2Z.id.
  generalize 0%nat. induction tris as [|t tris IH]; intros k;
    [reflexivity|].
  cbn [length seq map combine existsb snd]. now rewrite IH.
Qed.

End Failures.

Section FailureTotals.
Context {P : Platform}.

Lemma compare_polylines_total (reference candidate : PolylineDump)
      (tolerance : float) (max_triangles : option Z) :
  if existsb (fails_at reference candidate tolerance)
             (range (comparison_range reference candidate max_triangles))
  then compare_polylines reference candidate tolerance max_triangles
       = Raise ZeroDivisionError
  else exists diffs,
      compare_polylines reference candidate tolerance max_triangles
      = Ok diffs.
Proof. apply compare_loop_total, range_in_bounds. Qed.

Lemma sharp_outer_total (polylines : list PolylineDump) (thr : float)
      (acc : list (Z * Z * TriangleMetrics)) :
  if existsb (fun poly => existsb vanishing (triangles poly)) polylines
  then for_each (fun results poly =>
                   for_each (sharp_at poly thr) (enumerate (triangles poly))
                            results)
                polylines acc = Raise ZeroDivisionError
  else exists results,
      for_each (fun results poly =>
                  for_each (sharp_at poly thr) (enumerate (triangles poly))
                           results)
               polylines acc = Ok results.
Proof.
  revert acc. induction polylines as [|poly polylines IH]; intros acc;
    cbn [existsb for_each]; [eauto|].
  pose proof (sharp_loop_total poly thr (enumerate (triangles poly)) acc)
    as H.
  rewrite existsb_enumerate in H.
  destruct (existsb vanishing (triangles poly)); cbn [orb].
  { now rewrite H. }
  destruct H as (acc' & ->). cbn [bind]. apply IH.
Qed.

End FailureTotals.

(** X21.  When the three functions fail, exactly.  [triangle_metrics]
    raises [ZeroDivisionError] when at some corner [2 * b * c] is zero
    although neither [b] nor [c] is, and returns otherwise; the comparator
    raises it when one of the two triangles at an index it has to report is
    such a triangle, and returns otherwise; the scanner raises it when any
    triangle of any polyline is such a triangle, and returns otherwise. *)
Theorem failures_are_vanishing_products :
  forall (P : Platform),
    (forall tri : Triangle,
        if vanishing tri
        then triangle_metrics tri = Raise ZeroDivisionError
        else exists metrics, triangle_metrics tri = Ok metrics)
    /\ (forall (reference candidate : PolylineDump) (tolerance : float)
               (max_triangles : option Z),
           if existsb (fails_at reference candidate tolerance)
                      (range (comparison_range reference candidate
                                               max_triangles))
           then compare_polylines reference candidate tolerance max_triangles
                = Raise ZeroDivisionError
           else exists diffs,
               compare_polylines reference candidate tolerance max_triangles
               = Ok diffs)
    /\ (forall (polylines : list PolylineDump) (angle_threshold : float),
           if existsb (fun poly => existsb vanishing (triangles poly))
                      polylines
           then collect_sharp_triangles polylines angle_threshold
                = Raise ZeroDivisionError
           else exists results,
               collect_sharp_triangles polylines angle_threshold
               = Ok results).
Proof.
  intros P. split; [apply triangle_metrics_total|]. split.
  - intros reference candidate tolerance max_triangles.
    apply compare_polylines_total.
  - intros polylines thr. apply sharp_outer_total.
Qed.

Section Tolerances.
Context {P : Platform}.
Local Open Scope float_scope.

Lemma leb_infinity (x : float) : is_number x = true -> (x <=? infinity) = true.
Proof.
  intros H. apply is_number_spec in H. rewrite leb_spec.
  change (Prim2SF infinity) with (S754_infinity false).
  unfold SFleb. destruct (Prim2SF x) as [s|s| |s m e]; try reflexivity;
    [now destruct s | now elim H].
Qed.

Lemma leb_negative (x tolerance : float) :
  (0 <=? x) = true -> (tolerance <? 0) = true -> (x <=? tolerance) = false.
Proof.
  rewrite leb_zero_spec, ltb_zero_spec, leb_spec. unfold SFleb.
  destruct (Prim2SF x) as [sx|sx| |sx mx ex],
           (Prim2SF tolerance) as [st|st| |st mt et];
    cbn; try discriminate; try reflexivity;
    intros Hx Ht; subst; try discriminate; try reflexivity;
    destruct sx; try discriminate; reflexivity.
Qed.

Lemma leb_not_number (x tolerance : float) :
  is_number tolerance = false -> (x <=? tolerance) = false.
Proof.
  intros H. destruct (x <=? tolerance) eqn:E; [|reflexivity].
  apply leb_is_number in E as [_ E]. congruence.
Qed.

Lemma reported_everywhere (reference candidate : PolylineDump)
      (tolerance : float) (idxs : list Z) :
  is_number tolerance = false \/ (tolerance <? 0) = true ->
  Forall (fun idx => (0 <= idx < len (triangles reference))%Z
                     /\ (0 <= idx < len (triangles candidate))%Z) idxs ->
  filter (reported_at reference candidate tolerance) idxs = idxs.
Proof.
  intros Ht H. apply filter_all. eapply Forall_impl; [|exact H].
  intros idx [Ha Hb]. unfold reported_at, aligned.
  destruct (getitem_in_bounds _ _ Ha) as (ta & -> & _).
  destruct (getitem_in_bounds _ _ Hb) as (tb & -> & _).
  destruct Ht as [Ht | Ht].
  - now rewrite leb_not_number.
  - rewrite leb_negative; auto. apply triangle_delta_nonneg.
Qed.

Lemma reported_nowhere (reference candidate : PolylineDump) (idxs : list Z) :
  filter (reported_at reference candidate infinity) idxs = [].
Proof.
  apply filter_none, Forall_forall. intros idx _. unfold reported_at.
  destruct (aligned reference candidate idx) as [[ta tb]|]; [|reflexivity].
  now rewrite leb_infinity by apply triangle_delta_is_number.
Qed.

Lemma existsb_filter_nil {A : Type} (f g : A -> bool) (l : list A) :
  filter f l = [] -> existsb (fun x => f x && g x) l = false.
Proof.
  induction l as [|x l IH]; cbn [filter existsb]; [reflexivity|].
  destruct (f x); [discriminate|]. cbn [andb orb]. exact IH.
Qed.

End Tolerances.

(** X28.  Tolerances outside the intended range.  With a tolerance that is
    a NaN or negative every triangle of the comparison range is reported,
    the identical ones included; with the tolerance [+inf] nothing is
    reported and the comparator never fails. *)
Theorem tolerance_edge_cases :
  forall (P : Platform) (reference candidate : PolylineDump)
         (tolerance : float) (max_triangles : option Z),
    (is_number tolerance = false \/ (tolerance <? 0)%float = true ->
     forall diffs,
       compare_polylines reference candidate tolerance max_triangles
       = Ok diffs ->
       map triangle_index diffs
       = range (comparison_range reference candidate max_triangles))
    /\ compare_polylines reference candidate infinity max_triangles = Ok [].
Proof.
  intros P reference candidate tolerance max_triangles. split.
  - intros Ht diffs H.
    destruct (compare_polylines_cases reference candidate tolerance
                max_triangles) as [(diffs' & H' & Hidx) | H'];
      [|congruence].
    assert (diffs' = diffs) by congruence. subst diffs'.
    rewrite Hidx. apply reported_everywhere; [exact Ht|].
    apply range_in_bounds.
  - pose proof (compare_polylines_total reference candidate infinity
                  max_triangles) as T.
    unfold fails_at in T.
    rewrite (existsb_filter_nil (reported_at reference candidate infinity))
      in T by apply reported_nowhere.
    destruct T as (diffs & T). rewrite T. f_equal.
    destruct (compare_polylines_cases reference candidate infinity
                max_triangles) as [(diffs' & H' & Hidx) | H'];
      [|congruence].
    assert (diffs' = diffs) by congruence. subst diffs'.
    rewrite reported_nowhere in Hidx.
    now destruct diffs.
Qed.

Lemma tolerance_edge_cases_witness :
  (forall diffs,
      compare_polylines (dump_of [unit_triangle]) (dump_of [unit_triangle])
                        (-1) None = Ok diffs ->
      map triangle_index diffs
      = range (comparison_range (dump_of [unit_triangle])
                                (dump_of [unit_triangle]) None))
  /\ compare_polylines (dump_of [unit_triangle]) (dump_of [unit_triangle])
                       infinity None = Ok [].
Proof.
  destruct (tolerance_edge_cases cpython (dump_of [unit_triangle])
              (dump_of [unit_triangle]) (-1) None) as [H1 H2].
  split; [|exact H2]. apply H1. right. reflexivity.
Defined.

Section Labels.
Context {P : Platform}.

Lemma split_go_label (label payload cur : str) :
  ~ In 58%N label ->
  Str.split_go (lit ":") (label ++ 58%N :: payload) 0 cur (Some 1%nat)
  = [rev cur ++ label; payload].
Proof.
  revert cur. induction label as [|c label IH]; intros cur Hc.
  - change (lit ":") with [58%N]. cbn [app Str.split_go Str.startswith].
    rewrite N.eqb_refl. cbn [andb length Nat.sub option_map pred].
    rewrite app_nil_r. f_equal.
    assert (G : forall s acc, Str.split_go [58%N] s 0 acc (Some 0%nat)
                              = [rev acc ++ s]).
    { induction s as [|d s IHs]; intros acc; cbn [Str.split_go].
      - now rewrite app_nil_r.
      - rewrite IHs. cbn [rev]. now rewrite <- app_assoc. }
    now rewrite G.
  - change (lit ":") with [58%N] in *.
    cbn [app Str.split_go Str.startswith].
    destruct (N.eqb_spec c 58) as [-> | Hne].
    + elim Hc. now left.
    + cbn [andb]. rewrite IH by (intros H; apply Hc; now right).
      cbn [rev]. now rewrite <- app_assoc.
Qed.

Lemma triangle_body_label (label payload : str) :
  ~ In 58%N label ->
  triangle_body (label ++ 58%N :: payload)
  = (vertices <- for_each parse_chunk
                          (Str.split (Str.strip payload) (lit "],")) [] ;;
     if negb (length vertices =? 3)%nat then Raise ValueError
     else
       v0 <- getitem vertices 0 ;;
       v1 <- getitem vertices 1 ;;
       v2 <- getitem vertices 2 ;;
       Ok (v0, v1, v2)).
Proof.
  intros H. unfold triangle_body, Str.split_max.
  now rewrite (split_go_label label payload [] H).
Qed.

End Labels.

(** X27.  The label of a triangle entry is not read: whatever stands
    before the first colon, the number of the triangle included, the line
    gives the triangle of what follows the colon, or fails if that cannot
    be parsed.  Triangles are taken in the order of the lines. *)
Theorem triangle_label_is_ignored :
  forall (P : Platform) (label label' payload : str),
    ~ In 58%N label -> ~ In 58%N label' ->
    (forall t : Triangle,
        _parse_triangle_line (label ++ 58%N :: payload) = Ok t
        <-> _parse_triangle_line (label' ++ 58%N :: payload) = Ok t)
    /\ ((exists e, _parse_triangle_line (label ++ 58%N :: payload) = Raise e)
        <-> (exists e,
                _parse_triangle_line (label' ++ 58%N :: payload) = Raise e)).
Proof.
  intros P label label' payload H H'.
  unfold _parse_triangle_line, try_except, any_exception.
  rewrite (triangle_body_label label payload H),
    (triangle_body_label label' payload H').
  destruct (bind _ _) as [t|e].
  - split; [reflexivity|]. split; intros (e & He); discriminate.
  - split; [split; discriminate|]. split; intros _; eauto.
Qed.

Lemma triangle_label_is_ignored_witness :
  (forall t : Triangle,
      _parse_triangle_line
        (lit "Triangle 0" ++ 58%N :: lit " [0, 0], [1, 0], [0, 1]") = Ok t
      <-> _parse_triangle_line
            (lit "Triangle 17 of 3" ++ 58%N :: lit " [0, 0], [1, 0], [0, 1]")
          = Ok t)
  /\ ((exists e,
          _parse_triangle_line
            (lit "Triangle 0" ++ 58%N :: lit " [0, 0], [1, 0], [0, 1]")
          = Raise e)
      <-> (exists e,
              _parse_triangle_line
                (lit "Triangle 17 of 3" ++ 58%N
                     :: lit " [0, 0], [1, 0], [0, 1]") = Raise e)).
Proof.
  apply (triangle_label_is_ignored cpython).
  - vm_compute. intuition discriminate.
  - vm_compute. intuition discriminate.
Defined.

Section Rounding.

Local Open Scope Z_scope.

Lemma shr_1_nonneg (mrs : shr_record) :
  0 <= shr_m mrs -> 0 <= shr_m (shr_1 mrs).
Proof.
  destruct mrs as [m r s]. cbn [shr_m]. intros H.
  destruct m as [|p|p]; [cbn; lia| |lia].
  destruct p; cbn; lia.
Qed.

Lemma iter_shr_1_nonneg (p : positive) (mrs : shr_record) :
  0 <= shr_m mrs -> 0 <= shr_m (iter_pos shr_1 p mrs).
Proof.
  revert mrs. induction p as [p IH|p IH|]; intros mrs H; cbn [iter_pos].
  - apply IH, IH, shr_1_nonneg, H.
  - apply IH, IH, H.
  - apply shr_1_nonneg, H.
Qed.

Lemma shr_fexp_nonneg (m e : Z) (l : location) :
  0 <= m -> 0 <= shr_m (fst (shr_fexp prec emax m e l)).
Proof.
  intros H. unfold shr_fexp, shr.
  assert (H0 : 0 <= shr_m (shr_record_of_loc m l))
    by (destruct l as [|[]]; exact H).
  destruct (fexp prec emax (Zdigits2 m + e) - e); cbn [fst]; auto.
  now apply iter_shr_1_nonneg.
Qed.

Lemma round_nearest_even_nonneg (m : Z) (l : location) :
  0 <= m -> 0 <= round_nearest_even m l.
Proof.
  intros H. unfold round_nearest_even.
  destruct l as [|[]]; try lia. destruct (Z.even m); lia.
Qed.

Lemma binary_round_aux_nonneg (m e : Z) (l : location) :
  0 <= m -> SFnonneg (binary_round_aux prec emax false m e l) = true.
Proof.
  intros H. unfold binary_round_aux.
  pose proof (shr_fexp_nonneg m e l H) as H1.
  destruct (shr_fexp prec emax m e l) as [mrs' e']. cbn [fst] in H1.
  pose proof (shr_fexp_nonneg _ e' loc_Exact
                (round_nearest_even_nonneg _ (loc_of_shr_record mrs') H1))
    as H2.
  destruct (shr_fexp prec emax _ e' loc_Exact) as [mrs'' e''].
  cbn [fst] in H2.
  destruct (shr_m mrs'') as [|p|p]; [reflexivity| |lia].
  now destruct (e'' <=? emax - prec).
Qed.

Lemma SFmul_nonneg (x : spec_float) (m : positive) (e : Z) :
  SFnonneg x = true ->
  SFnonneg (SFmul prec emax x (S754_finite false m e)) = true.
Proof.
  destruct x as [s|s| |s mx ex]; cbn [SFnonneg SFmul]; try discriminate.
  - reflexivity.
  - intros H. apply negb_true_iff in H. now subst.
  - intros H. apply negb_true_iff in H. subst. cbn [xorb].
    apply binary_round_aux_nonneg. lia.
Qed.

Lemma SFdiv_nonneg (x : spec_float) (m : positive) (e : Z) :
  SFnonneg x = true ->
  SFnonneg (SFdiv prec emax x (S754_finite false m e)) = true.
Proof.
  destruct x as [s|s| |s mx ex]; cbn [SFnonneg SFdiv]; try discriminate.
  - reflexivity.
  - intros H. apply negb_true_iff in H. now subst.
  - intros H. apply negb_true_iff in H. subst. cbn [xorb].
    unfold SFdiv_core_binary.
    set (s := ex - e - _).
    set (m' := match s with 0 => Z.pos mx | Z.pos _ => Z.shiftl (Z.pos mx) s
                       | Z.neg _ => 0 end).
    assert (Hm : 0 <= m').
    { unfold m'. destruct s; try lia. apply Z.shiftl_nonneg. lia. }
    pose proof (Z.div_pos m' (Z.pos m) Hm ltac:(lia)) as Hq.
    unfold Z.div in Hq.
    destruct (Z.div_eucl m' (Z.pos m)) as [q r].
    now apply binary_round_aux_nonneg.
Qed.

End Rounding.

Section ZeroEdge.
Context {P : Platform}.
Local Open Scope float_scope.

Lemma degrees_not_negative (angle : float) :
  (0 <=? angle) = true -> (0 <=? angle * 180 / math_pi) = true.
Proof.
  rewrite !leb_zero_spec, div_spec, mul_spec.
  change (Prim2SF 180) with (S754_finite false 6333186975989760 (-45)).
  change (Prim2SF math_pi) with (S754_finite false 7074237752028440 (-51)).
  intros H. now apply SFdiv_nonneg, SFmul_nonneg.
Qed.

Lemma nonneg_not_negative (x : float) : (0 <=? x) = true -> (x <? 0) = false.
Proof.
  rewrite leb_zero_spec, ltb_zero_spec.
  destruct (Prim2SF x) as [s|s| |s m e]; cbn; try discriminate;
    try reflexivity; intros H; now apply negb_true_iff in H.
Qed.

Lemma between_zero (x : float) :
  (0 <=? x) = true -> (0 <? x) = false -> (x =? 0) = true.
Proof.
  rewrite leb_zero_spec, ltb_spec, eqb_spec.
  change (Prim2SF 0) with (S754_zero false). unfold SFltb, SFeqb.
  destruct (Prim2SF x) as [s|s| |s m e]; cbn; try discriminate;
    try reflexivity; destruct s; cbn; discriminate.
Qed.

(** The minimum of three angles in degrees, two of them 0 and the third
    not negative, is zero wherever the third stands. *)
Lemma min_with_zeros (d : float) :
  (0 <=? d) = true ->
  (py_min (py_min d 0) 0 =? 0) = true
  /\ (py_min (py_min 0 d) 0 =? 0) = true
  /\ (py_min (py_min 0 0) d =? 0) = true.
Proof.
  intros H. pose proof (nonneg_not_negative d H) as N.
  assert (Z : py_min 0 0 = 0) by reflexivity.
  assert (Zd : py_min 0 d = 0) by (unfold py_min; now rewrite N).
  split; [|split].
  - unfold py_min at 2. destruct (0 <? d) eqn:E.
    + now rewrite Z.
    + unfold py_min. rewrite E. now apply between_zero.
  - now rewrite Zd, Z.
  - now rewrite Z, Zd.
Qed.

Lemma clamp_bounds (x : float) :
  let c := py_max (-1) (py_min 1 x) in
  (-1 <=? c) = true /\ (c <=? 1) = true.
Proof.
  cbv zeta. unfold py_max, py_min.
  destruct (x <? 1) eqn:E1.
  - destruct (-1 <? x) eqn:E2.
    + pose proof (ltb_is_number _ _ E1) as [Hx _].
      split.
      * rewrite leb_negb_ltb by (exact Hx || reflexivity).
        now rewrite (ltb_asym _ _ E2).
      * rewrite leb_negb_ltb by (exact Hx || reflexivity).
        now rewrite (ltb_asym _ _ E1).
    + split; reflexivity.
  - change (-1 <? 1) with true. cbv iota. split; reflexivity.
Qed.

Lemma corner_angle_nonneg (a b c angle : float) :
  (forall x : float,
      (-1 <=? x) = true -> (x <=? 1) = true -> (0 <=? math_acos x) = true) ->
  corner_angle a b c = Ok angle -> (0 <=? angle) = true.
Proof.
  intros L. unfold corner_angle, truediv.
  destruct ((b =? 0) || (c =? 0)); [now intros [= <-]|].
  destruct (2 * b * c =? 0); cbn [bind]; [discriminate|].
  rewrite py_acos_clamped. intros [= <-].
  apply L; apply clamp_bounds.
Qed.

End ZeroEdge.

Section ZeroEdgeAngle.
Context {P : Platform}.
Local Open Scope float_scope.

Hypothesis acos_nonneg :
  forall x : float,
    (-1 <=? x) = true -> (x <=? 1) = true -> (0 <=? math_acos x) = true.

Lemma corner_guard (a b c : float) :
  (b =? 0) = true \/ (c =? 0) = true -> corner_angle a b c = Ok 0.
Proof.
  intros H. unfold corner_angle.
  replace ((b =? 0) || (c =? 0)) with true; [reflexivity|].
  symmetry. apply orb_true_iff. exact H.
Qed.

Lemma zero_edge_min_angle (ab bc ca angle : float) :
  ((ab =? 0) || (bc =? 0) || (ca =? 0)) = true ->
  _min_internal_angle ab bc ca = Ok angle -> (angle =? 0) = true.
Proof.
  intros Hz. unfold _min_internal_angle. rewrite internal_angles_unfold.
  apply orb_true_iff in Hz as [Hz | Hz];
    [apply orb_true_iff in Hz as [Hz | Hz]|].
  - rewrite (corner_guard bc ca ab), (corner_guard ca ab bc) by auto.
    destruct (corner_angle ab bc ca) as [a0|] eqn:E0; cbn [bind];
      [|discriminate].
    cbn [map_result]. rewrite !to_degrees_Ok. cbn [bind py_min_of fold_left].
    change (0 * 180 / math_pi) with 0. intros [= <-].
    apply min_with_zeros, degrees_not_negative.
    eapply corner_angle_nonneg; eauto.
  - rewrite (corner_guard ab bc ca), (corner_guard ca ab bc) by auto.
    cbn [bind].
    destruct (corner_angle bc ca ab) as [a1|] eqn:E1; cbn [bind];
      [|discriminate].
    cbn [map_result]. rewrite !to_degrees_Ok. cbn [bind py_min_of fold_left].
    change (0 * 180 / math_pi) with 0. intros [= <-].
    apply min_with_zeros, degrees_not_negative.
    eapply corner_angle_nonneg; eauto.
  - rewrite (corner_guard ab bc ca), (corner_guard bc ca ab) by auto.
    cbn [bind].
    destruct (corner_angle ca ab bc) as [a2|] eqn:E2; cbn [bind];
      [|discriminate].
    cbn [map_result]. rewrite !to_degrees_Ok. cbn [bind py_min_of fold_left].
    change (0 * 180 / math_pi) with 0. intros [= <-].
    apply min_with_zeros, degrees_not_negative.
    eapply corner_angle_nonneg; eauto.
Qed.

End ZeroEdgeAngle.

(** X30.  The policy for degenerate triangles in binary64, on a platform
    whose [acos] is not negative on [-1, 1]: a triangle with an edge of
    length zero has a minimum angle equal to 0 whenever its metrics are
    returned, and they are returned unless the product of the two other
    edge lengths vanishes. *)
Theorem zero_edge_gives_zero_or_fails :
  forall P : Platform,
    (forall x : float,
        (-1 <=? x)%float = true -> (x <=? 1)%float = true ->
        (0 <=? math_acos x)%float = true) ->
    forall a b c : Point,
      ((_distance a b =? 0) || (_distance b c =? 0)
       || (_distance c a =? 0))%float = true ->
      if vanishing (a, b, c)
      then triangle_metrics (a, b, c) = Raise ZeroDivisionError
      else exists metrics,
          triangle_metrics (a, b, c) = Ok metrics
          /\ (min_angle_deg metrics =? 0)%float = true.
Proof.
  intros P L a b c Hz.
  pose proof (triangle_metrics_total (a, b, c)) as T.
  destruct (vanishing (a, b, c)); [exact T|].
  destruct T as (metrics & T). exists metrics. split; [exact T|].
  unfold triangle_metrics in T.
  apply bind_Ok in T as (angle & Ha & T). injection T as <-.
  cbn [min_angle_deg]. eapply zero_edge_min_angle; eauto.
Qed.

Lemma zero_edge_gives_zero_or_fails_witness :
  exists metrics,
    @triangle_metrics cpython_nonnegative needle = Ok metrics
    /\ (min_angle_deg metrics =? 0)%float = true.
Proof.
  refine (zero_edge_gives_zero_or_fails cpython_nonnegative _
            (0, 0)%float (0, 0)%float (1, 0)%float eq_refl).
  intros x _ _. apply py_max_nonneg. reflexivity.
Defined.

(** ** The angles of a triangle, in binary64 *)

Section Sums.

Local Open Scope Z_scope.



Lemma SFltb_trans (x y z : spec_float) :
  SFltb x y = true -> SFltb y z = true -> SFltb x z = true.
Proof.
  unfold SFltb.
  destruct x as [sx|sx| |sx mx ex], y as [sy|sy| |sy my ey],
           z as [sz|sz| |sz mz ez]; cbn [SFcompare];
    try discriminate; try reflexivity;
    try (destruct sx, sy, sz; cbn; (discriminate || reflexivity)).
  all: destruct sx, sy, sz; try discriminate; try reflexivity.
  all: fold (Pos.compare mx my); fold (Pos.compare my mz);
       fold (Pos.compare mx mz).
  all: destruct (Z.compare_spec ex ey), (Z.compare_spec ey ez),
         (Z.compare_spec ex ez); cbn [CompOpp]; try discriminate;
         try reflexivity; try lia.
  all: subst.
  all: destruct (Pos.compare_spec mx my), (Pos.compare_spec my mz),
         (Pos.compare_spec mx mz); cbn [CompOpp]; try discriminate;
         try reflexivity; try lia.
Qed.

End Sums.

Section Angles.
Context {P : Platform}.
Local Open Scope float_scope.


Lemma ltb_trans (x y z : float) :
  (x <? y) = true -> (y <? z) = true -> (x <? z) = true.
Proof. rewrite !ltb_spec. apply SFltb_trans. Qed.

Lemma ltb_irrefl (x : float) : (x <? x) = false.
Proof.
  destruct (x <? x) eqn:E; [|reflexivity].
  now rewrite (ltb_asym _ _ E) in E.
Qed.

Lemma py_min_cases (a b : float) : py_min a b = a \/ py_min a b = b.
Proof. unfold py_min. destruct (b <? a); auto. Qed.

(** [min] of two: nothing it was given is strictly below the result. *)
Lemma py_min_lower (a b : float) :
  (a <? py_min a b) = false /\ (b <? py_min a b) = false.
Proof.
  unfold py_min. destruct (b <? a) eqn:E.
  - split; [now apply ltb_asym | apply ltb_irrefl].
  - split; [apply ltb_irrefl | exact E].
Qed.

(** [min] of three, as [min(degrees)] folds it. *)
Lemma py_min3_lower (d0 d1 d2 : float) :
  let m := py_min (py_min d0 d1) d2 in
  (d0 <? m) = false /\ (d1 <? m) = false /\ (d2 <? m) = false.
Proof.
  cbv zeta. destruct (py_min_lower d0 d1) as [H0 H1].
  destruct (py_min_lower (py_min d0 d1) d2) as [Hm H2].
  assert (T : forall d, (d <? py_min d0 d1) = false ->
                        (d <? py_min (py_min d0 d1) d2) = false).
  { intros d Hd. unfold py_min at 1.
    destruct (d2 <? py_min d0 d1) eqn:E; [|exact Hd].
    destruct (d <? d2) eqn:E'; [|reflexivity].
    now rewrite (ltb_trans _ _ _ E' E) in Hd. }
  auto.
Qed.

Lemma py_min3_cases (d0 d1 d2 : float) :
  In (py_min (py_min d0 d1) d2) [d0; d1; d2].
Proof.
  destruct (py_min_cases (py_min d0 d1) d2) as [-> | ->];
    [destruct (py_min_cases d0 d1) as [-> | ->]|]; cbn; auto.
Qed.

Lemma py_min_nonneg (a b : float) :
  (0 <=? a) = true -> (0 <=? b) = true -> (0 <=? py_min a b) = true.
Proof. intros Ha Hb. now destruct (py_min_cases a b) as [-> | ->]. Qed.

(** One corner: the division by a vanishing product raises, and every
    other corner gets its law-of-cosines angle. *)
Lemma corner_angle_cases (a b c : float) :
  if vanishing_product b c
  then corner_angle a b c = Raise ZeroDivisionError
  else corner_angle a b c = Ok (law_of_cosines_angle a b c).
Proof.
  unfold vanishing_product, corner_angle, law_of_cosines_angle, truediv.
  destruct ((b =? 0) || (c =? 0)); cbn [negb andb]; [reflexivity|].
  destruct (2 * b * c =? 0); cbn [bind]; [reflexivity|].
  apply py_acos_clamped.
Qed.

Lemma internal_angles_cases (ab bc ca : float) :
  if vanishing_product bc ca || vanishing_product ca ab
     || vanishing_product ab bc
  then internal_angles ab bc ca = Raise ZeroDivisionError
  else internal_angles ab bc ca
       = Ok [law_of_cosines_angle ab bc ca; law_of_cosines_angle bc ca ab;
             law_of_cosines_angle ca ab bc].
Proof.
  rewrite internal_angles_unfold.
  pose proof (corner_angle_cases ab bc ca) as H0.
  pose proof (corner_angle_cases bc ca ab) as H1.
  pose proof (corner_angle_cases ca ab bc) as H2.
  destruct (vanishing_product bc ca); cbn [orb]; rewrite H0; [reflexivity|].
  cbn [bind].
  destruct (vanishing_product ca ab); cbn [orb]; rewrite H1; [reflexivity|].
  cbn [bind].
  destruct (vanishing_product ab bc); rewrite H2; reflexivity.
Qed.

Lemma map_to_degrees (angles : list float) :
  map_result to_degrees angles = Ok (map in_degrees angles).
Proof.
  induction angles as [|x r IH]; [reflexivity|].
  cbn [map_result map]. now rewrite to_degrees_Ok, IH.
Qed.

Lemma min_internal_angle_cases (ab bc ca : float) :
  if vanishing_product bc ca || vanishing_product ca ab
     || vanishing_product ab bc
  then _min_internal_angle ab bc ca = Raise ZeroDivisionError
  else _min_internal_angle ab bc ca
       = Ok (py_min (py_min (in_degrees (law_of_cosines_angle ab bc ca))
                            (in_degrees (law_of_cosines_angle bc ca ab)))
                    (in_degrees (law_of_cosines_angle ca ab bc))).
Proof.
  unfold _min_internal_angle.
  pose proof (internal_angles_cases ab bc ca) as H.
  destruct (_ || _ || _); rewrite H; [reflexivity|].
  cbn [bind]. rewrite map_to_degrees. reflexivity.
Qed.

Section NonNegative.

Hypothesis acos_nonneg :
  forall x : float,
    (-1 <=? x) = true -> (x <=? 1) = true -> (0 <=? math_acos x) = true.

Lemma law_of_cosines_angle_nonneg (a b c : float) :
  (0 <=? law_of_cosines_angle a b c) = true.
Proof.
  unfold law_of_cosines_angle.
  destruct ((b =? 0) || (c =? 0)); [reflexivity|].
  apply acos_nonneg; apply clamp_bounds.
Qed.

Lemma in_degrees_nonneg (a b c : float) :
  (0 <=? in_degrees (law_of_cosines_angle a b c)) = true.
Proof. apply degrees_not_negative, law_of_cosines_angle_nonneg. Qed.

End NonNegative.

End Angles.




Section MinimumAngle.
Context {P : Platform}.
Local Open Scope float_scope.

(** The metrics of a triangle in terms of its three corner angles. *)
Lemma triangle_metrics_cases (a b c : Point) :
  let ab := _distance a b in
  let bc := _distance b c in
  let ca := _distance c a in
  if vanishing (a, b, c)
  then triangle_metrics (a, b, c) = Raise ZeroDivisionError
  else exists metrics,
      triangle_metrics (a, b, c) = Ok metrics
      /\ min_angle_deg metrics
         = py_min (py_min (in_degrees (law_of_cosines_angle ab bc ca))
                          (in_degrees (law_of_cosines_angle bc ca ab)))
                  (in_degrees (law_of_cosines_angle ca ab bc)).
Proof.
  intros ab bc ca. unfold vanishing, triangle_metrics. fold ab bc ca.
  pose proof (min_internal_angle_cases ab bc ca) as H.
  destruct (_ || _ || _); rewrite H; [reflexivity|].
  cbn [bind]. eexists. split; reflexivity.
Qed.

Lemma zero_edge_angles (a b c : float) :
  (b =? 0) = true \/ (c =? 0) = true -> law_of_cosines_angle a b c = 0.
Proof.
  intros H. unfold law_of_cosines_angle.
  replace ((b =? 0) || (c =? 0)) with true; [reflexivity|].
  symmetry. apply orb_true_iff. exact H.
Qed.

Lemma zero_in_degrees (angle m : float) :
  angle = 0 -> (in_degrees angle <? m) = false -> (0 <? m) = false.
Proof. intros -> H. exact H. Qed.

End MinimumAngle.

(** X4.  Whenever [triangle_metrics] returns, and it returns unless the
    product of two edge lengths vanishes, [min_angle_deg] is one of the
    three corner angles in degrees and none of the three is strictly below
    it; on a platform whose [acos] is not negative on [-1, 1] it is a
    number that is not negative. *)
Theorem min_angle_is_the_least_corner_angle :
  forall (P : Platform) (a b c : Point),
    let ab := _distance a b in
    let bc := _distance b c in
    let ca := _distance c a in
    let degrees := map in_degrees [law_of_cosines_angle ab bc ca;
                                   law_of_cosines_angle bc ca ab;
                                   law_of_cosines_angle ca ab bc] in
    if vanishing (a, b, c)
    then triangle_metrics (a, b, c) = Raise ZeroDivisionError
    else exists metrics,
        triangle_metrics (a, b, c) = Ok metrics
        /\ In (min_angle_deg metrics) degrees
        /\ Forall (fun d => (d <? min_angle_deg metrics)%float = false)
                  degrees
        /\ ((forall x : float,
                (-1 <=? x)%float = true -> (x <=? 1)%float = true ->
                (0 <=? math_acos x)%float = true) ->
            (0 <=? min_angle_deg metrics)%float = true).
Proof.
  intros P a b c ab bc ca degrees.
  pose proof (triangle_metrics_cases a b c) as H. cbv zeta in H.
  fold ab bc ca in H.
  destruct (vanishing (a, b, c)); [exact H|].
  destruct H as (metrics & H & E). exists metrics. split; [exact H|].
  rewrite E. unfold degrees. cbn [map]. split; [apply py_min3_cases|].
  split.
  - destruct (py_min3_lower (in_degrees (law_of_cosines_angle ab bc ca))
                (in_degrees (law_of_cosines_angle bc ca ab))
                (in_degrees (law_of_cosines_angle ca ab bc)))
      as (H0 & H1 & H2).
    repeat constructor; assumption.
  - intros L. repeat apply py_min_nonneg; now apply in_degrees_nonneg.
Qed.

(** X5.  On every platform, whatever [acos] returns: a triangle with an
    edge of length zero has angle 0 at both ends of that edge, and its
    minimum angle is never positive when its metrics are returned, which
    they are unless the product of the two other edge lengths vanishes. *)
Theorem zero_edge_angle_is_never_positive :
  forall (P : Platform) (a b c : Point),
    let ab := _distance a b in
    let bc := _distance b c in
    let ca := _distance c a in
    ((ab =? 0) || (bc =? 0) || (ca =? 0))%float = true ->
    ((ab =? 0)%float = true ->
     law_of_cosines_angle bc ca ab = 0%float
     /\ law_of_cosines_angle ca ab bc = 0%float)
    /\ ((bc =? 0)%float = true ->
        law_of_cosines_angle ab bc ca = 0%float
        /\ law_of_cosines_angle ca ab bc = 0%float)
    /\ ((ca =? 0)%float = true ->
        law_of_cosines_angle ab bc ca = 0%float
        /\ law_of_cosines_angle bc ca ab = 0%float)
    /\ if vanishing (a, b, c)
       then triangle_metrics (a, b, c) = Raise ZeroDivisionError
       else exists metrics,
           triangle_metrics (a, b, c) = Ok metrics
           /\ (0 <? min_angle_deg metrics)%float = false.
Proof.
  intros P a b c ab bc ca Hz.
  assert (Z0 : (ab =? 0)%float = true ->
               law_of_cosines_angle bc ca ab = 0%float
               /\ law_of_cosines_angle ca ab bc = 0%float)
    by (intros H; split; apply zero_edge_angles; auto).
  assert (Z1 : (bc =? 0)%float = true ->
               law_of_cosines_angle ab bc ca = 0%float
               /\ law_of_cosines_angle ca ab bc = 0%float)
    by (intros H; split; apply zero_edge_angles; auto).
  assert (Z2 : (ca =? 0)%float = true ->
               law_of_cosines_angle ab bc ca = 0%float
               /\ law_of_cosines_angle bc ca ab = 0%float)
    by (intros H; split; apply zero_edge_angles; auto).
  repeat (split; [assumption|]).
  pose proof (triangle_metrics_cases a b c) as H. cbv zeta in H.
  fold ab bc ca in H.
  destruct (vanishing (a, b, c)); [exact H|].
  destruct H as (metrics & H & E). exists metrics. split; [exact H|].
  rewrite E.
  destruct (py_min3_lower (in_degrees (law_of_cosines_angle ab bc ca))
              (in_degrees (law_of_cosines_angle bc ca ab))
              (in_degrees (law_of_cosines_angle ca ab bc)))
    as (H0 & H1 & H2).
  apply orb_true_iff in Hz as [Hz | Hz];
    [apply orb_true_iff in Hz as [Hz | Hz]|].
  - destruct (Z0 Hz) as [E1 _]. exact (zero_in_degrees _ _ E1 H1).
  - destruct (Z1 Hz) as [E0 _]. exact (zero_in_degrees _ _ E0 H0).
  - destruct (Z2 Hz) as [E0 _]. exact (zero_in_degrees _ _ E0 H0).
Qed.

Lemma zero_edge_angle_is_never_positive_witness :
  exists metrics,
    triangle_metrics (P := cpython) needle = Ok metrics
    /\ (0 <? min_angle_deg metrics)%float = false.
Proof.
  exact (proj2 (proj2 (proj2
           (zero_edge_angle_is_never_positive cpython (0, 0)%float
              (0, 0)%float (1, 0)%float eq_refl)))).
Defined.

(** ** The command line *)

Section MainFacts.
Context {P : Platform} {F : Formatting}.

Lemma print_loop {A : Type} (s : stream) (text : A -> str) (items : list A)
      (out : list printed) :
  io_for_each (fun (_ : unit) item => print s (text item)) items tt out
  = (out ++ map (fun item => (s, text item)) items, Ok tt).
Proof.
  revert out. induction items as [|item items IH]; intros out;
    cbn [io_for_each map].
  - unfold io_ret. now rewrite app_nil_r.
  - unfold io_bind, print at 1. rewrite IH.
    now rewrite <- app_assoc.
Qed.

Lemma report_diff_prints (diff : TriangleDiff) (out : list printed) :
  report_diff diff out = (out ++ diff_report diff, Ok tt).
Proof.
  unfold report_diff, io_bind, print at 1.
  rewrite (print_loop stdout (fun item : str * Triangle =>
                                vertices_line (fst item) (snd item))).
  now rewrite <- app_assoc.
Qed.

Lemma report_diffs_print (diffs : list TriangleDiff) (out : list printed) :
  io_for_each (fun (_ : unit) diff => report_diff diff) diffs tt out
  = (out ++ flat_map diff_report diffs, Ok tt).
Proof.
  revert out. induction diffs as [|diff diffs IH]; intros out;
    cbn [io_for_each flat_map].
  - unfold io_ret. now rewrite app_nil_r.
  - unfold io_bind. rewrite report_diff_prints, IH.
    now rewrite <- app_assoc.
Qed.

Lemma report_sharp_prints (side : str) (sharp_angle : float)
      (sharp : list (Z * Z * TriangleMetrics)) (out : list printed) :
  report_sharp side sharp_angle sharp out
  = (out ++ sharp_report side sharp_angle sharp, Ok tt).
Proof.
  unfold report_sharp, io_bind, print at 1.
  rewrite (print_loop stdout sharp_line). unfold sharp_report.
  now rewrite <- app_assoc.
Qed.

(** One turn of the loop of [main], the two polylines found. *)
Lemma report_polyline_step (args : Args.Namespace)
      (reference_polys candidate_polys : list PolylineDump)
      (total : Z) (idx : Z) (ref_poly cand_poly : PolylineDump)
      (out : list printed) :
  getitem reference_polys idx = Ok ref_poly ->
  getitem candidate_polys idx = Ok cand_poly ->
  report_polyline args reference_polys candidate_polys total idx out
  = match compare_pair args (idx, (ref_poly, cand_poly)) with
    | Ok comparison =>
        (out ++ polyline_report comparison,
         Ok (total + len (snd comparison))%Z)
    | Raise e => (out, Raise e)
    end.
Proof.
  intros Hr Hc. unfold report_polyline, io_bind, lift, compare_pair.
  rewrite Hr, Hc.
  destruct (compare_polylines ref_poly cand_poly _ _) as [diffs|e];
    cbn [bind]; [|reflexivity].
  destruct diffs as [|d diffs]; cbn [polyline_report snd].
  - unfold io_ret, len. cbn [length]. now rewrite app_nil_r, Z.add_0_r.
  - unfold print at 1. rewrite report_diffs_print. unfold io_ret.
    now rewrite <- app_assoc.
Qed.

Lemma nth_error_combine {A B : Type} (l : list A) (l' : list B) (n : nat)
      (x : A) (y : B) :
  nth_error (combine l l') n = Some (x, y) ->
  nth_error l n = Some x /\ nth_error l' n = Some y.
Proof.
  revert l' n. induction l as [|a l IH]; intros [|b l'] [|n]; simpl;
    try discriminate.
  - now intros [= -> ->].
  - apply IH.
Qed.

Lemma getitem_nth {A : Type} (l : list A) (n : nat) (x : A) :
  nth_error l n = Some x -> getitem l (Z.of_nat n) = Ok x.
Proof.
  intros H. unfold getitem.
  assert (Hn : (n < length l)%nat) by (apply nth_error_Some; congruence).
  destruct (Z.ltb_spec (Z.of_nat n) 0); [lia|].
  destruct (Z.leb_spec 0 (Z.of_nat n)); [|lia].
  destruct (Z.ltb_spec (Z.of_nat n) (Z.of_nat (length l))); [|lia].
  cbn [andb]. now rewrite Nat2Z.id, H.
Qed.

Lemma enumerate_In {A : Type} (l : list A) (idx : Z) (x : A) :
  In (idx, x) (enumerate l) ->
  exists n, idx = Z.of_nat n /\ nth_error l n = Some x.
Proof.
  unfold enumerate, range, len. rewrite Nat2Z.id.
  assert (G : forall k,
             In (idx, x) (combine (map Z.of_nat (seq k (length l))) l) ->
             exists n, idx = Z.of_nat (k + n) /\ nth_error l n = Some x).
  { induction l as [|a l IH]; intros k; cbn [length seq map combine].
    - intros [].
    - intros [[= <- <-] | H].
      + exists 0%nat. split; [f_equal; lia | reflexivity].
      + destruct (IH _ H) as (n & -> & Hn). exists (S n).
        split; [f_equal; lia | exact Hn]. }
  intros H. destruct (G 0%nat H) as (n & -> & Hn). now exists n.
Qed.

Lemma enumerate_fst {A : Type} (l : list A) :
  map fst (enumerate l) = range (len l).
Proof.
  unfold enumerate.
  assert (G : forall (idxs : list Z) (l : list A),
             length idxs = length l -> map fst (combine idxs l) = idxs).
  { induction idxs as [|i idxs IH]; intros [|a l'] H; simpl in *;
      try discriminate; [reflexivity|]. f_equal. apply IH. lia. }
  apply G. unfold range, len. now rewrite length_map, length_seq, Nat2Z.id.
Qed.

Lemma existsb_enumerate_snd {A : Type} (f : A -> bool) (l : list A) :
  existsb (fun item : Z * A => f (snd item)) (enumerate l) = existsb f l.
Proof.
  unfold enumerate, range, len. rewrite Nat2Z.id.
  generalize 0%nat. induction l as [|a l IH]; intros k; [reflexivity|].
  cbn [length seq map combine existsb snd]. now rewrite IH.
Qed.

Lemma shared_pairs_In (reference_polys candidate_polys : list PolylineDump)
      (idx : Z) (ref_poly cand_poly : PolylineDump) :
  In (idx, (ref_poly, cand_poly)) (shared_pairs reference_polys candidate_polys) ->
  getitem reference_polys idx = Ok ref_poly
  /\ getitem candidate_polys idx = Ok cand_poly.
Proof.
  intros H. apply enumerate_In in H as (n & -> & H).
  apply nth_error_combine in H as [Hr Hc].
  split; now apply getitem_nth.
Qed.

Lemma shared_pairs_fst (reference_polys candidate_polys : list PolylineDump) :
  map fst (shared_pairs reference_polys candidate_polys)
  = range (Z.min (len reference_polys) (len candidate_polys)).
Proof.
  unfold shared_pairs. rewrite enumerate_fst. f_equal.
  unfold len. rewrite length_combine. lia.
Qed.

(** The loop of [main] over the shared pairs. *)
Lemma report_loop (args : Args.Namespace)
      (reference_polys candidate_polys : list PolylineDump)
      (pairs : list (Z * (PolylineDump * PolylineDump))) :
  (forall idx ref_poly cand_poly,
      In (idx, (ref_poly, cand_poly)) pairs ->
      getitem reference_polys idx = Ok ref_poly
      /\ getitem candidate_polys idx = Ok cand_poly) ->
  forall (total : Z) (out : list printed),
    match map_result (compare_pair args) pairs with
    | Ok comparisons =>
        io_for_each (report_polyline args reference_polys candidate_polys)
                    (map fst pairs) total out
        = (out ++ flat_map polyline_report comparisons,
           Ok (total + mismatched comparisons)%Z)
    | Raise e =>
        exists partial,
        io_for_each (report_polyline args reference_polys candidate_polys)
                    (map fst pairs) total out
        = (out ++ partial, Raise e)
    end.
Proof.
  induction pairs as [|[idx [rp cp]] pairs IH]; intros Hin total out.
  - cbn. unfold io_ret, mismatched, len. cbn.
    now rewrite app_nil_r, Z.add_0_r.
  - cbn [map fst io_for_each map_result]. unfold io_bind.
    destruct (Hin idx rp cp (or_introl eq_refl)) as [Hr Hc].
    rewrite (report_polyline_step args _ _ total idx rp cp out Hr Hc).
    destruct (compare_pair args (idx, (rp, cp))) as [c|e]; cbn [bind].
    + assert (Hin' : forall idx ref_poly cand_poly,
                 In (idx, (ref_poly, cand_poly)) pairs ->
                 getitem reference_polys idx = Ok ref_poly
                 /\ getitem candidate_polys idx = Ok cand_poly)
        by (intros; apply Hin; now right).
      specialize (IH Hin' (total + len (snd c))%Z (out ++ polyline_report c)).
      destruct (map_result (compare_pair args) pairs) as [cs|e]; cbn [bind].
      * rewrite IH. cbn [flat_map]. rewrite <- app_assoc. f_equal. f_equal.
        unfold mismatched, len. cbn [flat_map]. rewrite length_app. lia.
      * destruct IH as (partial & ->).
        exists (polyline_report c ++ partial). now rewrite <- app_assoc.
    + exists []. now rewrite app_nil_r.
Qed.

Lemma compare_pairs_total (args : Args.Namespace)
      (pairs : list (Z * (PolylineDump * PolylineDump))) :
  if existsb (fun pair => pair_fails args (snd pair)) pairs
  then map_result (compare_pair args) pairs = Raise ZeroDivisionError
  else exists comparisons,
      map_result (compare_pair args) pairs = Ok comparisons.
Proof.
  induction pairs as [|[idx [rp cp]] pairs IH];
    cbn [existsb map_result snd]; [eauto|].
  unfold compare_pair at 1. unfold compare_pair at 2.
  pose proof (compare_polylines_total rp cp (Args.tolerance args)
                (Args.max_triangles args)) as H.
  unfold pair_fails at 1. cbn [fst snd].
  destruct (existsb _ (range _)); cbn [orb].
  { now rewrite H. }
  destruct H as (diffs & ->). cbn [bind].
  destruct (existsb _ pairs).
  - now rewrite IH.
  - destruct IH as (cs & ->). cbn [bind]. eauto.
Qed.

Lemma collect_sharp_total (polylines : list PolylineDump) (thr : float) :
  if any_vanishing polylines
  then collect_sharp_triangles polylines thr = Raise ZeroDivisionError
  else exists results, collect_sharp_triangles polylines thr = Ok results.
Proof. apply sharp_outer_total. Qed.

Lemma load_logs_Raise (reference_path candidate_path : str)
      (reference_raw candidate_raw : Codec.bytes) (e : exn) :
  load_logs reference_path candidate_path reference_raw candidate_raw
  = Raise e ->
  is_ParseError e = true.
Proof.
  assert (G : forall path raw, parse_log path raw = Raise e ->
                               is_ParseError e = true).
  { intros path raw H. unfold parse_log in H.
    apply bind_Raise in H as [H | (lines & _ & H)].
    - unfold _iter_lines in H.
      destruct (first_decoding encodings raw); [discriminate|].
      now injection H as <-.
    - apply parse_lines_Raise in H
        as [-> | (raw_line & _ & [-> | ->])]; reflexivity. }
  unfold load_logs. intros H.
  apply bind_Raise in H as [H | (r & _ & H)]; [eapply G, H|].
  apply bind_Raise in H as [H | (c & _ & H)]; [eapply G, H|discriminate].
Qed.

Lemma warning_prints (reference_polys candidate_polys : list PolylineDump)
      (out : list printed) :
  (if negb (len reference_polys =? len candidate_polys)%Z
   then print stderr (warning_line reference_polys candidate_polys)
   else io_ret tt) out
  = (out ++ warning reference_polys candidate_polys, Ok tt).
Proof.
  unfold warning.
  destruct (len reference_polys =? len candidate_polys)%Z; cbn [negb].
  - unfold io_ret. now rewrite app_nil_r.
  - reflexivity.
Qed.

(** What [main] does, case by case, once the two dumps are loaded. *)
Lemma main_run (args : Args.Namespace)
      (reference_raw candidate_raw : Codec.bytes) (out : list printed)
      (reference_dump candidate_dump : list PolylineDump) :
  load_logs (Args.reference args) (Args.candidate args)
            reference_raw candidate_raw
  = Ok (reference_dump, candidate_dump) ->
  let reference_polys :=
    selected reference_dump (Args.reference_offset args) (Args.limit args) in
  let candidate_polys :=
    selected candidate_dump (Args.candidate_offset args) (Args.limit args) in
  let shared_count := Z.min (len reference_polys) (len candidate_polys) in
  match map_result (compare_pair args)
                   (shared_pairs reference_polys candidate_polys) with
  | Raise e =>
      exists partial,
      main args reference_raw candidate_raw out
      = (out ++ warning reference_polys candidate_polys ++ partial, Raise e)
  | Ok comparisons =>
      let report :=
        out ++ warning reference_polys candidate_polys
        ++ flat_map polyline_report comparisons
        ++ [(stdout, total_line (mismatched comparisons))] in
      match Args.sharp_angle args with
      | None => main args reference_raw candidate_raw out = (report, Ok 0%Z)
      | Some sharp_angle =>
          match collect_sharp_triangles
                  (slice_to reference_polys shared_count) sharp_angle,
                collect_sharp_triangles
                  (slice_to candidate_polys shared_count) sharp_angle with
          | Ok sharp_ref, Ok sharp_cand =>
              main args reference_raw candidate_raw out
              = (report ++ sharp_section sharp_angle sharp_ref sharp_cand,
                 Ok 0%Z)
          | Raise e, _ | Ok _, Raise e =>
              main args reference_raw candidate_raw out = (report, Raise e)
          end
      end
  end.
Proof.
  intros Hload rs cs shared.
  pose proof (report_loop args rs cs (shared_pairs rs cs)
                (shared_pairs_In rs cs) 0%Z (out ++ warning rs cs)) as Hloop.
  rewrite shared_pairs_fst in Hloop. fold shared in Hloop.
  assert (Hmain : main args reference_raw candidate_raw out
                  = match io_for_each (report_polyline args rs cs)
                                      (range shared) 0%Z
                                      (out ++ warning rs cs) with
                    | (out1, Ok total_mismatched) =>
                        match Args.sharp_angle args with
                        | Some sharp_angle =>
                            match collect_sharp_triangles
                                    (slice_to rs shared) sharp_angle with
                            | Ok sharp_ref =>
                                match collect_sharp_triangles
                                        (slice_to cs shared) sharp_angle with
                                | Ok sharp_cand =>
                                    (out1
                                     ++ [(stdout,
                                          total_line total_mismatched)]
                                     ++ sharp_section sharp_angle sharp_ref
                                                      sharp_cand, Ok 0%Z)
                                | Raise e =>
                                    (out1
                                     ++ [(stdout,
                                          total_line total_mismatched)],
                                     Raise e)
                                end
                            | Raise e =>
                                (out1
                                 ++ [(stdout, total_line total_mismatched)],
                                 Raise e)
                            end
                        | None =>
                            (out1 ++ [(stdout, total_line total_mismatched)],
                             Ok 0%Z)
                        end
                    | (out1, Raise e) => (out1, Raise e)
                    end).
  { unfold main. unfold io_bind at 1. unfold lift at 1. rewrite Hload.
    fold rs cs. cbv zeta. fold shared.
    unfold io_bind at 1. rewrite warning_prints.
    unfold io_bind at 1.
    destruct (io_for_each (report_polyline args rs cs) (range shared) 0%Z
                          (out ++ warning rs cs)) as [out1 [total|e]];
      [|reflexivity].
    unfold io_bind at 1. unfold print at 1.
    unfold io_bind at 1.
    destruct (Args.sharp_angle args) as [sharp_angle|]; [|reflexivity].
    unfold io_bind at 1. unfold lift at 1.
    destruct (collect_sharp_triangles (slice_to rs shared) sharp_angle)
      as [sharp_ref|e]; [|reflexivity].
    unfold io_bind at 1. unfold lift at 1.
    destruct (collect_sharp_triangles (slice_to cs shared) sharp_angle)
      as [sharp_cand|e]; [|reflexivity].
    unfold sharp_section.
    destruct sharp_ref as [|r sharp_ref].
    - destruct sharp_cand as [|c sharp_cand].
      + unfold io_ret. now rewrite !app_nil_r.
      + unfold io_bind. rewrite !report_sharp_prints. unfold io_ret.
        now rewrite <- !app_assoc.
    - unfold io_bind. rewrite !report_sharp_prints. unfold io_ret.
      now rewrite <- !app_assoc. }
  rewrite Hmain. clear Hmain.
  destruct (map_result (compare_pair args) (shared_pairs rs cs))
    as [comparisons|e].
  - rewrite Hloop, Z.add_0_l. cbv zeta.
    destruct (Args.sharp_angle args) as [sharp_angle|].
    + destruct (collect_sharp_triangles (slice_to rs shared) sharp_angle)
        as [sharp_ref|e].
      * destruct (collect_sharp_triangles (slice_to cs shared) sharp_angle)
          as [sharp_cand|e]; now rewrite <- !app_assoc.
      * now rewrite <- !app_assoc.
    + now rewrite <- !app_assoc.
  - destruct Hloop as (partial & Hloop). exists partial.
    rewrite Hloop. now rewrite <- app_assoc.
Qed.

End MainFacts.

Section Selection.
Context {P : Platform}.

Lemma parse_lines_positions (path : str) (lines : list str)
      (result : list PolylineDump) (n : nat) (d : PolylineDump) :
  parse_lines path lines = Ok result ->
  nth_error result n = Some d -> index d = Z.of_nat n.
Proof.
  intros H. unfold parse_lines in H.
  apply bind_Ok in H as (st & Hloop & H). injection H as <-.
  assert (Hn : numbered (finish_current st)).
  { apply numbered_finish. eapply numbered_for_each; [|exact Hloop].
    split; cbn [fst snd]; [|discriminate].
    intros [|i] d'; discriminate. }
  destruct Hn as [Hp _]. apply Hp.
Qed.

Lemma parse_log_positions (path : str) (raw : Codec.bytes)
      (result : list PolylineDump) (n : nat) (d : PolylineDump) :
  parse_log path raw = Ok result ->
  nth_error result n = Some d -> index d = Z.of_nat n.
Proof.
  unfold parse_log. intros H. apply bind_Ok in H as (lines & _ & H).
  eapply parse_lines_positions, H.
Qed.

Lemma selected_nth (polys : list PolylineDump) (offset : Z)
      (limit : option Z) (n : nat) (d : PolylineDump) :
  nth_error (selected polys offset limit) n = Some d ->
  nth_error polys (slice_bound polys offset + n) = Some d
  /\ ((0 <= offset)%Z -> Z.of_nat (slice_bound polys offset) = offset).
Proof.
  unfold selected. intros H.
  assert (H' : nth_error (slice_from polys offset) n = Some d).
  { assert (E : (if (offset =? 0)%Z then polys else slice_from polys offset)
                = slice_from polys offset).
    { destruct (Z.eqb_spec offset 0) as [-> |]; [|reflexivity].
      unfold slice_from, slice_bound. cbn [Z.ltb Z.compare].
      now replace (Z.to_nat (Z.min 0 (len polys))) with 0%nat
        by (unfold len; lia). }
    rewrite E in H. destruct limit as [limit|]; [|exact H].
    unfold slice_to in H. rewrite nth_error_firstn in H.
    now destruct (Nat.ltb n _). }
  clear H. unfold slice_from in H'. rewrite nth_error_skipn in H'.
  split; [exact H'|].
  intros Hoff. unfold slice_bound in *.
  destruct (Z.ltb_spec offset 0); [lia|].
  assert (Hlt : (Z.to_nat (Z.min offset (len polys)) + n < length polys)%nat)
    by (apply nth_error_Some; congruence).
  unfold len in *. lia.
Qed.

End Selection.

(** X24.  How [main] ends.  When a dump cannot be loaded, [main] raises
    the [ParseError] of [parse_log] and prints nothing.  Otherwise it
    returns 0, mismatches or not, unless a [ZeroDivisionError] stops it:
    that of a comparison of a shared pair, or, when [sharp_angle] is set
    (the command line always sets it), that of any triangle of the shared
    polylines of either dump, reported or not. *)
Theorem main_returns_zero_or_fails :
  forall (P : Platform) (F : Formatting) (args : Args.Namespace)
         (reference_raw candidate_raw : Codec.bytes) (out : list printed),
    (forall e,
        load_logs (Args.reference args) (Args.candidate args)
                  reference_raw candidate_raw = Raise e ->
        main args reference_raw candidate_raw out = (out, Raise e)
        /\ is_ParseError e = true)
    /\ (forall reference_dump candidate_dump,
           load_logs (Args.reference args) (Args.candidate args)
                     reference_raw candidate_raw
           = Ok (reference_dump, candidate_dump) ->
           let reference_polys :=
             selected reference_dump (Args.reference_offset args)
                      (Args.limit args) in
           let candidate_polys :=
             selected candidate_dump (Args.candidate_offset args)
                      (Args.limit args) in
           let shared_count :=
             Z.min (len reference_polys) (len candidate_polys) in
           snd (main args reference_raw candidate_raw out)
           = if existsb (pair_fails args)
                        (combine reference_polys candidate_polys)
                || match Args.sharp_angle args with
                   | Some _ =>
                       any_vanishing (slice_to reference_polys shared_count)
                       || any_vanishing (slice_to candidate_polys
                                                  shared_count)
                   | None => false
                   end
             then Raise ZeroDivisionError
             else Ok 0%Z).
Proof.
  intros P F args reference_raw candidate_raw out. split.
  - intros e H. split; [|eapply load_logs_Raise, H].
    unfold main, io_bind, lift. now rewrite H.
  - intros rd cd H rs cs shared.
    pose proof (main_run args reference_raw candidate_raw out rd cd H) as R.
    cbv zeta in R. fold rs cs in R. fold shared in R.
    pose proof (compare_pairs_total args (shared_pairs rs cs)) as C.
    unfold shared_pairs in C at 1.
    rewrite (existsb_enumerate_snd (pair_fails args)) in C.
    destruct (existsb (pair_fails args) (combine rs cs)); cbn [orb].
    { rewrite C in R. destruct R as (partial & ->). reflexivity. }
    destruct C as (comparisons & C). rewrite C in R.
    destruct (Args.sharp_angle args) as [sharp_angle|];
      [|now rewrite R].
    pose proof (collect_sharp_total (slice_to rs shared) sharp_angle) as Sr.
    pose proof (collect_sharp_total (slice_to cs shared) sharp_angle) as Sc.
    destruct (any_vanishing (slice_to rs shared)); cbn [orb].
    { rewrite Sr in R. now rewrite R. }
    destruct Sr as (sharp_ref & Sr). rewrite Sr in R.
    destruct (any_vanishing (slice_to cs shared)).
    { rewrite Sc in R. now rewrite R. }
    destruct Sc as (sharp_cand & Sc). rewrite Sc in R. now rewrite R.
Qed.

Lemma main_returns_zero_or_fails_witness :
  snd (main (sample_args 0) sample_sliver sample_sliver []) 
  = Raise ZeroDivisionError.
Proof.
  destruct (main_returns_zero_or_fails cpython cpython_formatting
              (sample_args 0) sample_sliver sample_sliver []) as [_ H].
  exact (H _ _ eq_refl).
Defined.

(** X25.  What [main] prints when it returns: the warning on [stderr]
    when the two selections differ in length; for each shared position, in
    order, whose comparison has a diff, the heading of the polyline and
    three lines for each diff; the total, which is the number of diffs over
    all shared positions; and, when [sharp_angle] is set and one of the
    two scans of the shared polylines finds a triangle, the two listings
    of sharp triangles.  The exit status is 0. *)
Theorem main_prints_the_report :
  forall (P : Platform) (F : Formatting) (args : Args.Namespace)
         (reference_raw candidate_raw : Codec.bytes)
         (out out' : list printed) (status : Z),
    main args reference_raw candidate_raw out = (out', Ok status) ->
    status = 0%Z
    /\ exists reference_dump candidate_dump comparisons sharp,
        load_logs (Args.reference args) (Args.candidate args)
                  reference_raw candidate_raw
        = Ok (reference_dump, candidate_dump)
        /\ let reference_polys :=
             selected reference_dump (Args.reference_offset args)
                      (Args.limit args) in
           let candidate_polys :=
             selected candidate_dump (Args.candidate_offset args)
                      (Args.limit args) in
           let shared_count :=
             Z.min (len reference_polys) (len candidate_polys) in
           map_result (compare_pair args)
                      (shared_pairs reference_polys candidate_polys)
           = Ok comparisons
           /\ match Args.sharp_angle args with
              | Some sharp_angle =>
                  exists sharp_ref sharp_cand,
                  collect_sharp_triangles
                    (slice_to reference_polys shared_count) sharp_angle
                  = Ok sharp_ref
                  /\ collect_sharp_triangles
                       (slice_to candidate_polys shared_count) sharp_angle
                     = Ok sharp_cand
                  /\ sharp = sharp_section sharp_angle sharp_ref sharp_cand
              | None => sharp = []
              end
           /\ out' = out ++ warning reference_polys candidate_polys
                     ++ flat_map polyline_report comparisons
                     ++ [(stdout, total_line (mismatched comparisons))]
                     ++ sharp.
Proof.
  intros P F args reference_raw candidate_raw out out' status H.
  destruct (load_logs (Args.reference args) (Args.candidate args)
                      reference_raw candidate_raw) as [[rd cd]|e] eqn:L.
  2:{ unfold main, io_bind, lift in H. rewrite L in H. discriminate. }
  pose proof (main_run args reference_raw candidate_raw out rd cd L) as R.
  cbv zeta in R.
  set (rs := selected rd (Args.reference_offset args) (Args.limit args)) in *.
  set (cs := selected cd (Args.candidate_offset args) (Args.limit args)) in *.
  set (shared := Z.min (len rs) (len cs)) in *.
  destruct (map_result (compare_pair args) (shared_pairs rs cs))
    as [comparisons|e] eqn:C.
  2:{ destruct R as (partial & R). rewrite R in H. discriminate. }
  destruct (Args.sharp_angle args) as [sharp_angle|].
  - destruct (collect_sharp_triangles (slice_to rs shared) sharp_angle)
      as [sharp_ref|e] eqn:Sr.
    2:{ rewrite R in H. discriminate. }
    destruct (collect_sharp_triangles (slice_to cs shared) sharp_angle)
      as [sharp_cand|e] eqn:Sc.
    2:{ rewrite R in H. discriminate. }
    rewrite R in H. injection H as <- <-. split; [reflexivity|].
    exists rd, cd, comparisons, (sharp_section sharp_angle sharp_ref sharp_cand).
    split; [reflexivity|]. cbv zeta. fold rs cs. fold shared.
    rewrite C, Sr, Sc. split; [reflexivity|]. split.
    + exists sharp_ref, sharp_cand. auto.
    + now rewrite <- !app_assoc.
  - rewrite R in H. injection H as <- <-. split; [reflexivity|].
    exists rd, cd, comparisons, [].
    split; [reflexivity|]. cbv zeta. fold rs cs. fold shared.
    rewrite C. split; [reflexivity|]. split; [reflexivity|].
    now rewrite app_nil_r.
Qed.

Lemma main_prints_the_report_witness :
  0%Z = 0%Z
  /\ exists reference_dump candidate_dump comparisons sharp,
      load_logs (Args.reference (sample_args 0))
                (Args.candidate (sample_args 0))
                sample_reference sample_candidate
      = Ok (reference_dump, candidate_dump)
      /\ let reference_polys :=
           selected reference_dump (Args.reference_offset (sample_args 0))
                    (Args.limit (sample_args 0)) in
         let candidate_polys :=
           selected candidate_dump (Args.candidate_offset (sample_args 0))
                    (Args.limit (sample_args 0)) in
         let shared_count :=
           Z.min (len reference_polys) (len candidate_polys) in
         map_result (compare_pair (sample_args 0))
                    (shared_pairs reference_polys candidate_polys)
         = Ok comparisons
         /\ match Args.sharp_angle (sample_args 0) with
            | Some sharp_angle =>
                exists sharp_ref sharp_cand,
                collect_sharp_triangles
                  (slice_to reference_polys shared_count) sharp_angle
                = Ok sharp_ref
                /\ collect_sharp_triangles
                     (slice_to candidate_polys shared_count) sharp_angle
                   = Ok sharp_cand
                /\ sharp = sharp_section sharp_angle sharp_ref sharp_cand
            | None => sharp = []
            end
         /\ fst (main (sample_args 0) sample_reference sample_candidate [])
            = [] ++ warning reference_polys candidate_polys
              ++ flat_map polyline_report comparisons
              ++ [(stdout, total_line (mismatched comparisons))]
              ++ sharp.
Proof.
  apply (main_prints_the_report cpython cpython_formatting (sample_args 0)
           sample_reference sample_candidate []).
  vm_compute. reflexivity.
Defined.

(** The report of the sample dumps, the first polyline of the reference
    skipped: the polyline that the first section calls #0 is #1 in the
    second. *)
Example report_of_the_samples :
  main (sample_args 1) sample_reference sample_candidate []
  = ([(stdout,
       newline ++ lit "Polyline #0 (ref points=4, width=0.250, layer=B)");
      (stdout,
       lit "  Triangle 0: max_vertex_delta=10.000000 (max_coord_delta=10.000000), area_ref=5.000000, area_cand=0.501000, min_angle_ref=5.711"
       ++ degree ++ lit ", min_angle_cand=44.943" ++ degree);
      (stdout,
       lit "    ref: (0.000000, 0.000000) | (10.000000, 0.000000) | (10.000000, 1.000000)");
      (stdout,
       lit "    cand: (0.000000, 0.000000) | (1.000000, 0.000000) | (0.000000, 1.002000)");
      (stdout, newline ++ lit "Total mismatched triangles: 1");
      (stdout,
       newline ++ lit "Triangles with min angle <= 12.0" ++ degree
       ++ lit " (reference): 1");
      (stdout,
       lit "  Polyline #1 triangle 0: min_angle=5.711" ++ degree
       ++ lit ", area=5.000000, edges=[10.0, 1.0, 10.049876]");
      (stdout,
       newline ++ lit "Triangles with min angle <= 12.0" ++ degree
       ++ lit " (candidate): 0")],
     Ok 0%Z).
Proof.
  vm_compute. reflexivity.
Qed.

Section Labelling.
Context {P : Platform}.

Lemma sharp_entries_label (thr : float) (polys : list PolylineDump)
      (entry : Z * Z * TriangleMetrics) :
  In entry (flat_map (sharp_entries thr) polys) ->
  exists poly, In poly polys /\ fst (fst entry) = index poly.
Proof.
  intros H. apply in_flat_map in H as (poly & Hp & H).
  exists poly. split; [exact Hp|].
  unfold sharp_entries in H. apply in_flat_map in H as (item & _ & H).
  unfold sharp_entry in H.
  destruct (triangle_metrics (snd item)) as [m|]; [|destruct H].
  destruct (min_angle_deg m <=? thr)%float; [|destruct H].
  destruct H as [<- | []]. reflexivity.
Qed.

Lemma collect_sharp_label (polys : list PolylineDump) (thr : float)
      (results : list (Z * Z * TriangleMetrics))
      (entry : Z * Z * TriangleMetrics) :
  collect_sharp_triangles polys thr = Ok results -> In entry results ->
  exists poly, In poly polys /\ fst (fst entry) = index poly.
Proof.
  unfold collect_sharp_triangles. intros H Hin.
  apply sharp_outer in H. subst results. cbn [app] in Hin.
  now apply sharp_entries_label in Hin.
Qed.

Lemma enumerate_nth {A : Type} (l : list A) (n : nat) (x : A) :
  nth_error l n = Some x -> In (Z.of_nat n, x) (enumerate l).
Proof.
  unfold enumerate, range, len. rewrite Nat2Z.id.
  assert (G : forall k n,
             nth_error l n = Some x ->
             In (Z.of_nat (k + n), x)
                (combine (map Z.of_nat (seq k (length l))) l)).
  { induction l as [|a l IH]; intros k [|m] H; simpl in H;
      try discriminate; cbn [length seq map combine].
    - injection H as ->. left. f_equal. f_equal. lia.
    - right. replace (k + S m)%nat with (S k + m)%nat by lia.
      now apply IH. }
  apply (G 0%nat).
Qed.

Lemma combine_nth {A B : Type} (l : list A) (l' : list B) (n : nat)
      (x : A) :
  nth_error l n = Some x -> (n < length l')%nat ->
  exists y, nth_error (combine l l') n = Some (x, y).
Proof.
  revert l' n. induction l as [|a l IH]; intros [|b l'] [|n] H Hn;
    simpl in *; try discriminate; try lia.
  - injection H as ->. eauto.
  - apply IH; [exact H | lia].
Qed.

Lemma shared_prefix_In (reference_polys candidate_polys : list PolylineDump)
      (poly : PolylineDump) :
  In poly (slice_to reference_polys
                    (Z.min (len reference_polys) (len candidate_polys))) ->
  exists idx cand_poly,
    In (idx, (poly, cand_poly)) (shared_pairs reference_polys candidate_polys).
Proof.
  unfold slice_to, slice_bound. intros H.
  apply In_nth_error in H as (n & H).
  rewrite nth_error_firstn in H.
  destruct (Nat.ltb_spec n (Z.to_nat
              (if (Z.min (len reference_polys) (len candidate_polys) <? 0)%Z
               then Z.max (Z.min (len reference_polys) (len candidate_polys)
                           + len reference_polys) 0
               else Z.min (Z.min (len reference_polys) (len candidate_polys))
                          (len reference_polys)))) as [Hn|];
    [|discriminate].
  assert (Hc : (n < length candidate_polys)%nat).
  { revert Hn. unfold len.
    destruct (Z.ltb_spec (Z.min (Z.of_nat (length reference_polys))
                                (Z.of_nat (length candidate_polys))) 0);
      lia. }
  destruct (combine_nth _ candidate_polys _ _ H Hc) as (cp & Hp).
  exists (Z.of_nat n), cp. now apply enumerate_nth.
Qed.

Lemma shared_pairs_swap (reference_polys candidate_polys : list PolylineDump)
      (idx : Z) (ref_poly cand_poly : PolylineDump) :
  In (idx, (cand_poly, ref_poly))
     (shared_pairs candidate_polys reference_polys) ->
  In (idx, (ref_poly, cand_poly))
     (shared_pairs reference_polys candidate_polys).
Proof.
  intros H. apply enumerate_In in H as (n & -> & H).
  apply nth_error_combine in H as [Hc Hr].
  apply enumerate_nth.
  assert (Hn : (n < length candidate_polys)%nat)
    by (apply nth_error_Some; congruence).
  destruct (combine_nth _ candidate_polys _ _ Hr Hn) as (y & Hy).
  pose proof (nth_error_combine _ _ _ _ _ Hy) as [_ Hy'].
  congruence.
Qed.

End Labelling.

(** X26.  Which polylines are compared, and how the two sections of the
    report number them.  The pair at the shared position [idx] is made of
    the polyline that stands in its dump at the start of the selection
    plus [idx]: at [reference_offset + idx] and [candidate_offset + idx]
    for offsets that are not negative.  The heading of the first section
    prints the position [idx]; every entry of the second section belongs
    to a polyline of a shared pair and prints the [index] of the polyline,
    its position in its own dump. *)
Theorem shared_positions_and_indices :
  forall (P : Platform) (F : Formatting) (args : Args.Namespace)
         (reference_raw candidate_raw : Codec.bytes)
         (reference_dump candidate_dump : list PolylineDump),
    load_logs (Args.reference args) (Args.candidate args)
              reference_raw candidate_raw
    = Ok (reference_dump, candidate_dump) ->
    let reference_polys :=
      selected reference_dump (Args.reference_offset args)
               (Args.limit args) in
    let candidate_polys :=
      selected candidate_dump (Args.candidate_offset args)
               (Args.limit args) in
    let shared_count := Z.min (len reference_polys) (len candidate_polys) in
    (forall idx ref_poly cand_poly,
        In (idx, (ref_poly, cand_poly))
           (shared_pairs reference_polys candidate_polys) ->
        index ref_poly
        = (Z.of_nat (slice_bound reference_dump (Args.reference_offset args))
           + idx)%Z
        /\ index cand_poly
           = (Z.of_nat (slice_bound candidate_dump
                                    (Args.candidate_offset args)) + idx)%Z
        /\ ((0 <= Args.reference_offset args)%Z ->
            index ref_poly = (Args.reference_offset args + idx)%Z)
        /\ ((0 <= Args.candidate_offset args)%Z ->
            index cand_poly = (Args.candidate_offset args + idx)%Z)
        /\ forall d diffs,
            In (stdout, polyline_heading idx ref_poly)
               (polyline_report (idx, ref_poly, d :: diffs)))
    /\ (forall sharp_angle results poly_idx tri_idx metrics,
           collect_sharp_triangles (slice_to reference_polys shared_count)
                                   sharp_angle = Ok results ->
           In (poly_idx, tri_idx, metrics) results ->
           exists idx ref_poly cand_poly,
             In (idx, (ref_poly, cand_poly))
                (shared_pairs reference_polys candidate_polys)
             /\ poly_idx = index ref_poly)
    /\ (forall sharp_angle results poly_idx tri_idx metrics,
           collect_sharp_triangles (slice_to candidate_polys shared_count)
                                   sharp_angle = Ok results ->
           In (poly_idx, tri_idx, metrics) results ->
           exists idx ref_poly cand_poly,
             In (idx, (ref_poly, cand_poly))
                (shared_pairs reference_polys candidate_polys)
             /\ poly_idx = index cand_poly).
Proof.
  intros P F args reference_raw candidate_raw rd cd L rs cs shared.
  unfold load_logs in L.
  apply bind_Ok in L as (rd' & Lr & L). apply bind_Ok in L as (cd' & Lc & L).
  injection L as <- <-. split; [|split].
  - intros idx rp cp Hin.
    apply enumerate_In in Hin as (n & -> & Hn).
    apply nth_error_combine in Hn as [Hr Hc].
    apply selected_nth in Hr as [Hr Br]. apply selected_nth in Hc as [Hc Bc].
    apply (parse_log_positions _ _ _ _ _ Lr) in Hr.
    apply (parse_log_positions _ _ _ _ _ Lc) in Hc.
    rewrite Hr, Hc, !Nat2Z.inj_add. repeat split; try reflexivity.
    + intros H. now rewrite (Br H).
    + intros H. now rewrite (Bc H).
    + intros d diffs. now left.
  - intros thr results poly_idx tri_idx metrics H Hin.
    destruct (collect_sharp_label _ _ _ _ H Hin) as (poly & Hp & Hi).
    apply shared_prefix_In in Hp as (idx & cp & Hp).
    exists idx, poly, cp. now split.
  - intros thr results poly_idx tri_idx metrics H Hin.
    destruct (collect_sharp_label _ _ _ _ H Hin) as (poly & Hp & Hi).
    unfold shared in Hp. rewrite Z.min_comm in Hp.
    apply shared_prefix_In in Hp as (idx & rp & Hp).
    exists idx, rp, poly. split; [now apply shared_pairs_swap | exact Hi].
Qed.

Lemma shared_positions_and_indices_witness :
  let reference_polys :=
    [{| index := 1; point_count := 4; width := 0.25; layer := lit "B";
        triangles := [((0, 0), (10, 0), (10, 1))%float] |}] in
  let candidate_polys :=
    [{| index := 0; point_count := 3; width := 0.5;
        layer := lit "LAYER:Cut";
        triangles := [((0, 0), (1, 0), (0, 1.002))%float] |}] in
  (forall idx ref_poly cand_poly,
      In (idx, (ref_poly, cand_poly))
         (shared_pairs reference_polys candidate_polys) ->
      index ref_poly = (Z.of_nat 1 + idx)%Z
      /\ index cand_poly = (Z.of_nat 0 + idx)%Z
      /\ ((0 <= 1)%Z -> index ref_poly = (1 + idx)%Z)
      /\ ((0 <= 0)%Z -> index cand_poly = (0 + idx)%Z)
      /\ forall d diffs,
          In (stdout, polyline_heading idx ref_poly)
             (polyline_report (idx, ref_poly, d :: diffs)))
  /\ (forall sharp_angle results poly_idx tri_idx metrics,
         collect_sharp_triangles (slice_to reference_polys 1) sharp_angle
         = Ok results ->
         In (poly_idx, tri_idx, metrics) results ->
         exists idx ref_poly cand_poly,
           In (idx, (ref_poly, cand_poly))
              (shared_pairs reference_polys candidate_polys)
           /\ poly_idx = index ref_poly)
  /\ (forall sharp_angle results poly_idx tri_idx metrics,
         collect_sharp_triangles (slice_to candidate_polys 1) sharp_angle
         = Ok results ->
         In (poly_idx, tri_idx, metrics) results ->
         exists idx ref_poly cand_poly,
           In (idx, (ref_poly, cand_poly))
              (shared_pairs reference_polys candidate_polys)
           /\ poly_idx = index cand_poly).
Proof.
  exact (shared_positions_and_indices cpython cpython_formatting
           (sample_args 1) sample_reference sample_candidate _ _ eq_refl).
Defined.
